(** * My-journal: the consolidation engine, its retry policy and its storage

    A shallow embedding of the parts of the journaling application that
    turn a chat stream into persisted records, and of the views around
    them:

    - [src/services/storageService.ts]  (module [Storage])
    - [src/services/geminiService.ts]   (module [Gemini]: [runWithRetry],
      [generateEntryFromChat]; modules [GeminiChat], [GeminiImport] and
      [ApiKey]: the chat functions, [processUploadedFile] and [getApiKey];
      the file holds two revisions of the client and the model follows
      the first, whose retry helper tests for a missing model)
    - [src/App.tsx]                     (module [App]: [handleAutoSync];
      module [AppData]: [loadData], [handleSaveEdit], [handleExportData])
    - [src/components/ChatInterface.tsx] and [src/components/AIChat.tsx]
      (modules [ChatInterface] and [AIChat]: [handleSend])
    - the calendar widget (modules [JSDate], [Calendar] and
      [CalendarView]) and the tasks view (module [TasksView])

    The definitions come first; the statements use the vocabulary of the
    modules [Pass] and [Sample...], and are proved in [StorageFacts],
    [RetryFacts], [PassFacts] and [CalendarFacts], and further in
    [StorageMore], [RetryMore], [ClientMore], [PassMore], [ChatMore],
    [ChatFunctions], [CalendarViewFacts], [AppDataFacts], [CalendarMore]
    and [KeyFacts].

    Conventions.  A JavaScript string is the list of its UTF-16 code units.
    A value that may be [undefined] at run time is an [option].  Code that
    may throw returns a sum whose left injection is the thrown error.
    Readings of the clock, of the random generator and of the remote model
    are inputs of the functions that use them. *)

From Stdlib Require Import String Ascii ZArith NArith List Bool Lia DecimalNat
  DecimalPos Permutation Sorted.
Import ListNotations.
Local Open Scope Z_scope.

(* ===================================================================== *)
(** * JavaScript strings *)
(* ===================================================================== *)

Module JS.

(** A string is a sequence of UTF-16 code units. *)
Definition jsstring := list N.

(** The string denoted by an ASCII literal. *)
Definition str (s : string) : jsstring :=
  map N_of_ascii (list_ascii_of_string s).

Definition eqb (a b : jsstring) : bool :=
  if list_eq_dec N.eq_dec a b then true else false.

(** Truthiness of a possibly undefined string: [undefined] and the empty
    string are falsy. *)
Definition truthy (o : option jsstring) : bool :=
  match o with
  | Some (_ :: _) => true
  | _ => false
  end.

(** [a || b] on strings, [b] being a string. *)
Definition or_else (o : option jsstring) (d : jsstring) : jsstring :=
  match o with
  | Some (c :: r) => c :: r
  | _ => d
  end.

(** Line terminators: LF, CR, LS, PS. *)
Definition is_line_terminator (c : N) : bool :=
  ((c =? 10) || (c =? 13) || (c =? 8232) || (c =? 8233))%N.

(** White space and line terminators, the code units [trim] strips. *)
Definition is_space (c : N) : bool :=
  ((c =? 9) || (c =? 11) || (c =? 12) || (c =? 32) || (c =? 160)
   || (c =? 5760) || ((8192 <=? c) && (c <=? 8202)) || (c =? 8239)
   || (c =? 8287) || (c =? 12288) || (c =? 65279)
   || is_line_terminator c)%N.

Fixpoint trimStart (s : jsstring) : jsstring :=
  match s with
  | [] => []
  | c :: r => if is_space c then trimStart r else s
  end.

Definition trimEnd (s : jsstring) : jsstring := rev (trimStart (rev s)).

Definition trim (s : jsstring) : jsstring := trimEnd (trimStart s).

Fixpoint startsWith (s p : jsstring) : bool :=
  match p, s with
  | [], _ => true
  | _ :: _, [] => false
  | x :: p', y :: s' => (x =? y)%N && startsWith s' p'
  end.

(** [s.includes(sub)] *)
Fixpoint includes (s sub : jsstring) : bool :=
  startsWith s sub ||
  match s with
  | [] => false
  | _ :: r => includes r sub
  end.

(** [error.message?.includes(sub)]: [undefined] when there is no message,
    which is falsy. *)
Definition includes_opt (o : option jsstring) (sub : string) : bool :=
  match o with
  | Some m => includes m (str sub)
  | None => false
  end.

(** [parts.join('\n')] *)
Fixpoint join_lines (parts : list jsstring) : jsstring :=
  match parts with
  | [] => []
  | [p] => p
  | p :: rest => p ++ 10%N :: join_lines rest
  end.

(** [s.split('\n')[0]]: the text before the first line feed. *)
Fixpoint first_line (s : jsstring) : jsstring :=
  match s with
  | [] => []
  | c :: r => if (c =? 10)%N then [] else c :: first_line r
  end.

(** [s.substring(0, n)] *)
Definition substring0 (n : nat) (s : jsstring) : jsstring := firstn n s.

(** ASCII lower-casing, the only case folding that can make a code unit
    match an ASCII letter of a pattern with the [i] flag (and no [u]
    flag). *)
Definition lower (c : N) : N :=
  if ((65 <=? c) && (c <=? 90))%N then (c + 32)%N else c.

Fixpoint startsWith_ci (s p : jsstring) : bool :=
  match p, s with
  | [], _ => true
  | _ :: _, [] => false
  | x :: p', y :: s' => (lower x =? lower y)%N && startsWith_ci s' p'
  end.

(** Length of the shortest match of [.*?\]] at the head of [s]: code units
    up to and including the first [']'], none of them a line terminator. *)
Fixpoint lazy_to_bracket (s : jsstring) : option nat :=
  match s with
  | [] => None
  | c :: r =>
      if (c =? 93)%N then Some 1%nat
      else if is_line_terminator c then None
      else option_map S (lazy_to_bracket r)
  end.

(** Length of the match of [/\[Attachment:.*?\]/i] anchored at the head of
    [s], if there is one. *)
Definition match_attachment_tag (s : jsstring) : option nat :=
  let p := str "[Attachment:" in
  if startsWith_ci s p
  then option_map (Nat.add (length p)) (lazy_to_bracket (skipn (length p) s))
  else None.

(** [s.replace(/\[Attachment:.*?\]/gi, '')]: scan from the left, delete each
    match and resume after it.  [skip] counts the code units of the current
    match still to delete. *)
Fixpoint strip_tags_from (skip : nat) (s : jsstring) : jsstring :=
  match s with
  | [] => []
  | c :: r =>
      match skip with
      | S k => strip_tags_from k r
      | O =>
          match match_attachment_tag s with
          | Some (S k) => strip_tags_from k r
          | _ => c :: strip_tags_from O r
          end
      end
  end.

Definition strip_attachment_tags (s : jsstring) : jsstring :=
  strip_tags_from O s.

(** Decimal digits of a number, most significant first. *)
Fixpoint digits (u : Decimal.uint) : jsstring :=
  match u with
  | Decimal.Nil => []
  | Decimal.D0 r => 48%N :: digits r
  | Decimal.D1 r => 49%N :: digits r
  | Decimal.D2 r => 50%N :: digits r
  | Decimal.D3 r => 51%N :: digits r
  | Decimal.D4 r => 52%N :: digits r
  | Decimal.D5 r => 53%N :: digits r
  | Decimal.D6 r => 54%N :: digits r
  | Decimal.D7 r => 55%N :: digits r
  | Decimal.D8 r => 56%N :: digits r
  | Decimal.D9 r => 57%N :: digits r
  end.

(** [n.toString()] for an index. *)
Definition show_nat (n : nat) : jsstring := digits (Nat.to_uint n).

(** [z.toString()] for an integer. *)
Definition show_Z (z : Z) : jsstring :=
  match z with
  | Z0 => [48%N]
  | Zpos p => digits (Pos.to_uint p)
  | Zneg p => 45%N :: digits (Pos.to_uint p)
  end.

End JS.

Import JS.


(* ===================================================================== *)
(** * The data model ([src/types.ts]) *)
(* ===================================================================== *)

Inductive JournalMode := PERSONAL | PROFESSIONAL.

Inductive Role := user | model.

Inductive AttachmentType := image | text.

Module Attachment.
Record t := {
  type : AttachmentType;
  content : jsstring;
  mimeType : option jsstring;
  name : option jsstring
}.
End Attachment.

Module ChatMessage.
Record t := {
  id : jsstring;
  role : Role;
  text : jsstring;
  timestamp : Z;
  attachment : option Attachment.t
}.
End ChatMessage.

(** An item of [JournalEntry.media]; its [type] is always ['image']. *)
Module Media.
Record t := {
  content : jsstring;
  mimeType : jsstring
}.
End Media.

(** The records below are built by spreading an object the remote model
    returned, so a field the TypeScript interface declares as a plain
    string can still be missing at run time: those fields are options. *)
Module CalendarEvent.
Record t := {
  id : jsstring;
  title : option jsstring;
  startTime : option jsstring;
  endTime : option jsstring;
  description : option jsstring;
  linkedEntryId : option jsstring
}.
End CalendarEvent.

Module Task.
Record t := {
  id : jsstring;
  title : option jsstring;
  completed : bool;
  dueDate : option jsstring;
  linkedEntryId : option jsstring
}.
End Task.

Inductive TxType := income | expense.

Module FinanceTransaction.
Record t := {
  id : jsstring;
  amount : option Z;
  type : option TxType;
  category : option jsstring;
  description : option jsstring;
  date : jsstring;
  linkedEntryId : option jsstring
}.
End FinanceTransaction.

Module JournalEntry.
Record t := {
  id : jsstring;
  title : jsstring;
  content : jsstring;
  date : jsstring;
  mode : JournalMode;
  tags : list jsstring;
  calendarEvents : list CalendarEvent.t;
  tasks : list Task.t;
  transactions : list FinanceTransaction.t;
  media : list Media.t;
  lastModified : Z
}.
End JournalEntry.

(** Records of a collection are keyed by their [id]. *)
Class Keyed (T : Type) := key : T -> jsstring.

#[export] Instance Keyed_entry : Keyed JournalEntry.t := JournalEntry.id.
#[export] Instance Keyed_event : Keyed CalendarEvent.t := CalendarEvent.id.
#[export] Instance Keyed_task : Keyed Task.t := Task.id.
#[export] Instance Keyed_tx : Keyed FinanceTransaction.t := FinanceTransaction.id.

(** The ids of a collection, in order. *)
Definition keys {T} `{Keyed T} (l : list T) : list jsstring := map key l.

(* ===================================================================== *)
(** * Arrays *)
(* ===================================================================== *)

Module Arr.

(** [l.findIndex(p)]: the first index whose element satisfies [p], or -1. *)
Fixpoint findIndex {T} (p : T -> bool) (l : list T) : Z :=
  match l with
  | [] => -1
  | x :: r =>
      if p x then 0
      else let i := findIndex p r in if i <? 0 then -1 else i + 1
  end.

(** [l[i] = v] for an index inside the array. *)
Fixpoint set {T} (i : nat) (v : T) (l : list T) : list T :=
  match l, i with
  | [], _ => []
  | _ :: r, O => v :: r
  | x :: r, S j => x :: set j v r
  end.

(** [l.find(p)], used only for its truthiness. *)
Definition found {T} (p : T -> bool) (l : list T) : bool := existsb p l.

(** [l.slice(start, end)] for indices that are not negative: both are
    clamped to the length. *)
Definition slice {T} (start stop : nat) (l : list T) : list T :=
  firstn (Nat.min stop (length l) - Nat.min start (length l))
         (skipn (Nat.min start (length l)) l).

(** [l.slice(start)] *)
Definition slice_from {T} (start : nat) (l : list T) : list T :=
  slice start (length l) l.

(** [l.map((x, i) => f(x, i))] *)
Fixpoint mapi_from {A B} (i : nat) (f : A -> nat -> B) (l : list A) : list B :=
  match l with
  | [] => []
  | x :: r => f x i :: mapi_from (S i) f r
  end.

Definition mapi {A B} (f : A -> nat -> B) (l : list A) : list B :=
  mapi_from O f l.

End Arr.

(* ===================================================================== *)
(** * Persistence ([src/services/storageService.ts]) *)
(* ===================================================================== *)

Module Storage.

(** What [localStorage] holds under the key of a collection: no text
    ([getItem] gives [null], or the empty string, both falsy), a text that
    [JSON.parse] rejects, or the JSON text of an array.  The program itself
    only ever writes arrays. *)
Inductive cell (T : Type) :=
| Absent
| Unparsable
| Stored (l : list T).
Arguments Absent {T}.
Arguments Unparsable {T}.
Arguments Stored {T} l.

(** [data ? JSON.parse(data) : []] inside [try], with [catch] giving [[]] *)
Definition read {T} (c : cell T) : list T :=
  match c with
  | Stored l => l
  | Absent | Unparsable => []
  end.

(** [localStorage.setItem(KEY, JSON.stringify(l))] *)
Definition write {T} (l : list T) : cell T := Stored l.

Record t := {
  STORAGE_KEY : cell JournalEntry.t;
  CALENDAR_KEY : cell CalendarEvent.t;
  TASKS_KEY : cell Task.t;
  FINANCE_KEY : cell FinanceTransaction.t;
  CHAT_PERSONAL_KEY : cell ChatMessage.t;
  CHAT_PROF_KEY : cell ChatMessage.t;
  (** the decimal text of a time stamp, when present *)
  BACKUP_TIMESTAMP_KEY : option Z
}.

Definition empty : t :=
  {| STORAGE_KEY := Absent; CALENDAR_KEY := Absent; TASKS_KEY := Absent;
     FINANCE_KEY := Absent; CHAT_PERSONAL_KEY := Absent;
     CHAT_PROF_KEY := Absent; BACKUP_TIMESTAMP_KEY := None |}.

Definition set_STORAGE (c : cell JournalEntry.t) (s : t) : t :=
  {| STORAGE_KEY := c; CALENDAR_KEY := CALENDAR_KEY s; TASKS_KEY := TASKS_KEY s;
     FINANCE_KEY := FINANCE_KEY s; CHAT_PERSONAL_KEY := CHAT_PERSONAL_KEY s;
     CHAT_PROF_KEY := CHAT_PROF_KEY s;
     BACKUP_TIMESTAMP_KEY := BACKUP_TIMESTAMP_KEY s |}.

Definition set_CALENDAR (c : cell CalendarEvent.t) (s : t) : t :=
  {| STORAGE_KEY := STORAGE_KEY s; CALENDAR_KEY := c; TASKS_KEY := TASKS_KEY s;
     FINANCE_KEY := FINANCE_KEY s; CHAT_PERSONAL_KEY := CHAT_PERSONAL_KEY s;
     CHAT_PROF_KEY := CHAT_PROF_KEY s;
     BACKUP_TIMESTAMP_KEY := BACKUP_TIMESTAMP_KEY s |}.

Definition set_TASKS (c : cell Task.t) (s : t) : t :=
  {| STORAGE_KEY := STORAGE_KEY s; CALENDAR_KEY := CALENDAR_KEY s; TASKS_KEY := c;
     FINANCE_KEY := FINANCE_KEY s; CHAT_PERSONAL_KEY := CHAT_PERSONAL_KEY s;
     CHAT_PROF_KEY := CHAT_PROF_KEY s;
     BACKUP_TIMESTAMP_KEY := BACKUP_TIMESTAMP_KEY s |}.

Definition set_FINANCE (c : cell FinanceTransaction.t) (s : t) : t :=
  {| STORAGE_KEY := STORAGE_KEY s; CALENDAR_KEY := CALENDAR_KEY s;
     TASKS_KEY := TASKS_KEY s; FINANCE_KEY := c;
     CHAT_PERSONAL_KEY := CHAT_PERSONAL_KEY s;
     CHAT_PROF_KEY := CHAT_PROF_KEY s;
     BACKUP_TIMESTAMP_KEY := BACKUP_TIMESTAMP_KEY s |}.

Definition set_CHAT (mode : JournalMode) (c : cell ChatMessage.t) (s : t) : t :=
  {| STORAGE_KEY := STORAGE_KEY s; CALENDAR_KEY := CALENDAR_KEY s;
     TASKS_KEY := TASKS_KEY s; FINANCE_KEY := FINANCE_KEY s;
     CHAT_PERSONAL_KEY :=
       match mode with PERSONAL => c | PROFESSIONAL => CHAT_PERSONAL_KEY s end;
     CHAT_PROF_KEY :=
       match mode with PERSONAL => CHAT_PROF_KEY s | PROFESSIONAL => c end;
     BACKUP_TIMESTAMP_KEY := BACKUP_TIMESTAMP_KEY s |}.

Definition set_BACKUP (b : option Z) (s : t) : t :=
  {| STORAGE_KEY := STORAGE_KEY s; CALENDAR_KEY := CALENDAR_KEY s;
     TASKS_KEY := TASKS_KEY s; FINANCE_KEY := FINANCE_KEY s;
     CHAT_PERSONAL_KEY := CHAT_PERSONAL_KEY s;
     CHAT_PROF_KEY := CHAT_PROF_KEY s; BACKUP_TIMESTAMP_KEY := b |}.

(** ** Entries *)

Definition getEntries (s : t) : list JournalEntry.t := read (STORAGE_KEY s).

(** The array [saveEntry] writes back, from the array it read. *)
Definition saveEntry_list (entry : JournalEntry.t) (entries : list JournalEntry.t)
  : list JournalEntry.t :=
  let existingIndex :=
    Arr.findIndex (fun e => eqb (JournalEntry.id e) (JournalEntry.id entry)) entries in
  if existingIndex >=? 0
  then Arr.set (Z.to_nat existingIndex) entry entries
  else entries ++ [entry].

Definition saveEntry (entry : JournalEntry.t) (s : t) : t :=
  let entries := getEntries s in
  set_STORAGE (write (saveEntry_list entry entries)) s.

Definition deleteEntry (id : jsstring) (s : t) : t :=
  let entries :=
    filter (fun e => negb (eqb (JournalEntry.id e) id)) (getEntries s) in
  set_STORAGE (write entries) s.

(** ** Calendar *)

Definition getCalendarEvents (s : t) : list CalendarEvent.t :=
  read (CALENDAR_KEY s).

Definition addCalendarEvents_list (events current : list CalendarEvent.t)
  : list CalendarEvent.t :=
  current ++
  filter (fun e =>
            negb (Arr.found (fun c => eqb (CalendarEvent.id c) (CalendarEvent.id e))
                            current))
         events.

Definition addCalendarEvents (events : list CalendarEvent.t) (s : t) : t :=
  let current := getCalendarEvents s in
  set_CALENDAR (write (addCalendarEvents_list events current)) s.

(** ** Tasks *)

Definition getTasks (s : t) : list Task.t := read (TASKS_KEY s).

(** One turn of the [forEach] of [saveTasks]. *)
Definition saveTasks_step (updated : list Task.t) (t0 : Task.t) : list Task.t :=
  let idx :=
    Arr.findIndex (fun existing => eqb (Task.id existing) (Task.id t0)) updated in
  if idx >=? 0 then Arr.set (Z.to_nat idx) t0 updated else updated ++ [t0].

Definition saveTasks_list (tasks current : list Task.t) : list Task.t :=
  fold_left saveTasks_step tasks current.

Definition saveTasks (tasks : list Task.t) (s : t) : t :=
  let current := getTasks s in
  set_TASKS (write (saveTasks_list tasks current)) s.

Definition updateTaskStatus (id : jsstring) (completed : bool) (s : t) : t :=
  let tasks :=
    map (fun t0 =>
           if eqb (Task.id t0) id
           then {| Task.id := Task.id t0; Task.title := Task.title t0;
                   Task.completed := completed; Task.dueDate := Task.dueDate t0;
                   Task.linkedEntryId := Task.linkedEntryId t0 |}
           else t0)
        (getTasks s) in
  set_TASKS (write tasks) s.

Definition deleteTask (id : jsstring) (s : t) : t :=
  set_TASKS (write (filter (fun t0 => negb (eqb (Task.id t0) id)) (getTasks s))) s.

(** ** Finance *)

Definition getTransactions (s : t) : list FinanceTransaction.t :=
  read (FINANCE_KEY s).

Definition addTransactions_list (txs current : list FinanceTransaction.t)
  : list FinanceTransaction.t :=
  current ++ txs.

Definition addTransactions (txs : list FinanceTransaction.t) (s : t) : t :=
  let current := getTransactions s in
  set_FINANCE (write (addTransactions_list txs current)) s.

(** ** Chat history *)

Definition getChatHistory (mode : JournalMode) (s : t) : list ChatMessage.t :=
  read (match mode with
        | PERSONAL => CHAT_PERSONAL_KEY s
        | PROFESSIONAL => CHAT_PROF_KEY s
        end).

Definition saveChatHistory (mode : JournalMode) (messages : list ChatMessage.t)
  (s : t) : t :=
  set_CHAT mode (write messages) s.

(** ** Backup and restore *)

Definition getLastBackupTime (s : t) : Z :=
  match BACKUP_TIMESTAMP_KEY s with
  | Some z => z
  | None => 0
  end.

Definition updateLastBackupTime (now : Z) (s : t) : t :=
  set_BACKUP (Some now) s.

(** The object [getAllData] returns, which is also what [restoreData]
    receives; there it comes from an imported file, so a field can be
    missing or hold something that is not an array: [None]. *)
Record Backup := {
  entries : option (list JournalEntry.t);
  calendar : option (list CalendarEvent.t);
  tasks : option (list Task.t);
  finance : option (list FinanceTransaction.t);
  chatPersonal : option (list ChatMessage.t);
  chatProf : option (list ChatMessage.t);
  lastBackup : option Z;
  timestamp : Z
}.

Definition getAllData (now : Z) (s : t) : Backup :=
  {| entries := Some (getEntries s);
     calendar := Some (getCalendarEvents s);
     tasks := Some (getTasks s);
     finance := Some (getTransactions s);
     chatPersonal := Some (getChatHistory PERSONAL s);
     chatProf := Some (getChatHistory PROFESSIONAL s);
     lastBackup := Some (getLastBackupTime s);
     timestamp := now |}.

(** [if (data.x && Array.isArray(data.x)) localStorage.setItem(KEY, ...)] *)
Definition restore_cell {T} (field : option (list T)) (c : cell T) : cell T :=
  match field with
  | Some l => write l
  | None => c
  end.

Definition restoreData (data : Backup) (s : t) : t :=
  {| STORAGE_KEY := restore_cell (entries data) (STORAGE_KEY s);
     CALENDAR_KEY := restore_cell (calendar data) (CALENDAR_KEY s);
     TASKS_KEY := restore_cell (tasks data) (TASKS_KEY s);
     FINANCE_KEY := restore_cell (finance data) (FINANCE_KEY s);
     CHAT_PERSONAL_KEY := restore_cell (chatPersonal data) (CHAT_PERSONAL_KEY s);
     CHAT_PROF_KEY := restore_cell (chatProf data) (CHAT_PROF_KEY s);
     BACKUP_TIMESTAMP_KEY :=
       match lastBackup data with
       | Some z => if z =? 0 then BACKUP_TIMESTAMP_KEY s else Some z
       | None => BACKUP_TIMESTAMP_KEY s
       end |}.

End Storage.

(* ===================================================================== *)
(** * Effects: state and exceptions *)
(* ===================================================================== *)

(** A thrown value, as the retry helper inspects it: [error.status] and
    [error.message]. *)
Module Error.
Record t := {
  status : option Z;
  message : option jsstring
}.

(** [new Error(msg)] *)
Definition make (msg : string) : t :=
  {| status := None; message := Some (str msg) |}.
End Error.

(** A computation over a state [S] that returns a [T] or throws; the state
    it leaves behind is kept in both cases. *)
Definition M (S T : Type) : Type := S -> S * (Error.t + T).

Definition ret {S T} (v : T) : M S T := fun s => (s, inr v).

Definition throw {S T} (e : Error.t) : M S T := fun s => (s, inl e).

Definition bind {S A B} (c : M S A) (k : A -> M S B) : M S B :=
  fun s =>
    match c s with
    | (s', inr v) => k v s'
    | (s', inl e) => (s', inl e)
    end.

(** [try { c } catch (e) { h(e) }] *)
Definition try_catch {S T} (c : M S T) (h : Error.t -> M S T) : M S T :=
  fun s =>
    match c s with
    | (s', inr v) => (s', inr v)
    | (s', inl e) => h e s'
    end.

(** [try { c } finally { f }], [f] not throwing. *)
Definition try_finally {S T} (c : M S T) (f : S -> S) : M S T :=
  fun s => let '(s', r) := c s in (f s', r).

(** Run a computation over a part [A] of the state [S]. *)
Definition zoom {S A T} (get : S -> A) (put : A -> S -> S) (c : M A T) : M S T :=
  fun s => let '(a, r) := c (get s) in (put a s, r).

(** A statement that only updates the state. *)
Definition exec {S} (f : S -> S) : M S unit := fun s => (f s, inr tt).

Declare Scope eff_scope.
Delimit Scope eff_scope with eff.
Notation "x <- c ;; k" := (bind c (fun x => k))
  (at level 61, c at next level, right associativity) : eff_scope.
Notation "c ;;; k" := (bind c (fun _ => k))
  (at level 61, right associativity) : eff_scope.

(* ===================================================================== *)
(** * The extraction client ([src/services/geminiService.ts]) *)
(* ===================================================================== *)

Module Gemini.

Inductive Model := MODEL_NAME | FALLBACK_MODEL.

(** What the client can observe of its runs: how many requests were sent
    and the delays slept between them, oldest first. *)
Record World := {
  requests : nat;
  slept : list Z
}.

Definition start : World := {| requests := O; slept := [] |}.

(** [await delay(ms)] *)
Definition delay (ms : Z) : M World unit :=
  exec (fun w => {| requests := requests w; slept := slept w ++ [ms] |}).

(** The three tests [runWithRetry] makes on a caught error. *)
Definition isRateLimit (error : Error.t) : bool :=
  match Error.status error with Some 429 => true | _ => false end
  || includes_opt (Error.message error) "429"
  || includes_opt (Error.message error) "quota".

Definition isServerIssue (error : Error.t) : bool :=
  match Error.status error with Some 503 => true | _ => false end
  || match Error.status error with Some 500 => true | _ => false end
  || includes_opt (Error.message error) "503"
  || includes_opt (Error.message error) "500"
  || includes_opt (Error.message error) "Internal error".

Definition isNotFound (error : Error.t) : bool :=
  match Error.status error with Some 404 => true | _ => false end
  || includes_opt (Error.message error) "404"
  || includes_opt (Error.message error) "not found".

(** The body of the [for] loop of [runWithRetry], at counter [i], with
    [fuel] turns left ([fuel = retries - i]). *)
Fixpoint runWithRetry_loop {T} (operation : M World T) (retries : Z)
  (i : Z) (fuel : nat) : M World T :=
  match fuel with
  | O => throw (Error.make "Max retries exceeded")
  | S fuel' =>
      try_catch operation (fun error =>
        if isNotFound error then throw error
        else if (isRateLimit error || isServerIssue error) && (i <? retries - 1)
        then
          let waitTime := (if isRateLimit error then 3000 else 2000) * 2 ^ i in
          (delay waitTime ;;;
           runWithRetry_loop operation retries (i + 1) fuel')%eff
        else throw error)
  end.

Definition runWithRetry {T} (operation : M World T) (retries : Z) : M World T :=
  runWithRetry_loop operation retries 0 (Z.to_nat retries).

(** The default of the parameter [retries]; every caller relies on it. *)
Definition default_retries : Z := 3.

(** ** Extraction results *)

Module EventCandidate.
Record t := {
  title : option jsstring;
  startTime : option jsstring;
  endTime : option jsstring;
  description : option jsstring
}.
End EventCandidate.

Module TaskCandidate.
Record t := {
  title : option jsstring;
  dueDate : option jsstring
}.
End TaskCandidate.

Module TxCandidate.
Record t := {
  description : option jsstring;
  amount : option Z;
  type : option TxType;
  category : option jsstring;
  date : option jsstring
}.
End TxCandidate.

(** The object the model answers with.  Every field can be missing. *)
Module ExtractionResult.
Record t := {
  hasContent : option bool;
  title : option jsstring;
  content : option jsstring;
  tags : option (list jsstring);
  calendarEvents : option (list EventCandidate.t);
  tasks : option (list TaskCandidate.t);
  transactions : option (list TxCandidate.t)
}.

(** [{}] *)
Definition empty : t :=
  {| hasContent := None; title := None; content := None; tags := None;
     calendarEvents := None; tasks := None; transactions := None |}.
End ExtractionResult.

(** What [JSON.parse] can give back: [null], on which every property read
    throws, or a value whose properties can be read.  A number, a string, a
    boolean or an array has none of the properties the application reads:
    it behaves as [{}]. *)
Inductive GeneratedData :=
| JNull
| JObj (r : ExtractionResult.t).

(** The remote model: the answer to the [k]-th request sent, which names a
    model.  An answer is an error or a response with its [text]. *)
Definition Service := Model -> nat -> Error.t + option jsstring.

(** One request to a remote party whose [k]-th answer is [answers k]. *)
Definition request {T} (answers : nat -> Error.t + T) : M World T :=
  fun w => ({| requests := S (requests w); slept := slept w |},
            answers (requests w)).

(** [ai.models.generateContent(...)]: one request. *)
Definition generateContent (service : Service) (m : Model)
  : M World (option jsstring) :=
  request (service m).

(** [text.replace(/^```json\s*/i, '')] *)
Definition strip_open_json (s : jsstring) : jsstring :=
  if startsWith_ci s (str "```json")
  then trimStart (skipn 7 s) else s.

(** [text.replace(/^```\s*/, '')] *)
Definition strip_open (s : jsstring) : jsstring :=
  if startsWith s (str "```") then trimStart (skipn 3 s) else s.

(** [text.replace(/\s*```$/, '')] *)
Definition strip_close (s : jsstring) : jsstring :=
  if startsWith (rev s) (str "```")
  then rev (trimStart (skipn 3 (rev s))) else s.

Section Client.

(** [JSON.parse], which throws on a text that is not JSON. *)
Variable JSON_parse : jsstring -> Error.t + GeneratedData.

Variable service : Service.

(** [generate(model)] *)
Definition generate (m : Model) : M World (option jsstring) :=
  runWithRetry (generateContent service m) default_retries.

(** The body of each [try] of [generateEntryFromChat]. *)
Definition attempt (m : Model) : M World GeneratedData :=
  (response_text <- generate m ;;
   let text := or_else response_text (str "{}") in
   let text := strip_close (strip_open (strip_open_json text)) in
   fun w => (w, JSON_parse text))%eff.

Definition generateEntryFromChat (apiKey : option jsstring)
  : M World GeneratedData :=
  if negb (truthy apiKey) then ret (JObj ExtractionResult.empty)
  else
    try_catch (attempt MODEL_NAME) (fun _ =>
      try_catch (attempt FALLBACK_MODEL) (fun _ =>
        ret (JObj ExtractionResult.empty))).

End Client.

End Gemini.

(* ===================================================================== *)
(** * The consolidation pass ([src/App.tsx]) *)
(* ===================================================================== *)

Module App.

Import Gemini.

(** What one pass reads from its surroundings.  The pass reads the clock
    several times while it materialises records; it does so without
    suspending, and the model takes one reading for all of them.  The
    prompt sent to the remote model is fixed once the slices are, so the
    answers of [service] stand for the answers to that prompt. *)
Record Env := {
  service : Service;
  JSON_parse : jsstring -> Error.t + GeneratedData;
  apiKey : option jsstring;
  (** [Date.now()] *)
  now : Z;
  (** [new Date().toISOString()] *)
  nowISO : jsstring;
  (** [new Date().toLocaleTimeString()] *)
  nowLocaleTime : jsstring
}.

(** A pass suspended at [await generateEntryFromChat(newInput, context)]:
    what its continuation holds. *)
Record Suspended := {
  its_env : Env;
  its_newInput : list ChatMessage.t;
  its_collectedMedia : list Media.t
}.

(** The part of the component's state the pass touches. *)
Record State := {
  personalMessages : list ChatMessage.t;
  (** [personalProcessedCountRef.current] *)
  processedCount : nat;
  isAutoSaving : bool;
  storage : Storage.t;
  world : World;
  (** what [console.error] received, oldest first *)
  console_errors : list Error.t;
  (** the arguments [(newInput, context)] of the calls of
      [generateEntryFromChat] so far, oldest first *)
  extractions : list (list ChatMessage.t * list ChatMessage.t);
  (** the passes that wait for their call of [generateEntryFromChat] to
      return, oldest first *)
  suspended : list Suspended
}.

Definition set_processedCount (n : nat) (s : State) : State :=
  {| personalMessages := personalMessages s; processedCount := n;
     isAutoSaving := isAutoSaving s; storage := storage s; world := world s;
     console_errors := console_errors s; extractions := extractions s;
     suspended := suspended s |}.

Definition setIsAutoSaving (b : bool) (s : State) : State :=
  {| personalMessages := personalMessages s; processedCount := processedCount s;
     isAutoSaving := b; storage := storage s; world := world s;
     console_errors := console_errors s; extractions := extractions s;
     suspended := suspended s |}.

Definition set_storage (st : Storage.t) (s : State) : State :=
  {| personalMessages := personalMessages s; processedCount := processedCount s;
     isAutoSaving := isAutoSaving s; storage := st; world := world s;
     console_errors := console_errors s; extractions := extractions s;
     suspended := suspended s |}.

Definition set_world (w : World) (s : State) : State :=
  {| personalMessages := personalMessages s; processedCount := processedCount s;
     isAutoSaving := isAutoSaving s; storage := storage s; world := w;
     console_errors := console_errors s; extractions := extractions s;
     suspended := suspended s |}.

Definition set_personalMessages (msgs : list ChatMessage.t) (s : State) : State :=
  {| personalMessages := msgs; processedCount := processedCount s;
     isAutoSaving := isAutoSaving s; storage := storage s; world := world s;
     console_errors := console_errors s; extractions := extractions s;
     suspended := suspended s |}.

Definition console_error (e : Error.t) : M State unit :=
  exec (fun s =>
    {| personalMessages := personalMessages s; processedCount := processedCount s;
       isAutoSaving := isAutoSaving s; storage := storage s; world := world s;
       console_errors := console_errors s ++ [e];
       extractions := extractions s; suspended := suspended s |}).

(** Note the arguments of a call of [generateEntryFromChat]. *)
Definition note_extraction (newInput context : list ChatMessage.t)
  : M State unit :=
  exec (fun s =>
    {| personalMessages := personalMessages s; processedCount := processedCount s;
       isAutoSaving := isAutoSaving s; storage := storage s; world := world s;
       console_errors := console_errors s;
       extractions := extractions s ++ [(newInput, context)];
       suspended := suspended s |}).

(** A call of the persistence layer. *)
Definition persist (f : Storage.t -> Storage.t) : M State unit :=
  exec (fun s => set_storage (f (storage s)) s).

(** ** The slices *)

(** [messages.slice(0, processedCountRef.current)] *)
Definition context_of (messages : list ChatMessage.t) (count : nat)
  : list ChatMessage.t :=
  Arr.slice 0 count messages.

(** [messages.slice(processedCountRef.current)] *)
Definition newInput_of (messages : list ChatMessage.t) (count : nat)
  : list ChatMessage.t :=
  Arr.slice_from count messages.

(** ** Materialisation *)

(** The [forEach] that fills [collectedMedia]. *)
Fixpoint collectMedia (newInput : list ChatMessage.t) : list Media.t :=
  match newInput with
  | [] => []
  | msg :: rest =>
      match ChatMessage.attachment msg with
      | Some a =>
          match Attachment.type a with
          | image =>
              {| Media.content := Attachment.content a;
                 Media.mimeType := or_else (Attachment.mimeType a) (str "image/jpeg") |}
              :: collectMedia rest
          | text => collectMedia rest
          end
      | None => collectMedia rest
      end
  end.

Definition is_user (m : ChatMessage.t) : bool :=
  match ChatMessage.role m with user => true | model => false end.

Definition nonempty (s : jsstring) : bool :=
  match s with [] => false | _ :: _ => true end.

Definition rawUserText_of (newInput : list ChatMessage.t) : jsstring :=
  join_lines
    (filter nonempty
       (map (fun m => trim (strip_attachment_tags (ChatMessage.text m)))
            (filter is_user newInput))).

(** [generatedData.hasContent === true || collectedMedia.length > 0] *)
Definition shouldCreateEntry_of (generatedData : ExtractionResult.t)
  (collectedMedia : list Media.t) : bool :=
  match ExtractionResult.hasContent generatedData with
  | Some true => true
  | _ => false
  end
  || (0 <? Z.of_nat (length collectedMedia)).

Definition link (shouldCreateEntry : bool) (entryId : jsstring) : option jsstring :=
  if shouldCreateEntry then Some entryId else None.

Definition newEvents_of (entryId : jsstring) (shouldCreateEntry : bool)
  (cands : list EventCandidate.t) : list CalendarEvent.t :=
  Arr.mapi (fun evt i =>
    {| CalendarEvent.id := entryId ++ str "-evt-" ++ show_nat i;
       CalendarEvent.title := EventCandidate.title evt;
       CalendarEvent.startTime := EventCandidate.startTime evt;
       CalendarEvent.endTime := EventCandidate.endTime evt;
       CalendarEvent.description := EventCandidate.description evt;
       CalendarEvent.linkedEntryId := link shouldCreateEntry entryId |}) cands.

Definition newTasks_of (entryId : jsstring) (shouldCreateEntry : bool)
  (nowISO : jsstring) (cands : list TaskCandidate.t) : list Task.t :=
  Arr.mapi (fun t0 i =>
    {| Task.id := entryId ++ str "-task-" ++ show_nat i;
       Task.title := TaskCandidate.title t0;
       Task.completed := false;
       Task.linkedEntryId := link shouldCreateEntry entryId;
       Task.dueDate := Some (or_else (TaskCandidate.dueDate t0) nowISO) |}) cands.

Definition newTxs_of (entryId : jsstring) (shouldCreateEntry : bool)
  (nowISO : jsstring) (cands : list TxCandidate.t) : list FinanceTransaction.t :=
  Arr.mapi (fun tx i =>
    {| FinanceTransaction.id := entryId ++ str "-tx-" ++ show_nat i;
       FinanceTransaction.amount := TxCandidate.amount tx;
       FinanceTransaction.type := TxCandidate.type tx;
       FinanceTransaction.category := TxCandidate.category tx;
       FinanceTransaction.description := TxCandidate.description tx;
       FinanceTransaction.linkedEntryId := link shouldCreateEntry entryId;
       FinanceTransaction.date := or_else (TxCandidate.date tx) nowISO |}) cands.

(** [!s || s.trim() === ''], the test for a missing or blank text *)
Definition blank (o : option jsstring) : bool :=
  negb (truthy o) ||
  match o with
  | Some s => negb (nonempty (trim s))
  | None => false
  end.

Definition finalTitle_of (env : Env) (generatedData : ExtractionResult.t)
  (rawUserText : jsstring) (collectedMedia : list Media.t) : jsstring :=
  let finalTitle := ExtractionResult.title generatedData in
  if blank finalTitle then
    if nonempty rawUserText then
      let firstLine := first_line rawUserText in
      if 50 <? Z.of_nat (length firstLine)
      then substring0 50 firstLine ++ str "..."
      else firstLine
    else if 0 <? Z.of_nat (length collectedMedia) then str "Photo Memory"
    else str "Log: " ++ nowLocaleTime env
  else or_else finalTitle [].

Definition finalContent_of (generatedData : ExtractionResult.t)
  (rawUserText : jsstring) : option jsstring :=
  let finalContent := ExtractionResult.content generatedData in
  if blank finalContent then
    if nonempty rawUserText then Some rawUserText else finalContent
  else finalContent.

(** [list?.length > 0] *)
Definition has_items {T} (o : option (list T)) : bool :=
  match o with
  | Some l => 0 <? Z.of_nat (length l)
  | None => false
  end.

(** The array behind a field that was found to have items. *)
Definition items {T} (o : option (list T)) : list T :=
  match o with
  | Some l => l
  | None => []
  end.

(** What follows [await generateEntryFromChat(...)] inside the [try]. *)
Definition materialize (env : Env) (newInput : list ChatMessage.t)
  (collectedMedia : list Media.t) (generatedData : GeneratedData)
  : M State unit :=
  let entryId := show_Z (now env) in
  let rawUserText := rawUserText_of newInput in
  match generatedData with
  | JNull => throw (Error.make "Cannot read properties of null")
  | JObj generatedData =>
    let shouldCreateEntry := shouldCreateEntry_of generatedData collectedMedia in
    (* 1. calendar events *)
    let newEvents :=
      if has_items (ExtractionResult.calendarEvents generatedData)
      then newEvents_of entryId shouldCreateEntry
             (items (ExtractionResult.calendarEvents generatedData))
      else [] in
    ((if has_items (ExtractionResult.calendarEvents generatedData)
      then persist (Storage.addCalendarEvents newEvents)
      else ret tt) ;;;
    (* 2. tasks *)
    let newTasks :=
      if has_items (ExtractionResult.tasks generatedData)
      then newTasks_of entryId shouldCreateEntry (nowISO env)
             (items (ExtractionResult.tasks generatedData))
      else [] in
    (if has_items (ExtractionResult.tasks generatedData)
     then persist (Storage.saveTasks newTasks)
     else ret tt) ;;;
    (* 3. transactions *)
    let newTxs :=
      if has_items (ExtractionResult.transactions generatedData)
      then newTxs_of entryId shouldCreateEntry (nowISO env)
             (items (ExtractionResult.transactions generatedData))
      else [] in
    (if has_items (ExtractionResult.transactions generatedData)
     then persist (Storage.addTransactions newTxs)
     else ret tt) ;;;
    (* 4. the entry *)
    if shouldCreateEntry then
      let finalTitle := finalTitle_of env generatedData rawUserText collectedMedia in
      let finalContent := finalContent_of generatedData rawUserText in
      if truthy finalContent || (0 <? Z.of_nat (length collectedMedia)) then
        let newEntry :=
          {| JournalEntry.id := entryId;
             JournalEntry.title := finalTitle;
             JournalEntry.content := or_else finalContent [];
             JournalEntry.date := nowISO env;
             JournalEntry.mode := PERSONAL;
             JournalEntry.tags :=
               match ExtractionResult.tags generatedData with
               | Some l => l
               | None => []
               end;
             JournalEntry.media := collectedMedia;
             JournalEntry.tasks := newTasks;
             JournalEntry.calendarEvents := newEvents;
             JournalEntry.transactions := newTxs;
             JournalEntry.lastModified := now env |} in
        persist (Storage.saveEntry newEntry)
      else ret tt
    else ret tt)%eff
  end.

(** The body of the [try] of [handleAutoSync]. *)
Definition sync_body (env : Env) (messages : list ChatMessage.t) : M State unit :=
  (fun s =>
    let context := context_of messages (processedCount s) in
    let newInput := newInput_of messages (processedCount s) in
    (* the cursor moves before anything else happens *)
    let s := set_processedCount (length messages) s in
    let collectedMedia := collectMedia newInput in
    (note_extraction newInput context ;;;
     generatedData <-
       zoom world set_world
         (generateEntryFromChat (JSON_parse env) (service env) (apiKey env)) ;;
     materialize env newInput collectedMedia generatedData)%eff s).

Definition handleAutoSync (env : Env) : M State unit :=
  fun s =>
    let messages := personalMessages s in
    let newMessagesCount :=
      Z.of_nat (length messages) - Z.of_nat (processedCount s) in
    if newMessagesCount <=? 0 then (s, inr tt)
    else
      (exec (setIsAutoSaving true) ;;;
       try_finally
         (try_catch (sync_body env messages) console_error)
         (setIsAutoSaving false))%eff s.

(** ** The stream and its cursor over time *)

(** [updateCurrentChatMessages(msgs)]: the stream becomes [msgs], whatever
    it was before, and is stored.  The chat view gets this function as
    [onUpdateMessages]. *)
Definition updateCurrentChatMessages (msgs : list ChatMessage.t) (s : State)
  : State :=
  set_storage (Storage.saveChatHistory PERSONAL msgs (storage s))
              (set_personalMessages msgs s).

(** [updateCurrentChatMessages([...messages, m])] by a view whose
    [messages] is the stream as it is now: the write of the user's message,
    and the write of a reply when nothing else was written since the view
    captured its history.  A reply that arrives after other writes is
    written after the history captured at the send, not after the stream
    as it is then: that is a [Replace] below. *)
Definition appendMessage (m : ChatMessage.t) (s : State) : State :=
  updateCurrentChatMessages (personalMessages s ++ [m]) s.

(** *** The pass on both sides of its [await] *)

Definition set_suspended (l : list Suspended) (s : State) : State :=
  {| personalMessages := personalMessages s; processedCount := processedCount s;
     isAutoSaving := isAutoSaving s; storage := storage s; world := world s;
     console_errors := console_errors s; extractions := extractions s;
     suspended := l |}.

(** [handleAutoSync] up to [await generateEntryFromChat(newInput, context)]:
    the guard, the slices, the cursor, the media; the call is made and the
    pass waits for it.  The function closes over [personalMessages] of the
    render that made it, here [messages], and reads the cursor from its
    ref. *)
Definition handleAutoSync_begin_of (messages : list ChatMessage.t) (env : Env)
  (s : State) : State :=
  let newMessagesCount :=
    Z.of_nat (length messages) - Z.of_nat (processedCount s) in
  if newMessagesCount <=? 0 then s
  else
    let s := setIsAutoSaving true s in
    let context := context_of messages (processedCount s) in
    let newInput := newInput_of messages (processedCount s) in
    let s := set_processedCount (length messages) s in
    let collectedMedia := collectMedia newInput in
    let s := fst (note_extraction newInput context s) in
    set_suspended
      (suspended s
       ++ [{| its_env := env; its_newInput := newInput;
              its_collectedMedia := collectedMedia |}]) s.

(** The same for the function of the latest render, whose stream is the
    stream as it is. *)
Definition handleAutoSync_begin (env : Env) (s : State) : State :=
  handleAutoSync_begin_of (personalMessages s) env s.

(** [handleAutoSync] from the moment the call returns: the rest of the
    [try], the [catch] and the [finally]. *)
Definition handleAutoSync_rest (p : Suspended) : M State unit :=
  let env := its_env p in
  try_finally
    (try_catch
       (generatedData <-
          zoom world set_world
            (generateEntryFromChat (JSON_parse env) (service env) (apiKey env)) ;;
        materialize env (its_newInput p) (its_collectedMedia p) generatedData)%eff
       console_error)
    (setIsAutoSaving false).

(** The [k]-th suspended pass goes on. *)
Definition handleAutoSync_resume (k : nat) (s : State) : State :=
  match nth_error (suspended s) k with
  | Some p =>
      fst (handleAutoSync_rest p
             (set_suspended (firstn k (suspended s) ++ skipn (S k) (suspended s)) s))
  | None => s
  end.

(** *** What happens to the stream *)

(** The component's state changes in steps, between which nothing else
    runs: a handler runs up to its next [await], or a continuation from the
    return of the awaited call up to the next one.  A pass is the function
    [handleAutoSync] of the render that scheduled it, and reads the stream
    of that render.  The effect that schedules passes runs again, and
    replaces the timer, at every change of the stream that leaves it longer
    than the cursor, and the effect of the tab switch calls the function of
    the latest render: these passes find the stream as it is.  After a
    write that leaves the stream no longer than the cursor the timer of an
    earlier render stays in place, and its pass reads the stream of that
    render. *)
Inductive Event :=
(** a view writes the stream it shows followed by [m] *)
| Append (m : ChatMessage.t)
(** a view writes [msgs]: a history it captured earlier, followed by a
    reply *)
| Replace (msgs : list ChatMessage.t)
(** a pass over the stream as it is, whose call of [generateEntryFromChat]
    returns before anything else happens *)
| Flush (env : Env)
(** a pass over the stream as it is runs up to its [await] *)
| Begin (env : Env)
(** the pass of an earlier render, whose stream was [messages], runs up to
    its [await] *)
| BeginOf (messages : list ChatMessage.t) (env : Env)
(** the call of the [k]-th waiting pass returns *)
| Resume (k : nat).

Definition step (ev : Event) (s : State) : State :=
  match ev with
  | Append m => appendMessage m s
  | Replace msgs => updateCurrentChatMessages msgs s
  | Flush env => fst (handleAutoSync env s)
  | Begin env => handleAutoSync_begin env s
  | BeginOf messages env => handleAutoSync_begin_of messages env s
  | Resume k => handleAutoSync_resume k s
  end.

(** Run a sequence of events. *)
Definition run (evs : list Event) (s : State) : State :=
  fold_left (fun s ev => step ev s) evs s.

(** The state after mounting: the stored chat is loaded and the cursor is
    set to its length. *)
Definition mount (st : Storage.t) : State :=
  let personalChat := Storage.getChatHistory PERSONAL st in
  {| personalMessages := personalChat;
     processedCount := length personalChat;
     isAutoSaving := false;
     storage := st;
     world := Gemini.start;
     console_errors := [];
     extractions := [];
     suspended := [] |}.

End App.

(* ===================================================================== *)
(** * Dates, as the engine computes them *)
(* ===================================================================== *)

Module JSDate.

(** A date is its time value: milliseconds since the epoch, in UTC.  Only
    valid dates are values here; an invalid date is the absence of one. *)
Definition t := Z.

Definition msPerDay : Z := 86400000.

Definition Day (tv : Z) : Z := tv / msPerDay.

Definition TimeWithinDay (tv : Z) : Z := tv mod msPerDay.

(** The day number of the first day of year [y]. *)
Definition DayFromYear (y : Z) : Z :=
  365 * (y - 1970) + (y - 1969) / 4 - (y - 1901) / 100 + (y - 1601) / 400.

Definition InLeapYear (y : Z) : bool :=
  (y mod 4 =? 0) && (negb (y mod 100 =? 0) || (y mod 400 =? 0)).

(** The year a day number falls in: the estimate from the mean length of a
    year is off by at most one. *)
Definition YearFromDay (d : Z) : Z :=
  let y := 1970 + (d * 400) / 146097 in
  if d <? DayFromYear y then y - 1
  else if DayFromYear (y + 1) <=? d then y + 1
  else y.

Definition DayWithinYear (d : Z) : Z := d - DayFromYear (YearFromDay d).

(** Days of the year before month [m] (0 is January). *)
Definition DaysBeforeMonth (leap : bool) (m : Z) : Z :=
  let l := if leap then 1 else 0 in
  match m with
  | 0 => 0
  | 1 => 31
  | 2 => 59 + l
  | 3 => 90 + l
  | 4 => 120 + l
  | 5 => 151 + l
  | 6 => 181 + l
  | 7 => 212 + l
  | 8 => 243 + l
  | 9 => 273 + l
  | 10 => 304 + l
  | _ => 334 + l
  end.

Definition MonthFromDay (d : Z) : Z :=
  let leap := InLeapYear (YearFromDay d) in
  let n := DayWithinYear d in
  if n <? DaysBeforeMonth leap 1 then 0
  else if n <? DaysBeforeMonth leap 2 then 1
  else if n <? DaysBeforeMonth leap 3 then 2
  else if n <? DaysBeforeMonth leap 4 then 3
  else if n <? DaysBeforeMonth leap 5 then 4
  else if n <? DaysBeforeMonth leap 6 then 5
  else if n <? DaysBeforeMonth leap 7 then 6
  else if n <? DaysBeforeMonth leap 8 then 7
  else if n <? DaysBeforeMonth leap 9 then 8
  else if n <? DaysBeforeMonth leap 10 then 9
  else if n <? DaysBeforeMonth leap 11 then 10
  else 11.

Definition DateFromDay (d : Z) : Z :=
  DayWithinYear d
  - DaysBeforeMonth (InLeapYear (YearFromDay d)) (MonthFromDay d) + 1.

Definition YearFromTime (tv : Z) : Z := YearFromDay (Day tv).
Definition MonthFromTime (tv : Z) : Z := MonthFromDay (Day tv).
Definition DateFromTime (tv : Z) : Z := DateFromDay (Day tv).

(** [MakeDay(year, month, date)]: months beyond the year carry over, and so
    do days beyond the month. *)
Definition MakeDay (year month date : Z) : Z :=
  let ym := year + month / 12 in
  let mn := month mod 12 in
  DayFromYear ym + DaysBeforeMonth (InLeapYear ym) mn + date - 1.

Definition MakeDate (day time : Z) : Z := day * msPerDay + time.

(** The local time zone: its offset from UTC in milliseconds, at a UTC time
    value and at a local time value. *)
Record TimeZone := {
  offset_at_utc : Z -> Z;
  offset_at_local : Z -> Z
}.

Definition fixed_zone (offset : Z) : TimeZone :=
  {| offset_at_utc := fun _ => offset; offset_at_local := fun _ => offset |}.

Section Local.

Variable tz : TimeZone.

Definition LocalTime (tv : Z) : Z := tv + offset_at_utc tz tv.

Definition UTC (lt : Z) : Z := lt - offset_at_local tz lt.

Definition getDate (d : t) : Z := DateFromTime (LocalTime d).

Definition getMonth (d : t) : Z := MonthFromTime (LocalTime d).

(** [d.setDate(date)]: the new time value of [d]. *)
Definition setDate (d : t) (date : Z) : t :=
  let lt := LocalTime d in
  let newDate :=
    MakeDate (MakeDay (YearFromTime lt) (MonthFromTime lt) date)
             (TimeWithinDay lt) in
  UTC newDate.

(** [d.setMonth(month)] *)
Definition setMonth (d : t) (month : Z) : t :=
  let lt := LocalTime d in
  let newDate :=
    MakeDate (MakeDay (YearFromTime lt) month (DateFromTime lt))
             (TimeWithinDay lt) in
  UTC newDate.

End Local.

(** [n] in decimal, padded with zeros to [width] digits. *)
Definition pad (width : nat) (n : Z) : jsstring :=
  let ds := show_Z n in
  repeat 48%N (width - length ds) ++ ds.

(** The year of an ISO string: four digits, or a sign and six. *)
Definition isoYear (y : Z) : jsstring :=
  if (0 <=? y) && (y <=? 9999) then pad 4 y
  else if y <? 0 then 45%N :: pad 6 (- y)
  else 43%N :: pad 6 y.

(** The calendar date of a day number, as [toISOString] prints it. *)
Definition isoDateOfDay (d : Z) : jsstring :=
  isoYear (YearFromDay d) ++ str "-" ++ pad 2 (MonthFromDay d + 1)
  ++ str "-" ++ pad 2 (DateFromDay d).

(** [d.toISOString().split('T')[0]] *)
Definition toISODate (d : t) : jsstring := isoDateOfDay (Day d).

Definition digit (c : N) : option Z :=
  if ((48 <=? c) && (c <=? 57))%N then Some (Z.of_N c - 48) else None.

Fixpoint number (acc : Z) (s : jsstring) : option Z :=
  match s with
  | [] => Some acc
  | c :: r =>
      match digit c with
      | Some v => number (10 * acc + v) r
      | None => None
      end
  end.

(** [new Date(s)] for the value of a date field, [yyyy-mm-dd]: midnight UTC
    of that day; any other text gives no valid date here. *)
Definition parse (s : jsstring) : option t :=
  match s with
  | [y1; y2; y3; y4; 45%N; m1; m2; 45%N; d1; d2] =>
      match number 0 [y1; y2; y3; y4], number 0 [m1; m2], number 0 [d1; d2] with
      | Some y, Some m, Some d =>
          if (1 <=? m) && (m <=? 12) && (1 <=? d) && (d <=? 31)
          then Some (MakeDate (MakeDay y (m - 1) d) 0)
          else None
      | _, _, _ => None
      end
  | _ => None
  end.

End JSDate.

(* ===================================================================== *)
(** * Creating events by hand (the calendar widget) *)
(* ===================================================================== *)

Module Calendar.

Import JSDate.

Inductive RepeatMode := none | daily | weekly | monthly.

(** The form of the dialog. *)
Record NewEvent := {
  title : jsstring;
  description : jsstring;
  date : jsstring;
  startTime : jsstring;
  endTime : jsstring;
  repeat : RepeatMode
}.

(** What the handler reads from its surroundings: the time zone, and for
    the [i]-th turn of its loop the clock and the text drawn from the
    random generator. *)
Record Env := {
  tz : TimeZone;
  (** [Date.now()] *)
  now : nat -> Z;
  (** [Math.random().toString(36).substr(2, 9)] *)
  random36 : nat -> jsstring
}.

Definition count_of (r : RepeatMode) : nat :=
  match r with
  | daily => 30
  | weekly => 12
  | monthly => 6
  | none => 1
  end.

(** [currentInstanceDate] at the end of turn [i]. *)
Definition instanceDate (env : Env) (r : RepeatMode) (baseDate : JSDate.t)
  (i : nat) : JSDate.t :=
  let currentInstanceDate := baseDate in
  let currentInstanceDate :=
    match r with
    | daily => setDate (tz env) currentInstanceDate
                 (getDate (tz env) baseDate + Z.of_nat i)
    | _ => currentInstanceDate
    end in
  let currentInstanceDate :=
    match r with
    | weekly => setDate (tz env) currentInstanceDate
                  (getDate (tz env) baseDate + Z.of_nat i * 7)
    | _ => currentInstanceDate
    end in
  match r with
  | monthly => setMonth (tz env) currentInstanceDate
                 (getMonth (tz env) baseDate + Z.of_nat i)
  | _ => currentInstanceDate
  end.

(** The event pushed at turn [i]. *)
Definition instance (env : Env) (newEvent : NewEvent) (baseDate : JSDate.t)
  (i : nat) : CalendarEvent.t :=
  let currentInstanceDate := instanceDate env (repeat newEvent) baseDate i in
  let startISO :=
    toISODate currentInstanceDate ++ str "T" ++ startTime newEvent ++ str ":00" in
  let endISO :=
    toISODate currentInstanceDate ++ str "T" ++ endTime newEvent ++ str ":00" in
  {| CalendarEvent.id := show_Z (now env i) ++ random36 env i;
     CalendarEvent.title := Some (title newEvent);
     CalendarEvent.description := Some (description newEvent);
     CalendarEvent.startTime := Some startISO;
     CalendarEvent.endTime := Some endISO;
     CalendarEvent.linkedEntryId := None |}.

Definition eventsToCreate_of (env : Env) (newEvent : NewEvent)
  (baseDate : JSDate.t) : list CalendarEvent.t :=
  map (instance env newEvent baseDate) (seq 0 (count_of (repeat newEvent))).

Definition tasksToCreate_of (eventsToCreate : list CalendarEvent.t)
  : list Task.t :=
  map (fun evt =>
         {| Task.id := str "task-mirror-" ++ CalendarEvent.id evt;
            Task.title := CalendarEvent.title evt;
            Task.completed := false;
            Task.dueDate := CalendarEvent.startTime evt;
            Task.linkedEntryId := Some (CalendarEvent.id evt) |})
      eventsToCreate.

Definition filled (s : jsstring) : bool :=
  match s with [] => false | _ :: _ => true end.

(** The handler, on the persisted state.  With a field left empty it
    alerts and returns; with a date that is no date, [toISOString] throws
    in the first turn, before anything is saved. *)
Definition handleSaveEvent (env : Env) (newEvent : NewEvent)
  : M Storage.t unit :=
  if negb (filled (title newEvent)) || negb (filled (date newEvent))
     || negb (filled (startTime newEvent)) || negb (filled (endTime newEvent))
  then ret tt
  else
    match parse (date newEvent) with
    | None => throw (Error.make "Invalid time value")
    | Some baseDate =>
        let eventsToCreate := eventsToCreate_of env newEvent baseDate in
        let tasksToCreate := tasksToCreate_of eventsToCreate in
        (exec (Storage.addCalendarEvents eventsToCreate) ;;;
         exec (Storage.saveTasks tasksToCreate))%eff
    end.

End Calendar.

(* ===================================================================== *)
(** * The task list (the tasks view) *)
(* ===================================================================== *)

Module TasksView.

(** What [handleAddTask] reads from its surroundings. *)
Record Env := {
  (** [Date.now()] *)
  now : Z;
  (** [new Date().toISOString()] *)
  nowISO : jsstring
}.

(** [handleAddTask], on the persisted state, for the text of the input
    field. *)
Definition handleAddTask (env : Env) (newTaskTitle : jsstring)
  (s : Storage.t) : Storage.t :=
  match trim newTaskTitle with
  | [] => s
  | _ :: _ =>
      let newTask :=
        {| Task.id := show_Z (now env);
           Task.title := Some newTaskTitle;
           Task.completed := false;
           Task.dueDate := Some (nowISO env);
           Task.linkedEntryId := None |} in
      Storage.saveTasks [newTask] s
  end.

(** [toggleTask(id, currentStatus)] *)
Definition toggleTask (id : jsstring) (currentStatus : bool)
  (s : Storage.t) : Storage.t :=
  Storage.updateTaskStatus id (negb currentStatus) s.

(** [handleDelete(id)], the user having confirmed or not. *)
Definition handleDelete (id : jsstring) (confirmed : bool)
  (s : Storage.t) : Storage.t :=
  if confirmed then Storage.deleteTask id s else s.

End TasksView.

(* ===================================================================== *)
(** * Sending a message (the chat view) *)
(* ===================================================================== *)

Module ChatInterface.

Import App.

(** The attachment the view holds until the message is sent. *)
Record Attachment := {
  type : AttachmentType;
  content : jsstring;
  name : jsstring;
  mimeType : option jsstring
}.

(** The state of the view. *)
Record View := {
  input : jsstring;
  isTyping : bool;
  attachment : option Attachment
}.

(** What [handleSend] reads from its surroundings: the readings of
    [Date.now()], in the order it takes them, and what the awaited
    [sendMessageToGemini] gives back, by the history, the text and the
    attachment it is called with.  The entries, tasks and events on
    display, which the call receives as well, only shape its prompt and
    belong to the surroundings. *)
Record Env := {
  now : nat -> Z;
  sendMessageToGemini :
    list ChatMessage.t -> jsstring -> option Attachment -> Error.t + jsstring
}.

Definition newUserMsg (env : Env) (v : View) : ChatMessage.t :=
  let userText := input v in
  let currentAttachment := attachment v in
  {| ChatMessage.id := show_Z (now env 0);
     ChatMessage.role := user;
     ChatMessage.text :=
       match currentAttachment with
       | Some a => userText ++ 10%N :: str "[Attachment: " ++ name a ++ str "]"
       | None => userText
       end;
     ChatMessage.timestamp := now env 1;
     ChatMessage.attachment :=
       match currentAttachment with
       | Some a =>
           Some {| Attachment.type := type a;
                   Attachment.content := content a;
                   Attachment.mimeType := mimeType a;
                   Attachment.name := Some (name a) |}
       | None => None
       end |}.

(** The text shown when the call fails. *)
Definition errorMsg_of (error : Error.t) : jsstring :=
  let missing :=
    match Error.message error with
    | Some m => eqb m (str "MISSING_API_KEY")
    | None => false
    end in
  if missing
  then [9888; 65039]%N
       ++ str " API Key Missing. Please go to the Settings tab ("
       ++ [9881; 65039]%N
       ++ str ") and enter your Gemini API Key to enable AI features."
  else str "I'm having trouble connecting right now.".

Definition aiMsg (env : Env) (text : jsstring) : ChatMessage.t :=
  {| ChatMessage.id := show_Z (now env 2 + 1);
     ChatMessage.role := model;
     ChatMessage.text := text;
     ChatMessage.timestamp := now env 3;
     ChatMessage.attachment := None |}.

(** The handler.  The call of [sendMessageToGemini] is awaited: [between]
    is what the application does in the meantime. *)
Definition handleSend (env : Env) (between : list Event) (v : View) (s : State)
  : View * State :=
  if (negb (nonempty (trim (input v)))
      && match attachment v with Some _ => false | None => true end)
     || isTyping v
  then (v, s)
  else
    let userText := input v in
    let currentAttachment := attachment v in
    let messages := personalMessages s in
    let newHistory := messages ++ [newUserMsg env v] in
    let s := updateCurrentChatMessages newHistory s in
    let s := run between s in
    let s :=
      match sendMessageToGemini env newHistory userText currentAttachment with
      | inr responseText =>
          updateCurrentChatMessages (newHistory ++ [aiMsg env responseText]) s
      | inl error =>
          let s := fst (console_error error s) in
          updateCurrentChatMessages
            (newHistory ++ [aiMsg env (errorMsg_of error)]) s
      end in
    ({| input := []; isTyping := false; attachment := None |}, s).

End ChatInterface.

(* ===================================================================== *)
(** * The chat functions ([src/services/geminiService.ts]) *)
(* ===================================================================== *)

Module GeminiChat.

Import Gemini.

(** What a chat request returns, as the functions read it: [result.text]
    and, for its grounding chunks that carry a [web] part, the links
    [[title](uri)] in order (none when there are no chunks). *)
Record Response := {
  text : option jsstring;
  sources : list jsstring
}.

(** The remote model in a chat: the answer to the [k]-th request sent, by
    whether search is switched on and by the model named.  The payload of
    the requests of one call (system instruction, history, message) is
    fixed once the call is, so the answers stand for the answers to it. *)
Definition ChatService := bool -> Model -> nat -> Error.t + Response.

(** [l.slice(-n)], for [n] above zero *)
Definition slice_last {T} (n : nat) (l : list T) : list T :=
  skipn (length l - n) l.

(** [l.slice(0, -1)] *)
Definition but_last {T} (l : list T) : list T := firstn (length l - 1) l.

(** [s] matches [/source|reference|link|citation|where did you|where from/i]. *)
Fixpoint includes_ci (s sub : jsstring) : bool :=
  startsWith_ci s sub ||
  match s with
  | [] => false
  | _ :: r => includes_ci r sub
  end.

Definition showSources_of (newMessage : jsstring) : bool :=
  includes_ci newMessage (str "source")
  || includes_ci newMessage (str "reference")
  || includes_ci newMessage (str "link")
  || includes_ci newMessage (str "citation")
  || includes_ci newMessage (str "where did you")
  || includes_ci newMessage (str "where from").

(** The history handed to [ai.chats.create]: role and text of the last
    fifteen messages but the very last. *)
Definition previousHistory_of (history : list ChatMessage.t)
  : list (Role * jsstring) :=
  let limitedHistory := slice_last 15 history in
  map (fun msg => (ChatMessage.role msg, ChatMessage.text msg))
      (but_last limitedHistory).

(** ** The records the prompts are built from *)

(** Each chat function builds its system instruction from the records it
    is given before it enters its [try].  The records are those on
    display, read from the store, where [restoreData] writes the arrays of
    a backup file as they are: at run time a field can be missing or hold
    a value of another type than the one declared, and an element can be
    [null].  Of each record the model keeps the fields whose reads can
    throw; an element [None] is one that is [null].  The text of the
    instruction goes into the payload of the requests. *)
Module Read.

(** A field of which a template calls a string method: a string, or any
    other value ([undefined], [null], a number, ...), truthy or not. *)
Inductive Field :=
| Text (s : jsstring)
| NoText (truthy : bool).

Definition is_text (f : Field) : bool :=
  match f with Text _ => true | NoText _ => false end.

Record task := {
  (** whether [t.completed] is truthy *)
  completed : bool;
  dueDate : Field
}.

(** The template only hands [e.startTime] to [new Date], which takes any
    value. *)
Record event := {
  startTime : Field
}.

Record entry := {
  content : Field;
  (** the array [e.tags], when it is one *)
  tags : option (list jsstring)
}.

Record transaction := {
  date : Field
}.

(** The records the application itself writes have every field the type
    declares. *)
Definition of_task (t0 : Task.t) : option task :=
  Some {| completed := Task.completed t0;
          dueDate := match Task.dueDate t0 with
                     | Some d => Text d
                     | None => NoText false
                     end |}.

Definition of_event (e : CalendarEvent.t) : option event :=
  Some {| startTime := match CalendarEvent.startTime e with
                       | Some d => Text d
                       | None => NoText false
                       end |}.

Definition of_entry (e : JournalEntry.t) : option entry :=
  Some {| content := Text (JournalEntry.content e);
          tags := Some (JournalEntry.tags e) |}.

Definition of_transaction (x : FinanceTransaction.t) : option transaction :=
  Some {| date := Text (FinanceTransaction.date x) |}.

(** The elements that are objects, when all are. *)
Fixpoint objects {T} (l : list (option T)) : option (list T) :=
  match l with
  | [] => Some []
  | None :: _ => None
  | Some x :: r =>
      match objects r with
      | Some r' => Some (x :: r')
      | None => None
      end
  end.

End Read.

Section Chat.

Variable service : ChatService.

(** The [TypeError] of the engine for reading a property of [null] or
    [undefined] and for calling what is no function. *)
Variable typeError : Error.t.

(** [entries.sort((a, b) => new Date(b.date).getTime() -
    new Date(a.date).getTime())], as the engine orders the entries. *)
Variable newest_first : list Read.entry -> list Read.entry.

(** [t.dueDate ? `(Due: ${t.dueDate.split('T')[0]})` : ''] is evaluated:
    a truthy value that is no string has no [split]. *)
Definition dueDate_splits (t0 : Read.task) : bool :=
  match Read.dueDate t0 with
  | Read.Text _ => true
  | Read.NoText truthy => negb truthy
  end.

(** [pendingTasks]: the filter reads [completed] of every element, the
    template is evaluated on the first fifteen that are pending. *)
Definition pendingTasks_built (tasks : list (option Read.task)) : bool :=
  match Read.objects tasks with
  | Some tasks =>
      forallb dueDate_splits
        (firstn 15 (filter (fun t0 => negb (Read.completed t0)) tasks))
  | None => false
  end.

(** [upcomingEvents]: the filter reads [startTime] of every element. *)
Definition upcomingEvents_built (calendarEvents : list (option Read.event))
  : bool :=
  match Read.objects calendarEvents with
  | Some _ => true
  | None => false
  end.

(** [recentLogs]: the sort, or the template when there is nothing to
    compare, reads [date] of every element; the template calls
    [e.content.substring] on the first three in order. *)
Definition recentLogs_built (entries : list (option Read.entry)) : bool :=
  match Read.objects entries with
  | Some entries =>
      forallb (fun e => Read.is_text (Read.content e))
              (firstn 3 (newest_first entries))
  | None => false
  end.

(** The lines from the key to the [try]: the system instruction is
    built, or a [TypeError] leaves the function. *)
Definition build_systemInstruction (entries : list (option Read.entry))
  (tasks : list (option Read.task))
  (calendarEvents : list (option Read.event)) : M World unit :=
  if pendingTasks_built tasks && upcomingEvents_built calendarEvents
     && recentLogs_built entries
  then ret tt
  else throw typeError.

(** [generateResponse(useSearch, model)]: one request per try. *)
Definition generateResponse (useSearch : bool) (m : Model) : M World Response :=
  runWithRetry (request (service useSearch m)) default_retries.

(** The chat function of the main view.  What it writes to the console is
    left out. *)
Definition sendMessageToGemini (apiKey : option jsstring)
  (newMessage : jsstring) (entries : list (option Read.entry))
  (tasks : list (option Read.task))
  (calendarEvents : list (option Read.event)) : M World jsstring :=
  if negb (truthy apiKey) then throw (Error.make "MISSING_API_KEY")
  else
    (build_systemInstruction entries tasks calendarEvents ;;;
    try_catch
      (result <- generateResponse true MODEL_NAME ;;
       if negb (truthy (text result))
       then ret (str "I received your message, but I couldn't generate a response. (Empty response from AI)")
       else
         let finalText := or_else (text result) [] in
         let showSources := showSources_of newMessage in
         if showSources && (0 <? Z.of_nat (length (sources result)))
         then ret (finalText ++ [10; 10]%N ++ str "**Sources:**" ++ [10%N]
                   ++ join_lines (map (fun s => str "- " ++ s) (sources result)))
         else ret finalText)%eff
      (fun error =>
         let isQuota :=
           match Error.status error with Some 429 => true | _ => false end
           || includes_opt (Error.message error) "429"
           || includes_opt (Error.message error) "quota" in
         let isForbidden :=
           match Error.status error with Some 403 => true | _ => false end
           || includes_opt (Error.message error) "403" in
         let isNotFound :=
           match Error.status error with Some 404 => true | _ => false end
           || includes_opt (Error.message error) "404"
           || includes_opt (Error.message error) "not found" in
         if isForbidden || isQuota || isNotFound
         then
           try_catch
             (fallbackResult <- generateResponse false FALLBACK_MODEL ;;
              ret (or_else (text fallbackResult)
                     (str "I'm having trouble thinking, but I'm here.")))%eff
             (fun finalError => throw finalError)
         else
           try_catch
             (fallbackResult <- generateResponse false FALLBACK_MODEL ;;
              ret (or_else (text fallbackResult)
                     (str "I experienced a hiccup, but I'm back.")))%eff
             (fun finalError => throw finalError)))%eff.

End Chat.

Section Assistants.

(** The remote model, as for extraction: the answers carry their [text]. *)
Variable service : Service.

(** The [TypeError] of the engine for reading a property of [null] or
    [undefined] and for calling what is no function: what reading
    [lastMessage.text] throws when the history is empty, and what a
    template throws on a record that lacks the field it reads. *)
Variable typeError : Error.t.

(** [runChat(model)]: inside the retried operation the chat is created,
    which sends nothing, and the text of the last message is read before
    the request is made. *)
Definition runChat {T} (lastMessage : option T) (m : Model)
  : M World (option jsstring) :=
  runWithRetry
    match lastMessage with
    | Some _ => request (service m)
    | None => throw typeError
    end
    default_retries.

(** [limitedHistory[limitedHistory.length - 1]], on the last ten. *)
Definition lastMessage_of {T} (history : list T) : option T :=
  let limitedHistory := slice_last 10 history in
  nth_error limitedHistory (length limitedHistory - 1).

(** The template of [contextEntries] reads [e.date], [e.title] and
    [e.content] and calls [e.tags.join]. *)
Definition entry_joins (e : option Read.entry) : bool :=
  match e with
  | Some e => match Read.tags e with Some _ => true | None => false end
  | None => false
  end.

(** [contextEntries]: the template is evaluated on the first fifteen
    entries, before the [try]. *)
Definition build_contextEntries (entries : list (option Read.entry))
  : M World unit :=
  if forallb entry_joins (firstn 15 entries) then ret tt else throw typeError.

Definition chatWithJournal (apiKey : option jsstring)
  (history : list (Role * jsstring)) (entries : list (option Read.entry))
  : M World jsstring :=
  if negb (truthy apiKey)
  then ret (str "API Key Missing. Please go to Settings and enter your Gemini API Key.")
  else
    (build_contextEntries entries ;;;
    let lastMessage := lastMessage_of history in
    try_catch
      (result <- runChat lastMessage MODEL_NAME ;; ret (or_else result []))%eff
      (fun _ =>
         try_catch
           (result <- runChat lastMessage FALLBACK_MODEL ;;
            ret (or_else result []))%eff
           (fun _ =>
              ret (str "I'm having trouble analyzing your journal right now due to connection limits."))))%eff.

(** The template of [contextData] calls [t.date.split]. *)
Definition transaction_splits (x : option Read.transaction) : bool :=
  match x with
  | Some x => Read.is_text (Read.date x)
  | None => false
  end.

(** [contextData]: the template is evaluated on the first fifty
    transactions, before the [try]. *)
Definition build_contextData (transactions : list (option Read.transaction))
  : M World unit :=
  if forallb transaction_splits (firstn 50 transactions)
  then ret tt else throw typeError.

Definition chatWithFinance (apiKey : option jsstring)
  (history : list (Role * jsstring))
  (transactions : list (option Read.transaction)) : M World jsstring :=
  if negb (truthy apiKey)
  then ret (str "API Key Missing. Please go to Settings and enter your Gemini API Key.")
  else
    (build_contextData transactions ;;;
    let lastMessage := lastMessage_of history in
    try_catch
      (result <- runChat lastMessage MODEL_NAME ;; ret (or_else result []))%eff
      (fun _ =>
         try_catch
           (result <- runChat lastMessage FALLBACK_MODEL ;;
            ret (or_else result []))%eff
           (fun _ =>
              ret (str "I'm having trouble analyzing your financial data right now."))))%eff.

End Assistants.

End GeminiChat.

(* ===================================================================== *)
(** * The journal assistant ([src/components/AIChat.tsx]) *)
(* ===================================================================== *)

Module AIChat.

Import Gemini.

Record View := {
  messages : list ChatMessage.t;
  input : jsstring;
  isLoading : bool
}.

(** What [handleSend] reads from its surroundings. *)
Record Env := {
  service : Service;
  typeError : Error.t;
  apiKey : option jsstring;
  (** the entries on display, which the view gets from the application *)
  entries : list (option GeminiChat.Read.entry);
  (** the readings of [Date.now()], in the order they are taken *)
  now : nat -> Z
}.

Definition userMsg (env : Env) (v : View) : ChatMessage.t :=
  {| ChatMessage.id := show_Z (now env 0); ChatMessage.role := user;
     ChatMessage.text := input v; ChatMessage.timestamp := now env 1;
     ChatMessage.attachment := None |}.

(** The handler, on the view and on the world of requests. *)
Definition handleSend (env : Env) (v : View) (w : World) : View * World :=
  if negb (App.nonempty (trim (input v))) || isLoading v then (v, w)
  else
    let userMsg := userMsg env v in
    let history :=
      map (fun m => (ChatMessage.role m, ChatMessage.text m))
          (messages v ++ [userMsg]) in
    let (w, outcome) :=
      GeminiChat.chatWithJournal (service env) (typeError env) (apiKey env)
        history (entries env) w in
    let reply :=
      match outcome with
      | inr responseText =>
          {| ChatMessage.id := show_Z (now env 2 + 1);
             ChatMessage.role := model;
             ChatMessage.text :=
               or_else (Some responseText)
                       (str "I'm having trouble thinking right now.");
             ChatMessage.timestamp := now env 3;
             ChatMessage.attachment := None |}
      | inl _ =>
          {| ChatMessage.id := show_Z (now env 2);
             ChatMessage.role := model;
             ChatMessage.text := str "Sorry, I couldn't connect to Gemini.";
             ChatMessage.timestamp := now env 3;
             ChatMessage.attachment := None |}
      end in
    ({| messages := (messages v ++ [userMsg]) ++ [reply];
        input := []; isLoading := false |}, w).

End AIChat.

(* ===================================================================== *)
(** * Moving through the calendar (the calendar widget) *)
(* ===================================================================== *)

Module CalendarView.

Import JSDate.

Inductive ViewMode := day | week | month.

Section Views.

Variable tz : TimeZone.

(** [d.getDay()]: the day of the week of the local time, 0 for Sunday. *)
Definition getDay (d : t) : Z := (Day (LocalTime tz d) + 4) mod 7.

(** [d.getFullYear()] *)
Definition getFullYear (d : t) : Z := YearFromTime (LocalTime tz d).

Definition startOfWeek (date : t) : t :=
  let d := date in
  let day := getDay d in
  let diff := getDate tz d - day in
  setDate tz d diff.

Definition addDays (date : t) (days : Z) : t :=
  let result := date in
  setDate tz result (getDate tz result + days).

Definition addMonths (date : t) (months : Z) : t :=
  let result := date in
  setMonth tz result (getMonth tz result + months).

Definition handlePrev (viewMode : ViewMode) (currentDate : t) : t :=
  match viewMode with
  | month => addMonths currentDate (-1)
  | week => addDays currentDate (-7)
  | day => addDays currentDate (-1)
  end.

Definition handleNext (viewMode : ViewMode) (currentDate : t) : t :=
  match viewMode with
  | month => addMonths currentDate 1
  | week => addDays currentDate 7
  | day => addDays currentDate 1
  end.

(** The columns of the week view. *)
Definition weekDays (currentDate : t) : list t :=
  let startDate := startOfWeek currentDate in
  map (fun i => addDays startDate (Z.of_nat i)) (seq 0 7).

(** [new Date(e.startTime)] as the engine reads the text of the field:
    a date, or none when the result is an invalid date. *)
Variable newDate : option jsstring -> option t.

Definition getEventsForDay (events : list CalendarEvent.t) (date : t)
  : list CalendarEvent.t :=
  filter (fun e =>
            match newDate (CalendarEvent.startTime e) with
            | None => false
            | Some eDate =>
                (getDate tz eDate =? getDate tz date)
                && (getMonth tz eDate =? getMonth tz date)
                && (getFullYear eDate =? getFullYear date)
            end)
         events.

End Views.

End CalendarView.

(* ===================================================================== *)
(** * Entries on display, editing and backups ([src/App.tsx]) *)
(* ===================================================================== *)

Module AppData.

(** [entries.sort((a, b) => b.lastModified - a.lastModified)]: the sort of
    the engine is stable, and the order it gives is the one of inserting
    each entry, from the last to the first, before the first entry that is
    not newer. *)
Fixpoint insert_desc (e : JournalEntry.t) (sorted : list JournalEntry.t)
  : list JournalEntry.t :=
  match sorted with
  | [] => [e]
  | x :: r =>
      if JournalEntry.lastModified x <=? JournalEntry.lastModified e
      then e :: x :: r
      else x :: insert_desc e r
  end.

Definition sort_desc (l : list JournalEntry.t) : list JournalEntry.t :=
  fold_right insert_desc [] l.

(** The entries [loadData] puts on display. *)
Definition loadData (st : Storage.t) : list JournalEntry.t :=
  sort_desc (Storage.getEntries st).

(** The form of the edit dialog. *)
Record EditForm := {
  title : jsstring;
  content : jsstring
}.

Definition handleSaveEdit (now : Z) (editingEntry : option JournalEntry.t)
  (editForm : EditForm) (st : Storage.t) : Storage.t :=
  match editingEntry with
  | None => st
  | Some e =>
      let updatedEntry :=
        {| JournalEntry.id := JournalEntry.id e;
           JournalEntry.title := title editForm;
           JournalEntry.content := content editForm;
           JournalEntry.date := JournalEntry.date e;
           JournalEntry.mode := JournalEntry.mode e;
           JournalEntry.tags := JournalEntry.tags e;
           JournalEntry.calendarEvents := JournalEntry.calendarEvents e;
           JournalEntry.tasks := JournalEntry.tasks e;
           JournalEntry.transactions := JournalEntry.transactions e;
           JournalEntry.media := JournalEntry.media e;
           JournalEntry.lastModified := now |} in
      Storage.saveEntry updatedEntry st
  end.

Definition oneWeek : Z := 7 * 24 * 60 * 60 * 1000.

(** The check of the mount effect: is the reminder shown? *)
Definition showBackupReminder (now : Z) (st : Storage.t) : bool :=
  let lastBackup := Storage.getLastBackupTime st in
  oneWeek <? now - lastBackup.

(** [handleExportData]: the object written to the downloaded file and the
    storage left behind.  The clock is read by [getAllData] first and by
    [updateLastBackupTime] afterwards. *)
Definition handleExportData (now now' : Z) (st : Storage.t)
  : Storage.Backup * Storage.t :=
  let data := Storage.getAllData now st in
  (data, Storage.updateLastBackupTime now' st).

End AppData.

(* ===================================================================== *)
(** * The API key and the import client ([src/services/geminiService.ts]) *)
(* ===================================================================== *)

Module ApiKey.

(** Where a key can come from: the local storage, where the settings tab
    puts it, and the two environments. *)
Record Sources := {
  gemini_api_key : option jsstring;
  VITE_API_KEY : option jsstring;
  API_KEY : option jsstring
}.

Definition getApiKey (k : Sources) : option jsstring :=
  if truthy (gemini_api_key k) then gemini_api_key k
  else if truthy (VITE_API_KEY k) then VITE_API_KEY k
  else if truthy (API_KEY k) then API_KEY k
  else None.

Definition hasValidApiKey (k : Sources) : bool := truthy (getApiKey k).

(** [handleSaveApiKey] of the settings tab, on the text of its field. *)
Definition handleSaveApiKey (apiKey : jsstring) (k : Sources) : Sources :=
  match trim apiKey with
  | _ :: _ =>
      {| gemini_api_key := Some (trim apiKey);
         VITE_API_KEY := VITE_API_KEY k; API_KEY := API_KEY k |}
  | [] =>
      {| gemini_api_key := None;
         VITE_API_KEY := VITE_API_KEY k; API_KEY := API_KEY k |}
  end.

End ApiKey.

Module GeminiImport.

Import Gemini.

Section Upload.

(** What the import reads out of the answer. *)
Variable Imported : Type.

(** [JSON.parse], which throws on a text that is not JSON. *)
Variable JSON_parse : jsstring -> Error.t + Imported.

Variable service : Service.

(** [generate(model)] *)
Definition generate (m : Model) : M World (option jsstring) :=
  runWithRetry (generateContent service m) default_retries.

(** The body of each [try] of [processUploadedFile]. *)
Definition attempt (m : Model) : M World Imported :=
  (response <- generate m ;;
   let text := or_else response (str "{}") in
   let text := strip_close (strip_open (strip_open_json text)) in
   fun w => (w, JSON_parse text))%eff.

Definition processUploadedFile (apiKey : option jsstring) : M World Imported :=
  if negb (truthy apiKey) then throw (Error.make "API Key not found")
  else
    try_catch (attempt MODEL_NAME) (fun _ =>
      try_catch (attempt FALLBACK_MODEL) (fun retryError =>
        throw retryError)).

End Upload.

End GeminiImport.

(* ===================================================================== *)
(** * Vocabulary of the statements *)
(* ===================================================================== *)

(** The record a collection holds under an id: the first one with that id. *)
Definition lookup {T} `{Keyed T} (k : jsstring) (l : list T) : option T :=
  find (fun x => eqb (key x) k) l.

(** Replace the first element that satisfies [p], or append: what
    [findIndex] followed by an assignment or a [push] amounts to. *)
Fixpoint upsert {T} (p : T -> bool) (v : T) (l : list T) : list T :=
  match l with
  | [] => [v]
  | x :: r => if p x then v :: r else x :: upsert p v r
  end.

(** [x] has the id of [v]. *)
Definition same_key {T} `{Keyed T} (v x : T) : bool := eqb (key x) (key v).

(** ** Sample records *)

Module Sample.

Definition event (id title : string) : CalendarEvent.t :=
  {| CalendarEvent.id := str id; CalendarEvent.title := Some (str title);
     CalendarEvent.startTime := Some (str "2024-05-01T10:00:00");
     CalendarEvent.endTime := Some (str "2024-05-01T11:00:00");
     CalendarEvent.description := None;
     CalendarEvent.linkedEntryId := None |}.

Definition tx (id : string) (amount : Z) : FinanceTransaction.t :=
  {| FinanceTransaction.id := str id;
     FinanceTransaction.amount := Some amount;
     FinanceTransaction.type := Some expense;
     FinanceTransaction.category := Some (str "Food");
     FinanceTransaction.description := Some (str "Lunch");
     FinanceTransaction.date := str "2024-05-01T12:00:00.000Z";
     FinanceTransaction.linkedEntryId := None |}.

Definition task (id title : string) : Task.t :=
  {| Task.id := str id; Task.title := Some (str title);
     Task.completed := false; Task.dueDate := None;
     Task.linkedEntryId := None |}.

Definition entry (id title : string) : JournalEntry.t :=
  {| JournalEntry.id := str id; JournalEntry.title := str title;
     JournalEntry.content := str "text";
     JournalEntry.date := str "2024-05-01T12:00:00.000Z";
     JournalEntry.mode := PERSONAL; JournalEntry.tags := [];
     JournalEntry.calendarEvents := []; JournalEntry.tasks := [];
     JournalEntry.transactions := []; JournalEntry.media := [];
     JournalEntry.lastModified := 0 |}.

End Sample.

(** ** Classes of errors, as [runWithRetry] tells them apart *)

(** The classes are those of the three tests of [runWithRetry], in the
    order in which it acts on them: not found first, then rate limit, then
    server issue.  The test for a server issue looks for the statuses 500
    and 503 and for the texts [500], [503] and [Internal error] in the
    message: an error with another status of the form 5xx, and a message
    without these texts, is in none of the classes. *)

Definition NotFound (e : Error.t) : Prop := Gemini.isNotFound e = true.

Definition RateLimited (e : Error.t) : Prop :=
  Gemini.isNotFound e = false /\ Gemini.isRateLimit e = true.

Definition ServerOverload (e : Error.t) : Prop :=
  Gemini.isNotFound e = false /\ Gemini.isRateLimit e = false
  /\ Gemini.isServerIssue e = true.

Module SampleErrors.

Definition overloaded : Error.t :=
  {| Error.status := Some 503; Error.message := Some (str "The model is overloaded") |}.

Definition quota : Error.t :=
  {| Error.status := Some 429; Error.message := Some (str "Resource exhausted") |}.

Definition missing : Error.t :=
  {| Error.status := Some 404; Error.message := Some (str "model unknown") |}.

(** Two overloads, then an answer. *)
Definition twice_overloaded (k : nat) : Error.t + option jsstring :=
  match k with
  | 0%nat | 1%nat => inl overloaded
  | _ => inr (Some (str "{}"))
  end.

(** Two rate limits, then an answer. *)
Definition twice_limited (k : nat) : Error.t + option jsstring :=
  match k with
  | 0%nat | 1%nat => inl quota
  | _ => inr (Some (str "{}"))
  end.

(** A model name the service does not know. *)
Definition unknown_model (k : nat) : Error.t + option jsstring := inl missing.

Definition bad_gateway : Error.t :=
  {| Error.status := Some 502; Error.message := Some (str "Bad Gateway") |}.

(** Two failures of the gateway, then an answer. *)
Definition twice_bad_gateway (k : nat) : Error.t + option jsstring :=
  match k with
  | 0%nat | 1%nat => inl bad_gateway
  | _ => inr (Some (str "{}"))
  end.

(** An overload reported with a text that holds [not found]. *)
Definition overloaded_not_found : Error.t :=
  {| Error.status := Some 503;
     Error.message := Some (str "Backend not found, try again later") |}.

(** Two such failures, then an answer. *)
Definition twice_overloaded_not_found (k : nat) : Error.t + option jsstring :=
  match k with
  | 0%nat | 1%nat => inl overloaded_not_found
  | _ => inr (Some (str "{}"))
  end.

(** A service that is down for every model. *)
Definition down : Gemini.Service := fun _ _ => inl overloaded.

End SampleErrors.

(** ** One consolidation pass *)

Module Pass.

Import Gemini App.

(** The pass has something to do: the stream is longer than the cursor. *)
Definition pending (s : State) : Prop :=
  (processedCount s < length (personalMessages s))%nat.

(** The cursor is inside the stream. *)
Definition cursor_ok (s : State) : Prop :=
  (processedCount s <= length (personalMessages s))%nat.

(** The slice a pass started in [s] hands to extraction, and its media. *)
Definition newInput (s : State) : list ChatMessage.t :=
  newInput_of (personalMessages s) (processedCount s).

Definition media (s : State) : list Media.t := collectMedia (newInput s).

(** The batch identifier of a pass. *)
Definition batchId (env : Env) : jsstring := show_Z (now env).

(** What the extraction call of a pass returns, from the world [w]. *)
Definition extraction (env : Env) (w : World) : World * (Error.t + GeneratedData) :=
  generateEntryFromChat (JSON_parse env) (service env) (apiKey env) w.

(** The records a pass derives from the result [r]. *)
Definition events (env : Env) (s : State) (r : ExtractionResult.t)
  : list CalendarEvent.t :=
  match ExtractionResult.calendarEvents r with
  | Some cands =>
      newEvents_of (batchId env) (shouldCreateEntry_of r (media s)) cands
  | None => []
  end.

Definition tasks (env : Env) (s : State) (r : ExtractionResult.t)
  : list Task.t :=
  match ExtractionResult.tasks r with
  | Some cands =>
      newTasks_of (batchId env) (shouldCreateEntry_of r (media s))
                  (nowISO env) cands
  | None => []
  end.

Definition transactions (env : Env) (s : State) (r : ExtractionResult.t)
  : list FinanceTransaction.t :=
  match ExtractionResult.transactions r with
  | Some cands =>
      newTxs_of (batchId env) (shouldCreateEntry_of r (media s))
                (nowISO env) cands
  | None => []
  end.

(** [finalContent], as the pass derives it. *)
Definition finalContent (s : State) (r : ExtractionResult.t) : option jsstring :=
  finalContent_of r (rawUserText_of (newInput s)).

(** The message carries an image attachment. *)
Definition has_picture (m : ChatMessage.t) : bool :=
  match ChatMessage.attachment m with
  | Some a => match Attachment.type a with image => true | text => false end
  | None => false
  end.

(** The messages of the new input that carry an image attachment. *)
Definition pictures (s : State) : list ChatMessage.t :=
  filter has_picture (newInput s).

(** The media item made of the image attachment of a message. *)
Definition media_of (m : ChatMessage.t) : list Media.t :=
  match ChatMessage.attachment m with
  | Some a =>
      match Attachment.type a with
      | image =>
          [{| Media.content := Attachment.content a;
              Media.mimeType :=
                or_else (Attachment.mimeType a) (str "image/jpeg") |}]
      | text => []
      end
  | None => []
  end.

(** The condition under which the pass saves an entry. *)
Definition savesEntry (s : State) (r : ExtractionResult.t) : bool :=
  shouldCreateEntry_of r (media s)
  && (truthy (finalContent s r) || (0 <? Z.of_nat (length (media s)))).

(** The entry the pass saves, when it saves one. *)
Definition entry (env : Env) (s : State) (r : ExtractionResult.t)
  : JournalEntry.t :=
  {| JournalEntry.id := batchId env;
     JournalEntry.title :=
       finalTitle_of env r (rawUserText_of (newInput s)) (media s);
     JournalEntry.content := or_else (finalContent s r) [];
     JournalEntry.date := nowISO env;
     JournalEntry.mode := PERSONAL;
     JournalEntry.tags :=
       match ExtractionResult.tags r with Some l => l | None => [] end;
     JournalEntry.media := media s;
     JournalEntry.tasks := tasks env s r;
     JournalEntry.calendarEvents := events env s r;
     JournalEntry.transactions := transactions env s r;
     JournalEntry.lastModified := now env |}.

(** The persisted state a pass leaves, from the result [r]: the three
    kinds of records are saved when there are any, then the entry. *)
Definition stored (env : Env) (s : State) (r : ExtractionResult.t)
  (st : Storage.t) : Storage.t :=
  let st :=
    match events env s r with
    | [] => st
    | l => Storage.addCalendarEvents l st
    end in
  let st :=
    match tasks env s r with
    | [] => st
    | l => Storage.saveTasks l st
    end in
  let st :=
    match transactions env s r with
    | [] => st
    | l => Storage.addTransactions l st
    end in
  if savesEntry s r then Storage.saveEntry (entry env s r) st else st.

(** An id starts with the batch identifier. *)
Definition has_prefix (b id : jsstring) : Prop := exists rest, id = b ++ rest.

(** The events that append the messages [ms], in order. *)
Definition arrivals (ms : list ChatMessage.t) : list Event := map Append ms.

(** The event sees the stream as it is: what a view writes starts with the
    stream as it is at the write, and a pass reads the stream as it is
    when it starts. *)
Definition extends (ev : Event) (s : State) : Prop :=
  match ev with
  | Replace msgs => exists ext, msgs = personalMessages s ++ ext
  | BeginOf messages _ => messages = personalMessages s
  | _ => True
  end.

(** Every event of a run sees the stream as it is: the stream only
    grows. *)
Fixpoint growing (evs : list Event) (s : State) : Prop :=
  match evs with
  | [] => True
  | ev :: r => extends ev s /\ growing r (step ev s)
  end.

End Pass.

(** ** Sample messages and surroundings *)

Module SampleChat.

Import Gemini App.

Definition says (who : Role) (id : string) (txt : string) : ChatMessage.t :=
  {| ChatMessage.id := str id; ChatMessage.role := who;
     ChatMessage.text := str txt; ChatMessage.timestamp := 1700000000000;
     ChatMessage.attachment := None |}.

(** A message that carries a picture; [txt] is what the user typed. *)
Definition picture (id : string) (txt : string) : ChatMessage.t :=
  {| ChatMessage.id := str id; ChatMessage.role := user;
     ChatMessage.text := str txt ++ 10%N :: str "[Attachment: dinner.jpg]";
     ChatMessage.timestamp := 1700000000000;
     ChatMessage.attachment :=
       Some {| Attachment.type := image;
               Attachment.content := str "data:image/jpeg;base64,AAAA";
               Attachment.mimeType := Some (str "image/jpeg");
               Attachment.name := Some (str "dinner.jpg") |} |}.

(** Surroundings in which the remote model answers at once and its
    answer parses to [r]. *)
Definition answering (r : ExtractionResult.t) : Env :=
  {| service := fun _ _ => inr (Some (str "{...}"));
     JSON_parse := fun _ => inr (JObj r);
     apiKey := Some (str "key");
     now := 1700000000000;
     nowISO := str "2023-11-14T22:13:20.000Z";
     nowLocaleTime := str "10:13:20 PM" |}.

(** Surroundings in which every request fails. *)
Definition failing : Env :=
  {| service := SampleErrors.down;
     JSON_parse := fun _ => inr (JObj ExtractionResult.empty);
     apiKey := Some (str "key");
     now := 1700000000000;
     nowISO := str "2023-11-14T22:13:20.000Z";
     nowLocaleTime := str "10:13:20 PM" |}.

(** A state whose stream is [msgs], none of them processed yet. *)
Definition fresh (msgs : list ChatMessage.t) : State :=
  {| personalMessages := msgs; processedCount := 0;
     isAutoSaving := false; storage := Storage.empty;
     world := Gemini.start; console_errors := []; extractions := [];
     suspended := [] |}.

End SampleChat.

(** ** Sample extraction results *)

Module SampleResults.

Import Gemini.

(** [{ hasContent: false }] *)
Definition no_content : ExtractionResult.t :=
  {| ExtractionResult.hasContent := Some false;
     ExtractionResult.title := None; ExtractionResult.content := None;
     ExtractionResult.tags := None; ExtractionResult.calendarEvents := None;
     ExtractionResult.tasks := None; ExtractionResult.transactions := None |}.

(** [{ hasContent: true, tasks: [{ title: "Call the dentist" }] }] *)
Definition task_only : ExtractionResult.t :=
  {| ExtractionResult.hasContent := Some true;
     ExtractionResult.title := None; ExtractionResult.content := None;
     ExtractionResult.tags := None; ExtractionResult.calendarEvents := None;
     ExtractionResult.tasks :=
       Some [{| TaskCandidate.title := Some (str "Call the dentist");
                TaskCandidate.dueDate := None |}];
     ExtractionResult.transactions := None |}.

(** A transaction without [date] and an event without [startTime]. *)
Definition undated : ExtractionResult.t :=
  {| ExtractionResult.hasContent := Some false;
     ExtractionResult.title := None; ExtractionResult.content := None;
     ExtractionResult.tags := None;
     ExtractionResult.calendarEvents :=
       Some [{| EventCandidate.title := Some (str "Dentist");
                EventCandidate.startTime := None;
                EventCandidate.endTime := None;
                EventCandidate.description := None |}];
     ExtractionResult.tasks :=
       Some [{| TaskCandidate.title := Some (str "Call the dentist");
                TaskCandidate.dueDate := None |}];
     ExtractionResult.transactions :=
       Some [{| TxCandidate.description := Some (str "Coffee");
                TxCandidate.amount := Some 50;
                TxCandidate.type := Some expense;
                TxCandidate.category := Some (str "Food");
                TxCandidate.date := None |}] |}.

End SampleResults.

(** ** Sample zones and forms *)

Module SampleCalendar.

Import JSDate Calendar.

(** 2024-03-31T01:00:00Z, when Central European Time moves its clocks
    from UTC+1 to UTC+2. *)
Definition spring_forward : Z := MakeDate (MakeDay 2024 2 31) 3600000.

(** Central European Time around that change. *)
Definition central_europe : TimeZone :=
  {| offset_at_utc := fun tv =>
       if tv <? spring_forward then 3600000 else 7200000;
     offset_at_local := fun lt =>
       if lt <? spring_forward + 3600000 then 3600000 else 7200000 |}.

(** A clock that advances by one millisecond per turn, and draws that
    differ from turn to turn. *)
Definition env_in (zone : TimeZone) : Env :=
  {| tz := zone;
     now := fun i => 1711300000000 + Z.of_nat i;
     random36 := fun i => str "k3j9x" ++ show_nat i |}.

(** "Gym", from 09:00 to 10:00, first on [day]. *)
Definition gym (day : string) (r : RepeatMode) : NewEvent :=
  {| title := str "Gym"; description := str "Leg day"; date := str day;
     startTime := str "09:00"; endTime := str "10:00"; repeat := r |}.

End SampleCalendar.

(** ** Tasks *)

(** The task [t0] with its [completed] flag set to [c]. *)
Definition with_completed (c : bool) (t0 : Task.t) : Task.t :=
  {| Task.id := Task.id t0; Task.title := Task.title t0;
     Task.completed := c; Task.dueDate := Task.dueDate t0;
     Task.linkedEntryId := Task.linkedEntryId t0 |}.

(** ** Retries *)

(** An error after which [runWithRetry] tries again, turns permitting. *)
Definition retried (e : Error.t) : Prop :=
  Gemini.isNotFound e = false
  /\ (Gemini.isRateLimit e || Gemini.isServerIssue e) = true.

(** The wait after the failed attempt number [i] (from 0). *)
Definition wait_after (e : Error.t) (i : Z) : Z :=
  (if Gemini.isRateLimit e then 3000 else 2000) * 2 ^ i.

(** The wait after the [k]-th request from [first], when it failed. *)
Definition wait_at {T} (answers : nat -> Error.t + T) (first : nat) (i : Z)
  (k : nat) : Z :=
  match answers (first + k)%nat with
  | inl e => wait_after e (i + Z.of_nat k)
  | inr _ => 0
  end.

(** The sum of a list of waits. *)
Definition total (waits : list Z) : Z := fold_right Z.add 0 waits.

(** ** Fenced answers *)

(** The three replacements the client applies to the text of an answer. *)
Definition unfence (s : jsstring) : jsstring :=
  Gemini.strip_close (Gemini.strip_open (Gemini.strip_open_json s)).

(** [body] between a [```json] line and a closing [```] line. *)
Definition fenced (body : jsstring) : jsstring :=
  str "```json" ++ 10%N :: body ++ 10%N :: str "```".

(** ** Sample sends *)

Module SampleSend.

Import ChatInterface.

(** Surroundings in which the assistant answers [reply]. *)
Definition answering (reply : string) : Env :=
  {| now := fun k => 1700000000000 + Z.of_nat k;
     sendMessageToGemini := fun _ _ _ => inr (str reply) |}.

(** The view after the user typed [txt]. *)
Definition typed (txt : string) : View :=
  {| input := str txt; isTyping := false; attachment := None |}.

(** The view after the user typed [txt] and chose the picture [file]. *)
Definition with_picture (txt file : string) : View :=
  {| input := str txt; isTyping := false;
     attachment :=
       Some {| type := image; content := str "AAAA"; name := str file;
               mimeType := Some (str "image/jpeg") |} |}.

End SampleSend.

(** ** A reply that arrives late *)

Module SampleRace.

Import App.

(** Surroundings of a send at the time [t] that is answered [reply]. *)
Definition send_at (t : Z) (reply : string) : ChatInterface.Env :=
  {| ChatInterface.now := fun k => t + Z.of_nat k;
     ChatInterface.sendMessageToGemini := fun _ _ _ => inr (str reply) |}.

Definition firstSend : ChatInterface.Env :=
  send_at 1700000000000 "How was it?".

Definition secondSend : ChatInterface.Env :=
  send_at 1700000004000 "Enjoy the soup.".

Definition thirdSend : ChatInterface.Env :=
  send_at 1700000030000 "Good idea.".

Definition firstView : ChatInterface.View :=
  SampleSend.typed "Went to the market".

Definition secondView : ChatInterface.View :=
  SampleSend.typed "Cooking soup tonight".

Definition thirdView : ChatInterface.View :=
  SampleSend.typed "Call the dentist tomorrow".

Definition u1 : ChatMessage.t := ChatInterface.newUserMsg firstSend firstView.
Definition a1 : ChatMessage.t := ChatInterface.aiMsg firstSend (str "How was it?").
Definition u2 : ChatMessage.t := ChatInterface.newUserMsg secondSend secondView.
Definition a2 : ChatMessage.t :=
  ChatInterface.aiMsg secondSend (str "Enjoy the soup.").
Definition u3 : ChatMessage.t := ChatInterface.newUserMsg thirdSend thirdView.
Definition a3 : ChatMessage.t := ChatInterface.aiMsg thirdSend (str "Good idea.").

(** The surroundings of the passes: the remote model answers at once and
    finds nothing to record. *)
Definition pass : Env := SampleChat.answering SampleResults.no_content.

(** The state in which the chat view is first shown. *)
Definition start : State := mount Storage.empty.

(** The stream when the second message is sent: the first message was
    written, the user left the chat tab, which runs a pass at once, and came
    back to a new chat view, which waits for no reply. *)
Definition back_on_chat : State := run [Append u1; Flush pass] start.

(** What happens while the first reply is awaited: the pass on leaving the
    tab, the second message and its reply, written by the new view, and the
    pass scheduled after them. *)
Definition meanwhile : list Event :=
  [Flush pass; Append u2; Replace [u1; u2; a2]; Flush pass].

(** The state once the first reply has arrived. *)
Definition late_reply : State :=
  snd (ChatInterface.handleSend firstSend meanwhile firstView start).

(** A third message is sent and answered, and the pass scheduled after the
    answer runs. *)
Definition finish : State :=
  run [Flush pass]
      (snd (ChatInterface.handleSend thirdSend [] thirdView late_reply)).

End SampleRace.

(** ** Sample questions to the journal assistant *)

Module SampleAssistant.

Import AIChat.

(** Surroundings in which every request fails. *)
Definition offline : Env :=
  {| service := SampleErrors.down;
     typeError := Error.make "Cannot read properties of undefined";
     apiKey := Some (str "key");
     entries := [GeminiChat.Read.of_entry (Sample.entry "1" "Monday")];
     now := fun k => 1700000000000 + Z.of_nat k |}.

(** An entry restored from a backup file that holds no tags for it. *)
Definition untagged : option GeminiChat.Read.entry :=
  Some {| GeminiChat.Read.content := GeminiChat.Read.Text (str "text");
          GeminiChat.Read.tags := None |}.

(** Surroundings in which the model answers [reply] and the entries on
    display are [shown]. *)
Definition online (reply : string)
  (shown : list (option GeminiChat.Read.entry)) : Env :=
  {| service := fun _ _ => inr (Some (str reply));
     typeError := Error.make "Cannot read properties of undefined";
     apiKey := Some (str "key");
     entries := shown;
     now := fun k => 1700000000000 + Z.of_nat k |}.

(** The view after the user typed [txt]. *)
Definition asking (txt : string) : View :=
  {| messages := []; input := str txt; isLoading := false |}.

End SampleAssistant.

(** ** Order of display *)

(** Newest first: [b] was not modified after [a]. *)
Definition not_newer (a b : JournalEntry.t) : Prop :=
  JournalEntry.lastModified b <= JournalEntry.lastModified a.

(** ** Sample surroundings of the calendar widget *)

Module SampleWidget.

Import JSDate Calendar.

(** A clock that advances by one millisecond per turn, with the same draw
    at every turn. *)
Definition ticking (zone : TimeZone) : Env :=
  {| tz := zone;
     now := fun i => 1711300000000 + Z.of_nat i;
     random36 := fun _ => str "k3j9x" |}.

End SampleWidget.

(* ===================================================================== *)
(** * Properties *)
(* ===================================================================== *)

(** ** Strings and arrays *)

Lemma eqb_eq (a b : jsstring) : eqb a b = true <-> a = b.
Proof.
  unfold eqb. destruct (list_eq_dec N.eq_dec a b); split; congruence.
Qed.

Lemma eqb_refl (a : jsstring) : eqb a a = true.
Proof. now apply eqb_eq. Qed.

Lemma eqb_neq (a b : jsstring) : eqb a b = false <-> a <> b.
Proof.
  unfold eqb. destruct (list_eq_dec N.eq_dec a b); split; congruence.
Qed.


Lemma findIndex_range {T} (p : T -> bool) (l : list T) :
  Arr.findIndex p l = -1 \/ 0 <= Arr.findIndex p l.
Proof.
  induction l as [|x r IH]; simpl.
  - now left.
  - destruct (p x); [right; lia|].
    destruct (Arr.findIndex p r <? 0) eqn:E; [now left|].
    apply Z.ltb_ge in E. right. lia.
Qed.

Lemma findIndex_upsert {T} (p : T -> bool) (v : T) (l : list T) :
  (if Arr.findIndex p l >=? 0
   then Arr.set (Z.to_nat (Arr.findIndex p l)) v l
   else l ++ [v]) = upsert p v l.
Proof.
  induction l as [|x r IH]; simpl; [reflexivity|].
  destruct (p x); simpl; [reflexivity|].
  destruct (findIndex_range p r) as [E|E].
  - rewrite E in *. simpl in *. now rewrite IH.
  - assert (L : (Arr.findIndex p r <? 0) = false) by now apply Z.ltb_ge.
    rewrite L.
    assert (G : (Arr.findIndex p r >=? 0) = true) by (apply Z.geb_le; lia).
    rewrite G in IH.
    assert (G1 : (Arr.findIndex p r + 1 >=? 0) = true) by (apply Z.geb_le; lia).
    rewrite G1.
    replace (Z.to_nat (Arr.findIndex p r + 1)) with (S (Z.to_nat (Arr.findIndex p r))) by lia.
    simpl. now rewrite IH.
Qed.

Section Upsert.

Context {T : Type} `{Keyed T}.

Lemma lookup_upsert (v : T) (l : list T) (k : jsstring) :
  lookup k (upsert (same_key v) v l)
  = if eqb (key v) k then Some v else lookup k l.
Proof.
  unfold lookup, same_key.
  induction l as [|x r IH]; simpl.
  - destruct (eqb (key v) k); reflexivity.
  - destruct (eqb (key x) (key v)) eqn:E; simpl.
    + apply eqb_eq in E. rewrite E. destruct (eqb (key v) k); reflexivity.
    + destruct (eqb (key x) k) eqn:Ek.
      * apply eqb_eq in Ek. apply eqb_neq in E.
        assert (N : eqb (key v) k = false) by (apply eqb_neq; congruence).
        now rewrite N.
      * exact IH.
Qed.

Lemma keys_upsert_in (v : T) (l : list T) (k : jsstring) :
  In k (keys (upsert (same_key v) v l)) <-> k = key v \/ In k (keys l).
Proof.
  unfold keys, same_key.
  induction l as [|x r IH]; simpl.
  - intuition.
  - destruct (eqb (key x) (key v)) eqn:E; simpl.
    + apply eqb_eq in E. rewrite E. intuition.
    + rewrite IH. intuition.
Qed.

Lemma NoDup_upsert (v : T) (l : list T) :
  NoDup (keys l) -> NoDup (keys (upsert (same_key v) v l)).
Proof.
  induction l as [|x r IH]; simpl; intros ND.
  - constructor; [intros []|constructor].
  - inversion ND as [|? ? Hx Hr]; subst.
    unfold same_key at 1. destruct (eqb (key x) (key v)) eqn:E; simpl.
    + apply eqb_eq in E. rewrite <- E. now constructor.
    + constructor; [|now apply IH].
      fold (keys (upsert (same_key v) v r)).
      rewrite keys_upsert_in. apply eqb_neq in E.
      intros [C|C]; [congruence|]. now apply Hx.
Qed.

(** With an id that is present the collection keeps its ids, in order;
    with a new id the record goes to the end. *)
Lemma keys_upsert (v : T) (l : list T) :
  keys (upsert (same_key v) v l)
  = if existsb (same_key v) l then keys l else keys l ++ [key v].
Proof.
  unfold keys, same_key.
  induction l as [|x r IH]; simpl; [reflexivity|].
  destruct (eqb (key x) (key v)) eqn:E; simpl.
  - apply eqb_eq in E. now rewrite E.
  - rewrite IH. now destruct (existsb _ r).
Qed.

Lemma lookup_app (k : jsstring) (a b : list T) :
  lookup k (a ++ b)
  = match lookup k a with Some x => Some x | None => lookup k b end.
Proof.
  unfold lookup. induction a as [|x r IH]; simpl; [reflexivity|].
  now destruct (eqb (key x) k).
Qed.

Lemma lookup_none (k : jsstring) (l : list T) :
  lookup k l = None <-> ~ In k (keys l).
Proof.
  unfold lookup, keys. induction l as [|x r IH]; simpl.
  - intuition.
  - destruct (eqb (key x) k) eqn:E.
    + apply eqb_eq in E. split; [discriminate|]. intros C. exfalso. auto.
    + apply eqb_neq in E. rewrite IH. intuition.
Qed.

(** A record with a new id goes to the end. *)
Lemma upsert_absent (v : T) (l : list T) :
  ~ In (key v) (keys l) -> upsert (same_key v) v l = l ++ [v].
Proof.
  unfold keys, same_key. induction l as [|x r IH]; simpl; intros N;
    [reflexivity|].
  destruct (eqb (key x) (key v)) eqn:E.
  - apply eqb_eq in E. exfalso. auto.
  - f_equal. apply IH. intros C. auto.
Qed.

(** A record with a stored id takes the place of the first record stored
    under that id. *)
Lemma upsert_at (v x : T) (before after : list T) :
  key x = key v ->
  ~ In (key v) (keys before) ->
  upsert (same_key v) v (before ++ x :: after) = before ++ v :: after.
Proof.
  unfold keys, same_key. intros K.
  induction before as [|y r IH]; simpl; intros N.
  - rewrite K, eqb_refl. reflexivity.
  - destruct (eqb (key y) (key v)) eqn:E.
    + apply eqb_eq in E. exfalso. auto.
    + f_equal. apply IH. intros C. auto.
Qed.

End Upsert.

(** ** Persistence *)

Module StorageFacts.

Import Storage.

Lemma saveEntry_list_upsert (entry : JournalEntry.t) (entries : list JournalEntry.t) :
  saveEntry_list entry entries = upsert (same_key entry) entry entries.
Proof. unfold saveEntry_list. apply findIndex_upsert. Qed.

Lemma saveTasks_step_upsert (updated : list Task.t) (t0 : Task.t) :
  saveTasks_step updated t0 = upsert (same_key t0) t0 updated.
Proof. unfold saveTasks_step. apply findIndex_upsert. Qed.

Lemma lookup_saveTasks_list (tasks current : list Task.t) (k : jsstring) :
  lookup k (saveTasks_list tasks current)
  = match lookup k (rev tasks) with
    | Some t0 => Some t0
    | None => lookup k current
    end.
Proof.
  unfold saveTasks_list. revert current.
  induction tasks as [|t0 r IH]; intros current; simpl; [reflexivity|].
  rewrite IH, lookup_app, saveTasks_step_upsert, lookup_upsert.
  destruct (lookup k (rev r)); [reflexivity|].
  unfold lookup at 1. simpl. fold (key t0).
  destruct (eqb (key t0) k); reflexivity.
Qed.

Lemma NoDup_saveTasks_list (tasks current : list Task.t) :
  NoDup (keys current) -> NoDup (keys (saveTasks_list tasks current)).
Proof.
  unfold saveTasks_list. revert current.
  induction tasks as [|t0 r IH]; intros current ND; simpl; [exact ND|].
  apply IH. rewrite saveTasks_step_upsert. now apply NoDup_upsert.
Qed.

Lemma keys_saveTasks_list (tasks current : list Task.t) (k : jsstring) :
  In k (keys (saveTasks_list tasks current))
  <-> In k (keys current) \/ In k (keys tasks).
Proof.
  unfold saveTasks_list. revert current.
  induction tasks as [|t0 r IH]; intros current; simpl; [intuition|].
  rewrite IH, saveTasks_step_upsert, keys_upsert_in.
  fold (key t0). intuition.
Qed.

Lemma find_filter {T} (p f : T -> bool) (l : list T) :
  (forall x, p x = true -> f x = true) -> find p (filter f l) = find p l.
Proof.
  intros Hpf. induction l as [|x r IH]; simpl; [reflexivity|].
  destruct (f x) eqn:F; simpl.
  - now rewrite IH.
  - destruct (p x) eqn:P; [|exact IH].
    apply Hpf in P. congruence.
Qed.

Lemma existsb_same_key {T} `{Keyed T} (e : T) (l : list T) :
  existsb (same_key e) l = true <-> In (key e) (keys l).
Proof.
  unfold same_key, keys. rewrite existsb_exists, in_map_iff.
  split; intros [x [A B]].
  - apply eqb_eq in B. eauto.
  - exists x. split; [assumption|]. now apply eqb_eq.
Qed.

Lemma lookup_addCalendarEvents_list (events current : list CalendarEvent.t)
  (k : jsstring) :
  lookup k (addCalendarEvents_list events current)
  = match lookup k current with
    | Some c => Some c
    | None => lookup k events
    end.
Proof.
  unfold addCalendarEvents_list. rewrite lookup_app.
  destruct (lookup k current) eqn:L; [reflexivity|].
  unfold lookup. apply find_filter. intros x Hx.
  apply eqb_eq in Hx. apply negb_true_iff.
  destruct (Arr.found _ current) eqn:F; [|reflexivity].
  exfalso. apply lookup_none in L. apply L.
  rewrite <- Hx. apply existsb_same_key. exact F.
Qed.

Lemma NoDup_keys_filter {T} `{Keyed T} (f : T -> bool) (l : list T) :
  NoDup (keys l) -> NoDup (keys (filter f l)).
Proof.
  unfold keys. induction l as [|x r IH]; simpl; intros ND; [constructor|].
  inversion ND as [|? ? Hx Hr]; subst.
  destruct (f x); simpl; [|now apply IH].
  constructor; [|now apply IH].
  rewrite in_map_iff. intros [y [E I]]. apply filter_In in I.
  apply Hx. rewrite in_map_iff. exists y. tauto.
Qed.

Lemma NoDup_addCalendarEvents_list (events current : list CalendarEvent.t) :
  NoDup (keys current) -> NoDup (keys events) ->
  NoDup (keys (addCalendarEvents_list events current)).
Proof.
  intros NDc NDe. unfold addCalendarEvents_list, keys. rewrite map_app.
  apply NoDup_app; [exact NDc| |].
  - now apply (NoDup_keys_filter _ events).
  - intros k Ic If. apply in_map_iff in If. destruct If as [e [E I]].
    apply filter_In in I. destruct I as [_ N].
    apply negb_true_iff in N.
    assert (F : Arr.found (fun c => eqb (CalendarEvent.id c) (CalendarEvent.id e)) current = true).
    { apply (existsb_same_key e current). subst k. exact Ic. }
    congruence.
Qed.

Lemma saveTasks_list_fold (tasks current : list Task.t) :
  saveTasks_list tasks current
  = fold_left (fun l t0 => upsert (same_key t0) t0 l) tasks current.
Proof.
  unfold saveTasks_list. revert current.
  induction tasks as [|t0 r IH]; intros current; simpl; [reflexivity|].
  now rewrite IH, saveTasks_step_upsert.
Qed.

(** The ids after [saveTasks]: each id that is new goes to the end, the
    others stay where they are. *)
Lemma keys_saveTasks_fold (tasks current : list Task.t) :
  keys (saveTasks_list tasks current)
  = fold_left (fun ks t0 => if existsb (fun k => eqb k (key t0)) ks
                            then ks else ks ++ [key t0])
              tasks (keys current).
Proof.
  unfold saveTasks_list. revert current.
  induction tasks as [|t0 r IH]; intros current; simpl; [reflexivity|].
  rewrite IH, saveTasks_step_upsert, keys_upsert. f_equal.
  assert (E : existsb (fun k => eqb k (key t0)) (keys current)
              = existsb (same_key t0) current).
  { unfold keys, same_key. induction current as [|x l IHl]; simpl;
      [reflexivity|].
    now rewrite IHl. }
  rewrite E. now destruct (existsb (same_key t0) current).
Qed.

Lemma getEntries_saveEntry entry s :
  getEntries (saveEntry entry s) = saveEntry_list entry (getEntries s).
Proof. reflexivity. Qed.

Lemma getTasks_saveTasks tasks s :
  getTasks (saveTasks tasks s) = saveTasks_list tasks (getTasks s).
Proof. reflexivity. Qed.

Lemma getCalendarEvents_addCalendarEvents events s :
  getCalendarEvents (addCalendarEvents events s)
  = addCalendarEvents_list events (getCalendarEvents s).
Proof. reflexivity. Qed.

Lemma getTransactions_addTransactions txs s :
  getTransactions (addTransactions txs s) = getTransactions s ++ txs.
Proof. reflexivity. Qed.

(** C4, as amended.  [saveEntry] and [saveTasks] merge by id: the record
    written takes the place of the first record stored under its id, at the
    position of that record, and goes to the end when the id is new;
    [saveTasks] does this for its records one after the other; a collection
    with unique ids keeps them unique.  [addCalendarEvents] keeps the
    stored record when the id exists already, the incoming one being
    ignored, and appends the records with a new id, so ids stay unique when
    the incoming batch repeats none.  [addTransactions] appends every
    record it is given. *)
Theorem put_operations (s : Storage.t) :
  (forall entry,
      ~ In (key entry) (keys (getEntries s)) ->
      getEntries (saveEntry entry s) = getEntries s ++ [entry])
  /\ (forall entry before x after,
      getEntries s = before ++ x :: after ->
      key x = key entry ->
      ~ In (key entry) (keys before) ->
      getEntries (saveEntry entry s) = before ++ entry :: after)
  /\ (forall entry k,
      lookup k (getEntries (saveEntry entry s))
      = if eqb (key entry) k then Some entry else lookup k (getEntries s))
  /\ (forall entry,
      keys (getEntries (saveEntry entry s))
      = if existsb (same_key entry) (getEntries s)
        then keys (getEntries s)
        else keys (getEntries s) ++ [key entry])
  /\ (forall entry,
      NoDup (keys (getEntries s)) ->
      NoDup (keys (getEntries (saveEntry entry s))))
  /\ (forall t0,
      ~ In (key t0) (keys (getTasks s)) ->
      getTasks (saveTasks [t0] s) = getTasks s ++ [t0])
  /\ (forall t0 before x after,
      getTasks s = before ++ x :: after ->
      key x = key t0 ->
      ~ In (key t0) (keys before) ->
      getTasks (saveTasks [t0] s) = before ++ t0 :: after)
  /\ (forall t0 rest,
      getTasks (saveTasks (t0 :: rest) s)
      = getTasks (saveTasks rest (saveTasks [t0] s)))
  /\ getTasks (saveTasks [] s) = getTasks s
  /\ (forall tasks,
      getTasks (saveTasks tasks s)
      = fold_left (fun l t0 => upsert (same_key t0) t0 l) tasks (getTasks s))
  /\ (forall tasks,
      keys (getTasks (saveTasks tasks s))
      = fold_left (fun ks t0 => if existsb (fun k => eqb k (key t0)) ks
                                then ks else ks ++ [key t0])
                  tasks (keys (getTasks s)))
  /\ (forall tasks k,
      lookup k (getTasks (saveTasks tasks s))
      = match lookup k (rev tasks) with
        | Some t0 => Some t0
        | None => lookup k (getTasks s)
        end)
  /\ (forall tasks,
      NoDup (keys (getTasks s)) ->
      NoDup (keys (getTasks (saveTasks tasks s))))
  /\ (forall events,
      getCalendarEvents (addCalendarEvents events s)
      = getCalendarEvents s
        ++ filter (fun e => negb (existsb (same_key e) (getCalendarEvents s)))
                  events)
  /\ (forall events k,
      lookup k (getCalendarEvents (addCalendarEvents events s))
      = match lookup k (getCalendarEvents s) with
        | Some c => Some c
        | None => lookup k events
        end)
  /\ (forall events,
      NoDup (keys (getCalendarEvents s)) -> NoDup (keys events) ->
      NoDup (keys (getCalendarEvents (addCalendarEvents events s))))
  /\ (forall txs,
      getTransactions (addTransactions txs s) = getTransactions s ++ txs).
Proof.
  split.
  { intros entry N. rewrite getEntries_saveEntry, saveEntry_list_upsert.
    now apply upsert_absent. }
  split.
  { intros entry before x after E K N.
    rewrite getEntries_saveEntry, saveEntry_list_upsert, E.
    now apply upsert_at. }
  split.
  { intros. rewrite getEntries_saveEntry, saveEntry_list_upsert.
    apply lookup_upsert. }
  split.
  { intros. rewrite getEntries_saveEntry, saveEntry_list_upsert.
    apply keys_upsert. }
  split.
  { intros. rewrite getEntries_saveEntry, saveEntry_list_upsert.
    now apply NoDup_upsert. }
  split.
  { intros t0 N. rewrite getTasks_saveTasks. unfold saveTasks_list.
    cbn [fold_left]. rewrite saveTasks_step_upsert. now apply upsert_absent. }
  split.
  { intros t0 before x after E K N. rewrite getTasks_saveTasks.
    unfold saveTasks_list. cbn [fold_left].
    rewrite saveTasks_step_upsert, E. now apply upsert_at. }
  split.
  { intros t0 rest. now rewrite !getTasks_saveTasks. }
  split; [reflexivity|].
  split.
  { intros tasks. rewrite getTasks_saveTasks. apply saveTasks_list_fold. }
  split.
  { intros tasks. rewrite getTasks_saveTasks. apply keys_saveTasks_fold. }
  split.
  { intros. rewrite getTasks_saveTasks. apply lookup_saveTasks_list. }
  split.
  { intros. rewrite getTasks_saveTasks. now apply NoDup_saveTasks_list. }
  split; [reflexivity|].
  split.
  { intros. rewrite getCalendarEvents_addCalendarEvents.
    apply lookup_addCalendarEvents_list. }
  split.
  { intros. rewrite getCalendarEvents_addCalendarEvents.
    now apply NoDup_addCalendarEvents_list. }
  reflexivity.
Qed.

Ltac nodup_by_computation :=
  simpl;
  repeat (constructor; [simpl; intuition discriminate|]);
  constructor.

Lemma put_operations_witness :
  let s := saveTasks [Sample.task "t1" "Buy milk"]
             (addCalendarEvents [Sample.event "e1" "Dentist"] Storage.empty) in
  NoDup (keys (getEntries s))
  /\ NoDup (keys (getTasks s))
  /\ NoDup (keys (getCalendarEvents s))
  /\ NoDup (keys [Sample.event "e2" "Gym"])
  /\ NoDup (keys (getEntries (saveEntry (Sample.entry "17" "Walk") s)))
  /\ NoDup (keys (getTasks (saveTasks [Sample.task "t1" "Buy oat milk"] s)))
  /\ NoDup (keys (getCalendarEvents
                    (addCalendarEvents [Sample.event "e2" "Gym"] s)))
  /\ getTasks (saveTasks [Sample.task "t1" "Buy oat milk"] s)
     = [Sample.task "t1" "Buy oat milk"].
Proof.
  cbv zeta.
  set (s := saveTasks [Sample.task "t1" "Buy milk"]
              (addCalendarEvents [Sample.event "e1" "Dentist"] Storage.empty)).
  assert (N1 : NoDup (keys (getEntries s))) by nodup_by_computation.
  assert (N2 : NoDup (keys (getTasks s))) by nodup_by_computation.
  assert (N3 : NoDup (keys (getCalendarEvents s))) by nodup_by_computation.
  assert (N4 : NoDup (keys [Sample.event "e2" "Gym"])) by nodup_by_computation.
  destruct (put_operations s)
    as (_ & _ & _ & _ & E & _ & At & _ & _ & _ & _ & _ & T & _ & _ & V & _).
  split; [exact N1|]. split; [exact N2|]. split; [exact N3|].
  split; [exact N4|]. split; [exact (E _ N1)|]. split; [exact (T _ N2)|].
  split; [exact (V _ N3 N4)|].
  apply (At (Sample.task "t1" "Buy oat milk") [] (Sample.task "t1" "Buy milk") []).
  - reflexivity.
  - reflexivity.
  - intros C. exact C.
Defined.

(** C4 as stated fails: an event written under an id that is stored already
    does not replace the stored one, and writing a transaction twice leaves
    two records with one id. *)
Lemma put_not_all_merge_by_id :
  let old := Sample.event "e1" "Dentist" in
  let new := Sample.event "e1" "Dentist, moved" in
  let t1 := Sample.tx "t1" 12 in
  getCalendarEvents
    (addCalendarEvents [new] (addCalendarEvents [old] Storage.empty)) = [old]
  /\ old <> new
  /\ getTransactions
       (addTransactions [t1] (addTransactions [t1] Storage.empty)) = [t1; t1]
  /\ ~ NoDup (keys (getTransactions
                      (addTransactions [t1] (addTransactions [t1] Storage.empty)))).
Proof.
  repeat split.
  - intros E. discriminate E.
  - simpl. intros ND. inversion ND as [|? ? Hn _]; subst.
    apply Hn. now left.
Qed.

(** C10.  Restoring the object [getAllData] returns leaves every collection
    as it was: entries, calendar events, tasks, transactions and both chat
    histories (and the time of the last backup). *)
Theorem restore_getAllData (ts : Z) (s : Storage.t) :
  let s' := restoreData (getAllData ts s) s in
  getEntries s' = getEntries s
  /\ getCalendarEvents s' = getCalendarEvents s
  /\ getTasks s' = getTasks s
  /\ getTransactions s' = getTransactions s
  /\ getChatHistory PERSONAL s' = getChatHistory PERSONAL s
  /\ getChatHistory PROFESSIONAL s' = getChatHistory PROFESSIONAL s
  /\ getLastBackupTime s' = getLastBackupTime s.
Proof.
  destruct s as [e c t0 f cp cf b].
  repeat split.
  unfold restoreData, getAllData, getLastBackupTime. simpl.
  destruct b as [z|]; simpl; [|reflexivity].
  destruct (z =? 0) eqn:E; reflexivity.
Qed.

(** A stored array is restored as the very text it was: the storage itself
    is unchanged when every collection holds one. *)
Lemma restore_getAllData_stored (ts : Z) e c t0 f cp cf (b : Z) :
  b <> 0 ->
  let s := {| STORAGE_KEY := Stored e; CALENDAR_KEY := Stored c;
              TASKS_KEY := Stored t0; FINANCE_KEY := Stored f;
              CHAT_PERSONAL_KEY := Stored cp; CHAT_PROF_KEY := Stored cf;
              BACKUP_TIMESTAMP_KEY := Some b |} in
  restoreData (getAllData ts s) s = s.
Proof.
  intros Hb s. subst s. apply Z.eqb_neq in Hb.
  unfold restoreData, getAllData, getLastBackupTime. cbn.
  now rewrite Hb.
Qed.

End StorageFacts.

(** ** The retry policy *)

Module RetryFacts.

Import Gemini.

(** The loop sends at most as many requests as it has turns left. *)
Lemma loop_requests_le {T} (answers : nat -> Error.t + T) (retries : Z)
  (fuel : nat) :
  forall (i : Z) (w : World),
    (requests (fst (runWithRetry_loop (request answers) retries i fuel w))
     <= requests w + fuel)%nat.
Proof.
  induction fuel as [|fuel IH]; intros i w; simpl.
  - lia.
  - unfold try_catch, request at 1. simpl.
    destruct (answers (requests w)) as [e|v]; simpl; [|lia].
    destruct (isNotFound e); simpl; [lia|].
    destruct ((isRateLimit e || isServerIssue e) && (i <? retries - 1));
      simpl; [|lia].
    unfold bind, delay, exec. simpl.
    match goal with
    | |- context [runWithRetry_loop _ _ ?j fuel ?w'] =>
        specialize (IH j w'); simpl in IH
    end.
    lia.
Qed.

(** One failed attempt that is retried: the loop sleeps and goes on. *)
Lemma loop_retry {T} (answers : nat -> Error.t + T) (retries i : Z)
  (fuel : nat) (w : World) (e : Error.t) :
  answers (requests w) = inl e ->
  isNotFound e = false ->
  (isRateLimit e || isServerIssue e) = true ->
  i < retries - 1 ->
  runWithRetry_loop (request answers) retries i (S fuel) w
  = runWithRetry_loop (request answers) retries (i + 1) fuel
      {| requests := S (requests w);
         slept := slept w ++ [(if isRateLimit e then 3000 else 2000) * 2 ^ i] |}.
Proof.
  intros A NF R I. simpl. unfold try_catch, request at 1. rewrite A, NF, R.
  apply Z.ltb_lt in I. rewrite I. reflexivity.
Qed.

Lemma loop_success {T} (answers : nat -> Error.t + T) (retries i : Z)
  (fuel : nat) (w : World) (v : T) :
  answers (requests w) = inr v ->
  runWithRetry_loop (request answers) retries i (S fuel) w
  = ({| requests := S (requests w); slept := slept w |}, inr v).
Proof.
  intros A. simpl. unfold try_catch, request. now rewrite A.
Qed.

Lemma loop_not_found {T} (answers : nat -> Error.t + T) (retries i : Z)
  (fuel : nat) (w : World) (e : Error.t) :
  answers (requests w) = inl e ->
  isNotFound e = true ->
  runWithRetry_loop (request answers) retries i (S fuel) w
  = ({| requests := S (requests w); slept := slept w |}, inl e).
Proof.
  intros A NF. simpl. unfold try_catch, request. now rewrite A, NF.
Qed.

(** The last turn rethrows whatever it caught. *)
Lemma loop_last {T} (answers : nat -> Error.t + T) (retries i : Z)
  (fuel : nat) (w : World) (e : Error.t) :
  answers (requests w) = inl e ->
  retries - 1 <= i ->
  runWithRetry_loop (request answers) retries i (S fuel) w
  = ({| requests := S (requests w); slept := slept w |}, inl e).
Proof.
  intros A I. simpl. unfold try_catch, request. rewrite A.
  destruct (isNotFound e); [reflexivity|].
  assert (L : (i <? retries - 1) = false) by (apply Z.ltb_ge; lia).
  rewrite L, andb_false_r. reflexivity.
Qed.

(** Two retried failures and a success, for errors of one class. *)
Lemma two_failures_then_success {T} (answers : nat -> Error.t + T) (w : World)
  (e1 e2 : Error.t) (v : T) :
  answers (requests w) = inl e1 ->
  answers (S (requests w)) = inl e2 ->
  answers (S (S (requests w))) = inr v ->
  isNotFound e1 = false -> isNotFound e2 = false ->
  (isRateLimit e1 || isServerIssue e1) = true ->
  (isRateLimit e2 || isServerIssue e2) = true ->
  runWithRetry (request answers) default_retries w
  = ({| requests := requests w + 3;
        slept := slept w ++ [(if isRateLimit e1 then 3000 else 2000);
                             (if isRateLimit e2 then 3000 else 2000) * 2] |},
     inr v).
Proof.
  intros A1 A2 A3 N1 N2 R1 R2.
  unfold runWithRetry, default_retries.
  change (Z.to_nat 3) with 3%nat.
  rewrite (loop_retry answers 3 0 2 w e1 A1 N1 R1) by lia.
  erewrite (loop_retry answers 3 (0 + 1) 1 _ e2); [|exact A2|exact N2|exact R2|lia].
  erewrite (loop_success answers 3 _ 0 _ v); [|exact A3].
  cbn [requests slept]. rewrite <- app_assoc. cbn [app].
  repeat f_equal; lia.
Qed.

(** An error that passes none of the tests is rethrown at once. *)
Lemma loop_other {T} (answers : nat -> Error.t + T) (retries i : Z)
  (fuel : nat) (w : World) (e : Error.t) :
  answers (requests w) = inl e ->
  isRateLimit e = false ->
  isServerIssue e = false ->
  runWithRetry_loop (request answers) retries i (S fuel) w
  = ({| requests := S (requests w); slept := slept w |}, inl e).
Proof.
  intros A R S. simpl. unfold try_catch, request. rewrite A, R, S.
  now destruct (isNotFound e).
Qed.

(** The test of a status against a number. *)
Lemma status_is_404 (code : Z) :
  match code with 404 => true | _ => false end = (code =? 404).
Proof.
  destruct code as [|p|p]; try reflexivity;
    repeat (destruct p as [p|p|]; try reflexivity).
Qed.

Lemma status_is_429 (code : Z) :
  match code with 429 => true | _ => false end = (code =? 429).
Proof.
  destruct code as [|p|p]; try reflexivity;
    repeat (destruct p as [p|p|]; try reflexivity).
Qed.

Lemma status_is_500 (code : Z) :
  match code with 500 => true | _ => false end = (code =? 500).
Proof.
  destruct code as [|p|p]; try reflexivity;
    repeat (destruct p as [p|p|]; try reflexivity).
Qed.

Lemma status_is_503 (code : Z) :
  match code with 503 => true | _ => false end = (code =? 503).
Proof.
  destruct code as [|p|p]; try reflexivity;
    repeat (destruct p as [p|p|]; try reflexivity).
Qed.

(** The classes of an error that carries a status and no message. *)
Lemma classes_by_status (code : Z) :
  let e := {| Error.status := Some code; Error.message := None |} in
  (NotFound e <-> code = 404)
  /\ (RateLimited e <-> code = 429)
  /\ (ServerOverload e <-> code = 500 \/ code = 503).
Proof.
  cbv zeta. unfold NotFound, RateLimited, ServerOverload.
  unfold isNotFound, isRateLimit, isServerIssue.
  cbn [Error.status Error.message includes_opt].
  rewrite status_is_404, status_is_429, status_is_500, status_is_503.
  rewrite !orb_false_r.
  destruct (Z.eqb_spec code 404), (Z.eqb_spec code 429),
    (Z.eqb_spec code 500), (Z.eqb_spec code 503);
    cbn [orb]; repeat split; intros; try lia; try tauto;
    try discriminate; intuition (discriminate || lia).
Qed.

Lemma status_test (o : option Z) :
  (match o with Some 404 => true | _ => false end = true <-> o = Some 404)
  /\ (match o with Some 429 => true | _ => false end = true <-> o = Some 429)
  /\ (match o with Some 500 => true | _ => false end = true <-> o = Some 500)
  /\ (match o with Some 503 => true | _ => false end = true <-> o = Some 503).
Proof.
  destruct o as [code|].
  - rewrite status_is_404, status_is_429, status_is_500, status_is_503.
    rewrite !Z.eqb_eq. repeat split; congruence.
  - repeat split; discriminate.
Qed.

(** The classes, by the tests that define them. *)
Lemma classes_by_tests (e : Error.t) :
  (NotFound e
   <-> Error.status e = Some 404
       \/ includes_opt (Error.message e) "404" = true
       \/ includes_opt (Error.message e) "not found" = true)
  /\ (RateLimited e
      <-> ~ NotFound e
          /\ (Error.status e = Some 429
              \/ includes_opt (Error.message e) "429" = true
              \/ includes_opt (Error.message e) "quota" = true))
  /\ (ServerOverload e
      <-> ~ NotFound e /\ ~ RateLimited e
          /\ (Error.status e = Some 503
              \/ Error.status e = Some 500
              \/ includes_opt (Error.message e) "503" = true
              \/ includes_opt (Error.message e) "500" = true
              \/ includes_opt (Error.message e) "Internal error" = true)).
Proof.
  destruct (status_test (Error.status e)) as [S404 [S429 [S500 S503]]].
  assert (R : isRateLimit e = true
              <-> Error.status e = Some 429
                  \/ includes_opt (Error.message e) "429" = true
                  \/ includes_opt (Error.message e) "quota" = true).
  { unfold isRateLimit. rewrite !orb_true_iff, S429. tauto. }
  assert (S : isServerIssue e = true
              <-> Error.status e = Some 503
                  \/ Error.status e = Some 500
                  \/ includes_opt (Error.message e) "503" = true
                  \/ includes_opt (Error.message e) "500" = true
                  \/ includes_opt (Error.message e) "Internal error" = true).
  { unfold isServerIssue. rewrite !orb_true_iff, S500, S503. tauto. }
  assert (N : isNotFound e = true
              <-> Error.status e = Some 404
                  \/ includes_opt (Error.message e) "404" = true
                  \/ includes_opt (Error.message e) "not found" = true).
  { unfold isNotFound. rewrite !orb_true_iff, S404. tauto. }
  unfold NotFound, RateLimited, ServerOverload.
  rewrite <- R, <- S, <- N. rewrite <- !not_true_iff_false. tauto.
Qed.

(** C6, as amended.  With the default of three tries [runWithRetry] sends
    at most three requests.  The classes are those of its own tests: not
    found, tested first, is the status 404 or a message that holds [404] or
    [not found]; rate limit is the status 429 or a message that holds [429]
    or [quota]; server overload is the status 500 or 503 or a message that
    holds [500], [503] or [Internal error].  When the first two requests
    fail with a server overload and the third succeeds, exactly three are
    sent, after waits of 2000 ms and 4000 ms: the wait before the third is
    twice the wait before the second.  For rate-limit failures the waits
    are 3000 ms and 6000 ms, from a base of their own.  A not-found failure
    is rethrown at once: one request, no wait.  So is an error that passes
    none of the tests, such as one with the status 502 or 504. *)
Theorem retry_policy {T} (answers : nat -> Error.t + T) (w : World) :
  let outcome := runWithRetry (request answers) default_retries w in
  (requests (fst outcome) <= requests w + 3)%nat
  /\ (forall e1 e2 v,
        answers (requests w) = inl e1 ->
        answers (S (requests w)) = inl e2 ->
        answers (S (S (requests w))) = inr v ->
        ServerOverload e1 -> ServerOverload e2 ->
        outcome = ({| requests := requests w + 3;
                      slept := slept w ++ [2000; 4000] |}, inr v))
  /\ (forall e1 e2 v,
        answers (requests w) = inl e1 ->
        answers (S (requests w)) = inl e2 ->
        answers (S (S (requests w))) = inr v ->
        RateLimited e1 -> RateLimited e2 ->
        outcome = ({| requests := requests w + 3;
                      slept := slept w ++ [3000; 6000] |}, inr v))
  /\ (forall e,
        answers (requests w) = inl e ->
        NotFound e ->
        outcome = ({| requests := S (requests w); slept := slept w |}, inl e))
  /\ (forall e,
        answers (requests w) = inl e ->
        ~ NotFound e -> ~ RateLimited e -> ~ ServerOverload e ->
        outcome = ({| requests := S (requests w); slept := slept w |}, inl e))
  /\ (forall e,
        (NotFound e
         <-> Error.status e = Some 404
             \/ includes_opt (Error.message e) "404" = true
             \/ includes_opt (Error.message e) "not found" = true)
        /\ (RateLimited e
            <-> ~ NotFound e
                /\ (Error.status e = Some 429
                    \/ includes_opt (Error.message e) "429" = true
                    \/ includes_opt (Error.message e) "quota" = true))
        /\ (ServerOverload e
            <-> ~ NotFound e /\ ~ RateLimited e
                /\ (Error.status e = Some 503
                    \/ Error.status e = Some 500
                    \/ includes_opt (Error.message e) "503" = true
                    \/ includes_opt (Error.message e) "500" = true
                    \/ includes_opt (Error.message e) "Internal error" = true)))
  /\ (forall code,
        let e := {| Error.status := Some code; Error.message := None |} in
        (NotFound e <-> code = 404)
        /\ (RateLimited e <-> code = 429)
        /\ (ServerOverload e <-> code = 500 \/ code = 503)).
Proof.
  cbv zeta.
  split.
  { unfold runWithRetry, default_retries. change (Z.to_nat 3) with 3%nat.
    apply loop_requests_le. }
  split.
  { intros e1 e2 v A1 A2 A3 [N1 [L1 S1]] [N2 [L2 S2]].
    rewrite (two_failures_then_success answers w e1 e2 v A1 A2 A3 N1 N2).
    + now rewrite L1, L2.
    + now rewrite S1, orb_true_r.
    + now rewrite S2, orb_true_r. }
  split.
  { intros e1 e2 v A1 A2 A3 [N1 L1] [N2 L2].
    rewrite (two_failures_then_success answers w e1 e2 v A1 A2 A3 N1 N2).
    + now rewrite L1, L2.
    + now rewrite L1.
    + now rewrite L2. }
  split.
  { intros e A NF. unfold runWithRetry, default_retries.
    change (Z.to_nat 3) with 3%nat. now apply loop_not_found. }
  split.
  { intros e A NF NR NS. unfold runWithRetry, default_retries.
    change (Z.to_nat 3) with 3%nat.
    unfold NotFound, RateLimited, ServerOverload in *.
    destruct (isNotFound e) eqn:F; [now contradiction NF|].
    destruct (isRateLimit e) eqn:R; [exfalso; apply NR; now split|].
    destruct (isServerIssue e) eqn:S; [exfalso; apply NS; repeat split|].
    now apply loop_other. }
  split; [|exact classes_by_status].
  intros e. apply classes_by_tests.
Qed.

Lemma retry_policy_witness :
  ServerOverload SampleErrors.overloaded
  /\ RateLimited SampleErrors.quota
  /\ NotFound SampleErrors.missing
  /\ runWithRetry (request SampleErrors.twice_overloaded) default_retries start
     = ({| requests := 3; slept := [2000; 4000] |}, inr (Some (str "{}")))
  /\ runWithRetry (request SampleErrors.twice_limited) default_retries start
     = ({| requests := 3; slept := [3000; 6000] |}, inr (Some (str "{}")))
  /\ runWithRetry (request SampleErrors.unknown_model) default_retries start
     = ({| requests := 1; slept := [] |}, inl SampleErrors.missing).
Proof.
  assert (C : ServerOverload SampleErrors.overloaded)
    by (repeat split; vm_compute; reflexivity).
  assert (L : RateLimited SampleErrors.quota)
    by (repeat split; vm_compute; reflexivity).
  assert (N : NotFound SampleErrors.missing) by (vm_compute; reflexivity).
  split; [exact C|]. split; [exact L|]. split; [exact N|]. split; [|split].
  - exact (proj1 (proj2 (retry_policy SampleErrors.twice_overloaded start))
             SampleErrors.overloaded SampleErrors.overloaded (Some (str "{}"))
             eq_refl eq_refl eq_refl C C).
  - exact (proj1 (proj2 (proj2 (retry_policy SampleErrors.twice_limited start)))
             SampleErrors.quota SampleErrors.quota (Some (str "{}"))
             eq_refl eq_refl eq_refl L L).
  - exact (proj1 (proj2 (proj2 (proj2
             (retry_policy SampleErrors.unknown_model start))))
             SampleErrors.missing eq_refl N).
Defined.

(** C6 as stated fails.  An error with the status 502 is a server error of
    the form 5xx, and a call that fails with it twice and would succeed at
    the third attempt is attempted once: the error is rethrown without a
    wait.  The same happens to an overload with the status 503 whose message
    holds [not found], which the code takes for a missing model. *)
Lemma server_errors_not_retried :
  Error.status SampleErrors.bad_gateway = Some 502
  /\ 500 <= 502 <= 599
  /\ SampleErrors.twice_bad_gateway 2 = inr (Some (str "{}"))
  /\ runWithRetry (request SampleErrors.twice_bad_gateway) default_retries start
     = ({| requests := 1; slept := [] |}, inl SampleErrors.bad_gateway)
  /\ Error.status SampleErrors.overloaded_not_found = Some 503
  /\ runWithRetry (request SampleErrors.twice_overloaded_not_found)
       default_retries start
     = ({| requests := 1; slept := [] |}, inl SampleErrors.overloaded_not_found).
Proof.
  split; [reflexivity|]. split; [lia|]. split; [reflexivity|].
  split; [vm_compute; reflexivity|]. split; [reflexivity|].
  vm_compute. reflexivity.
Qed.

(** When all three tries fail with errors that are retried, the last error
    reaches the caller after three requests. *)
Lemma three_failures {T} (answers : nat -> Error.t + T) (w : World)
  (e1 e2 e3 : Error.t) :
  answers (requests w) = inl e1 ->
  answers (S (requests w)) = inl e2 ->
  answers (S (S (requests w))) = inl e3 ->
  isNotFound e1 = false -> isNotFound e2 = false ->
  (isRateLimit e1 || isServerIssue e1) = true ->
  (isRateLimit e2 || isServerIssue e2) = true ->
  snd (runWithRetry (request answers) default_retries w) = inl e3
  /\ requests (fst (runWithRetry (request answers) default_retries w))
     = (requests w + 3)%nat.
Proof.
  intros A1 A2 A3 N1 N2 R1 R2.
  unfold runWithRetry, default_retries.
  change (Z.to_nat 3) with 3%nat.
  rewrite (loop_retry answers 3 0 2 w e1 A1 N1 R1) by lia.
  erewrite (loop_retry answers 3 (0 + 1) 1 _ e2); [|exact A2|exact N2|exact R2|lia].
  erewrite (loop_last answers 3 _ 0 _ e3); [|exact A3|lia].
  cbn [requests slept fst snd]. split; [reflexivity|lia].
Qed.

End RetryFacts.

(** ** The consolidation pass *)

Module PassFacts.

Import Gemini App Pass.

Lemma slice_from_skipn {T} (n : nat) (l : list T) :
  Arr.slice_from n l = skipn n l.
Proof.
  unfold Arr.slice_from, Arr.slice.
  rewrite Nat.min_id.
  destruct (Nat.le_gt_cases n (length l)) as [L|L].
  - rewrite (Nat.min_l n) by exact L.
    apply firstn_all2. rewrite length_skipn. lia.
  - rewrite (Nat.min_r n) by lia.
    rewrite Nat.sub_diag, skipn_all. simpl.
    symmetry. apply skipn_all2. lia.
Qed.

Lemma slice_firstn {T} (n : nat) (l : list T) :
  Arr.slice 0 n l = firstn n l.
Proof.
  unfold Arr.slice. simpl. rewrite Nat.sub_0_r.
  destruct (Nat.le_gt_cases n (length l)) as [L|L].
  - now rewrite Nat.min_l.
  - rewrite Nat.min_r by lia.
    rewrite firstn_all. symmetry. apply firstn_all2. lia.
Qed.

(** The slice [[a, b)] of a stream, for [a <= b] inside it. *)
Lemma slice_skipn_firstn {T} (a b : nat) (l : list T) :
  (a <= b <= length l)%nat ->
  Arr.slice a b l = skipn a (firstn b l).
Proof.
  intros [Hab Hb]. unfold Arr.slice.
  rewrite (Nat.min_l b), (Nat.min_l a) by lia.
  rewrite skipn_firstn_comm. reflexivity.
Qed.

(** The extraction call never throws. *)
Lemma generateEntryFromChat_returns parse service key w :
  exists w' d, generateEntryFromChat parse service key w = (w', inr d).
Proof.
  unfold generateEntryFromChat.
  destruct (negb (truthy key)); [now eexists; eexists|].
  unfold try_catch.
  destruct (attempt parse service MODEL_NAME w) as [w1 [e1|d1]];
    [|now eexists; eexists].
  destruct (attempt parse service FALLBACK_MODEL w1) as [w2 [e2|d2]];
    now eexists; eexists.
Qed.

Lemma extraction_returns env w :
  exists w' d, extraction env w = (w', inr d).
Proof. apply generateEntryFromChat_returns. Qed.

(** What the materialisation of an object leaves behind. *)
Lemma materialize_JObj env s0 r (s : State) :
  materialize env (newInput s0) (media s0) (JObj r) s
  = (set_storage (stored env s0 r (storage s)) s, inr tt).
Proof.
  unfold materialize, stored, entry.
  unfold savesEntry, events, tasks, transactions, finalContent, batchId.
  destruct s as [msgs pc auto st w errs exts susp].
  remember (shouldCreateEntry_of r (media s0)) as sh eqn:Esh.
  remember (finalContent_of r (rawUserText_of (newInput s0))) as fc eqn:Efc.
  remember (finalTitle_of env r (rawUserText_of (newInput s0)) (media s0))
    as ft eqn:Eft.
  clear Esh Efc Eft.
  destruct r as [hc ti co tg ce tk tx]. cbn [ExtractionResult.calendarEvents
    ExtractionResult.tasks ExtractionResult.transactions ExtractionResult.tags
    ExtractionResult.hasContent ExtractionResult.title ExtractionResult.content].
  destruct ce as [[|c1 ce]|]; destruct tk as [[|k1 tk]|];
    destruct tx as [[|x1 tx]|];
    destruct sh; cbn [andb];
    destruct (truthy fc || (0 <? Z.of_nat (length (media s0)))); reflexivity.
Qed.

Lemma pending_guard (s : State) :
  (Z.of_nat (length (personalMessages s)) - Z.of_nat (processedCount s) <=? 0)
  = negb (processedCount s <? length (personalMessages s))%nat.
Proof.
  destruct (Nat.ltb_spec (processedCount s) (length (personalMessages s)));
    simpl; [apply Z.leb_gt|apply Z.leb_le]; lia.
Qed.

(** With nothing new in the stream the pass returns at its guard. *)
Lemma handleAutoSync_idle env (s : State) :
  ~ pending s -> handleAutoSync env s = (s, inr tt).
Proof.
  unfold pending, handleAutoSync. intros NP. rewrite pending_guard.
  destruct (Nat.ltb_spec (processedCount s) (length (personalMessages s)));
    [contradiction|reflexivity].
Qed.

(** A pass with something new, by what extraction returned. *)
Lemma handleAutoSync_pending env (s : State) w' d :
  pending s ->
  extraction env (world s) = (w', inr d) ->
  handleAutoSync env s
  = ({| personalMessages := personalMessages s;
        processedCount := length (personalMessages s);
        isAutoSaving := false;
        storage :=
          match d with
          | JObj r => stored env s r (storage s)
          | JNull => storage s
          end;
        world := w';
        console_errors :=
          match d with
          | JObj _ => console_errors s
          | JNull => console_errors s
                     ++ [Error.make "Cannot read properties of null"]
          end;
        extractions :=
          extractions s
          ++ [(newInput s, context_of (personalMessages s) (processedCount s))];
        suspended := suspended s |},
     inr tt).
Proof.
  unfold pending, extraction. intros P E.
  unfold handleAutoSync. rewrite pending_guard.
  apply Nat.ltb_lt in P. rewrite P. cbn [negb].
  unfold bind at 1, exec at 1, try_finally, try_catch, sync_body.
  unfold bind at 1, note_extraction, exec at 1.
  unfold bind at 1, zoom.
  cbn [world set_processedCount setIsAutoSaving personalMessages processedCount
       isAutoSaving storage console_errors extractions].
  rewrite E. cbn [set_world personalMessages processedCount isAutoSaving storage
                  console_errors extractions world].
  destruct d as [|r].
  - reflexivity.
  - change (newInput_of (personalMessages s) (processedCount s)) with (newInput s).
    change (collectMedia (newInput s)) with (media s).
    rewrite (materialize_JObj env s r). reflexivity.
Qed.

(** *** The cursor *)

Lemma pending_dec (s : State) : {pending s} + {~ pending s}.
Proof. unfold pending. apply lt_dec. Qed.

(** What a flush does to the stream, the cursor and the record of
    extraction calls, whatever extraction returns. *)
Lemma flush_cursor env (s : State) :
  let s' := fst (handleAutoSync env s) in
  personalMessages s' = personalMessages s
  /\ (pending s ->
      processedCount s' = length (personalMessages s)
      /\ extractions s'
         = extractions s
           ++ [(newInput s, context_of (personalMessages s) (processedCount s))])
  /\ (~ pending s -> s' = s).
Proof.
  cbv zeta. destruct (pending_dec s) as [P|NP].
  - destruct (extraction_returns env (world s)) as [w' [d E]].
    rewrite (handleAutoSync_pending env s w' d P E). cbn [fst].
    split; [reflexivity|]. split.
    + intros _. split; reflexivity.
    + intros NP. contradiction.
  - rewrite (handleAutoSync_idle env s NP). cbn [fst].
    split; [reflexivity|]. split.
    + intros P. contradiction.
    + reflexivity.
Qed.

Lemma run_app (evs1 evs2 : list Event) (s : State) :
  run (evs1 ++ evs2) s = run evs2 (run evs1 s).
Proof. unfold run. apply fold_left_app. Qed.

Lemma run_arrivals (ms : list ChatMessage.t) (s : State) :
  personalMessages (run (arrivals ms) s) = personalMessages s ++ ms
  /\ processedCount (run (arrivals ms) s) = processedCount s
  /\ extractions (run (arrivals ms) s) = extractions s.
Proof.
  revert s. induction ms as [|m r IH]; intros s.
  - simpl. now rewrite app_nil_r.
  - unfold arrivals. simpl. fold (arrivals r).
    destruct (IH (appendMessage m s)) as [A [B C]].
    change (run (arrivals r) (step (Append m) s))
      with (run (arrivals r) (appendMessage m s)).
    rewrite A, B, C. simpl. now rewrite <- app_assoc.
Qed.

(** *** The two halves of a pass *)

(** The part of a pass before its [await]: the cursor moves to the end of
    the stream and the call is recorded, before anything else can happen. *)
Lemma begin_of_cursor (messages : list ChatMessage.t) env (s : State) :
  let s' := handleAutoSync_begin_of messages env s in
  personalMessages s' = personalMessages s
  /\ storage s' = storage s
  /\ ((processedCount s < length messages)%nat ->
      processedCount s' = length messages
      /\ extractions s'
         = extractions s
           ++ [(newInput_of messages (processedCount s),
                context_of messages (processedCount s))]
      /\ suspended s'
         = suspended s
           ++ [{| its_env := env;
                  its_newInput := newInput_of messages (processedCount s);
                  its_collectedMedia :=
                    collectMedia (newInput_of messages (processedCount s)) |}])
  /\ (~ (processedCount s < length messages)%nat -> s' = s).
Proof.
  cbv zeta. unfold handleAutoSync_begin_of.
  destruct (Z.leb_spec (Z.of_nat (length messages)
                        - Z.of_nat (processedCount s)) 0) as [L|L].
  - split; [reflexivity|]. split; [reflexivity|]. split.
    + intros P. lia.
    + reflexivity.
  - split; [reflexivity|]. split; [reflexivity|]. split.
    + intros _. repeat split.
    + intros NP. lia.
Qed.

Lemma begin_cursor env (s : State) :
  let s' := handleAutoSync_begin env s in
  personalMessages s' = personalMessages s
  /\ storage s' = storage s
  /\ (pending s ->
      processedCount s' = length (personalMessages s)
      /\ extractions s'
         = extractions s
           ++ [(newInput s, context_of (personalMessages s) (processedCount s))]
      /\ suspended s'
         = suspended s
           ++ [{| its_env := env; its_newInput := newInput s;
                  its_collectedMedia := media s |}])
  /\ (~ pending s -> s' = s).
Proof. exact (begin_of_cursor (personalMessages s) env s). Qed.

(** Materialisation only writes to the store, and not to the chat
    histories. *)
Lemma materialize_frame env newInput collectedMedia d (s : State) :
  exists st r,
    materialize env newInput collectedMedia d s = (set_storage st s, r)
    /\ Storage.getChatHistory PERSONAL st
       = Storage.getChatHistory PERSONAL (storage s).
Proof.
  destruct s as [msgs pc auto st w errs exts susp].
  destruct d as [|r].
  - exists st. eexists. split; reflexivity.
  - unfold materialize.
    remember (shouldCreateEntry_of r collectedMedia) as sh eqn:Esh.
    remember (finalContent_of r (rawUserText_of newInput)) as fc eqn:Efc.
    remember (finalTitle_of env r (rawUserText_of newInput) collectedMedia)
      as ft eqn:Eft.
    clear Esh Efc Eft.
    destruct r as [hc ti co tg ce tk tx]. cbn [ExtractionResult.calendarEvents
      ExtractionResult.tasks ExtractionResult.transactions ExtractionResult.tags
      ExtractionResult.hasContent ExtractionResult.title ExtractionResult.content].
    destruct ce as [[|c1 ce]|]; destruct tk as [[|k1 tk]|];
      destruct tx as [[|x1 tx]|];
      destruct sh;
      destruct (truthy fc || (0 <? Z.of_nat (length collectedMedia)));
      eexists; eexists; split; reflexivity.
Qed.

(** The part of a pass after its [await] leaves the stream, the cursor,
    the record of calls and the stored chat as they are. *)
Lemma rest_frame (p : Suspended) (s : State) :
  let s' := fst (handleAutoSync_rest p s) in
  personalMessages s' = personalMessages s
  /\ processedCount s' = processedCount s
  /\ extractions s' = extractions s
  /\ suspended s' = suspended s
  /\ Storage.getChatHistory PERSONAL (storage s')
     = Storage.getChatHistory PERSONAL (storage s).
Proof.
  cbv zeta. unfold handleAutoSync_rest, try_finally, try_catch, bind, zoom.
  destruct (generateEntryFromChat_returns (JSON_parse (its_env p))
              (service (its_env p)) (apiKey (its_env p)) (world s))
    as [w' [d E]].
  rewrite E.
  destruct (materialize_frame (its_env p) (its_newInput p)
              (its_collectedMedia p) d (set_world w' s)) as [st [r [Mt K]]].
  rewrite Mt. destruct r as [e|[]]; cbn; repeat split; exact K.
Qed.

Lemma resume_cursor (k : nat) (s : State) :
  let s' := handleAutoSync_resume k s in
  personalMessages s' = personalMessages s
  /\ processedCount s' = processedCount s
  /\ extractions s' = extractions s
  /\ Storage.getChatHistory PERSONAL (storage s')
     = Storage.getChatHistory PERSONAL (storage s).
Proof.
  cbv zeta. unfold handleAutoSync_resume.
  destruct (nth_error (suspended s) k) as [p|]; [|repeat split].
  destruct (rest_frame p
              (set_suspended (firstn k (suspended s) ++ skipn (S k) (suspended s)) s))
    as [A [B [C [_ D]]]].
  rewrite A, B, C, D. repeat split.
Qed.

(** A pass whose call returns before anything else happens is its first
    half followed by its second half. *)
Lemma flush_in_two_steps env (s : State) :
  run [Begin env; Resume (length (suspended s))] s = run [Flush env] s.
Proof.
  unfold run. cbn [fold_left step].
  destruct (begin_cursor env s) as [_ [_ [Pe NPe]]].
  destruct (pending_dec s) as [P|NP].
  - destruct (Pe P) as [_ [_ Su]].
    unfold handleAutoSync_resume. rewrite Su.
    rewrite nth_error_app2, Nat.sub_diag by lia. cbn [nth_error].
    rewrite firstn_app, Nat.sub_diag, firstn_all.
    rewrite skipn_app, skipn_all2 by lia.
    replace (S (length (suspended s)) - length (suspended s))%nat with 1%nat
      by lia.
    cbn [firstn skipn app]. rewrite !app_nil_r.
    unfold handleAutoSync_begin, handleAutoSync_begin_of, handleAutoSync.
    rewrite pending_guard.
    assert (L := P). apply Nat.ltb_lt in L. rewrite L. cbn [negb].
    reflexivity.
  - rewrite (NPe NP). unfold handleAutoSync_resume.
    assert (N : nth_error (suspended s) (length (suspended s)) = None)
      by (apply nth_error_None; lia).
    rewrite N. now rewrite (handleAutoSync_idle env s NP).
Qed.

(** *** The cursor never moves back *)

Lemma step_messages (ev : Event) (s : State) :
  personalMessages (step ev s)
  = match ev with
    | Append m => personalMessages s ++ [m]
    | Replace msgs => msgs
    | _ => personalMessages s
    end.
Proof.
  destruct ev as [m|msgs|env|env|messages env|k]; try reflexivity.
  - apply (flush_cursor env s).
  - apply (begin_cursor env s).
  - apply (begin_of_cursor messages env s).
  - apply (resume_cursor k s).
Qed.

(** No event moves the cursor back, whatever it writes. *)
Lemma step_never_back (ev : Event) (s : State) :
  (processedCount s <= processedCount (step ev s))%nat.
Proof.
  destruct ev as [m|msgs|env|env|messages env|k]; cbn [step].
  - apply Nat.le_refl.
  - apply Nat.le_refl.
  - destruct (flush_cursor env s) as [_ [P NP]].
    destruct (pending_dec s) as [H|H].
    + destruct (P H) as [Pc _]. rewrite Pc. unfold pending in H. lia.
    + rewrite (NP H). lia.
  - destruct (begin_cursor env s) as [_ [_ [P NP]]].
    destruct (pending_dec s) as [H|H].
    + destruct (P H) as [Pc _]. rewrite Pc. unfold pending in H. lia.
    + rewrite (NP H). lia.
  - destruct (begin_of_cursor messages env s) as [_ [_ [P NP]]].
    destruct (lt_dec (processedCount s) (length messages)) as [H|H].
    + destruct (P H) as [Pc _]. rewrite Pc. lia.
    + rewrite (NP H). lia.
  - destruct (resume_cursor k s) as [_ [Pc _]]. rewrite Pc. lia.
Qed.

Lemma run_never_back (evs : list Event) (s : State) :
  (processedCount s <= processedCount (run evs s))%nat.
Proof.
  revert s. induction evs as [|ev r IH]; intros s; [apply Nat.le_refl|].
  change (run (ev :: r) s) with (run r (step ev s)).
  pose proof (step_never_back ev s). pose proof (IH (step ev s)). lia.
Qed.

(** An event whose write extends the stream keeps the cursor inside it. *)
Lemma step_cursor (ev : Event) (s : State) :
  cursor_ok s -> extends ev s -> cursor_ok (step ev s).
Proof.
  unfold cursor_ok. intros C X.
  assert (B : forall env,
            (processedCount (handleAutoSync_begin env s)
             <= length (personalMessages (handleAutoSync_begin env s)))%nat).
  { intros env. destruct (begin_cursor env s) as [M [_ [P NP]]].
    destruct (pending_dec s) as [H|H].
    + destruct (P H) as [Pc _]. rewrite M, Pc. lia.
    + rewrite (NP H). lia. }
  destruct ev as [m|msgs|env|env|messages env|k]; cbn [step].
  - simpl. rewrite length_app. simpl. lia.
  - destruct X as [ext X]. subst msgs. simpl. rewrite length_app. lia.
  - destruct (flush_cursor env s) as [M [P NP]].
    destruct (pending_dec s) as [H|H].
    + destruct (P H) as [Pc _]. rewrite M, Pc. lia.
    + rewrite (NP H). lia.
  - apply B.
  - simpl in X. subst messages. apply B.
  - destruct (resume_cursor k s) as [M [Pc _]]. rewrite M, Pc. lia.
Qed.

Lemma growing_app (evs1 evs2 : list Event) (s : State) :
  growing (evs1 ++ evs2) s <-> growing evs1 s /\ growing evs2 (run evs1 s).
Proof.
  revert s. induction evs1 as [|ev r IH]; intros s.
  - simpl. tauto.
  - change (run (ev :: r) s) with (run r (step ev s)).
    simpl. rewrite IH. tauto.
Qed.

Lemma run_cursor (evs : list Event) (s : State) :
  cursor_ok s -> growing evs s -> cursor_ok (run evs s).
Proof.
  revert s. induction evs as [|ev r IH]; intros s C G.
  - exact C.
  - destruct G as [X G].
    change (run (ev :: r) s) with (run r (step ev s)).
    apply IH; [now apply step_cursor|exact G].
Qed.

(** Along a run whose writes all extend the stream, with passes in one
    step or in two and messages arriving in between, the cursor never
    decreases and stays between 0 and the length of the stream. *)
Lemma cursor_in_growing_runs (evs1 evs2 : list Event) (s : State) :
  cursor_ok s ->
  growing (evs1 ++ evs2) s ->
  let earlier := run evs1 s in
  let later := run (evs1 ++ evs2) s in
  (0 <= processedCount earlier)%nat
  /\ (processedCount earlier <= processedCount later)%nat
  /\ (processedCount later <= length (personalMessages later))%nat.
Proof.
  intros C G. cbv zeta. rewrite run_app.
  split; [lia|]. split; [apply run_never_back|].
  rewrite <- run_app. now apply run_cursor.
Qed.

(** After mounting, the cursor is at the end of the stored chat. *)
Lemma mount_cursor_ok (st : Storage.t) : cursor_ok (mount st).
Proof. unfold cursor_ok, mount. simpl. lia. Qed.

(** Runs of arrivals and of passes over the stream as it is are
    growing. *)
Lemma growing_without_replace (evs : list Event) (s : State) :
  (forall msgs, ~ In (Replace msgs) evs) ->
  (forall messages env, ~ In (BeginOf messages env) evs) ->
  growing evs s.
Proof.
  revert s. induction evs as [|ev r IH]; intros s N N'; [exact I|].
  split.
  - destruct ev as [m|msgs|env|env|messages env|k]; try exact I.
    + exfalso. apply (N msgs). now left.
    + exfalso. apply (N' messages env). now left.
  - apply IH.
    + intros msgs C. apply (N msgs). now right.
    + intros messages env C. apply (N' messages env). now right.
Qed.

(** *** No message twice, none skipped, while the stream grows *)

Lemma skipn_firstn_skipn {T} (a b : nat) (l : list T) :
  (a <= b <= length l)%nat ->
  skipn a (firstn b l) ++ skipn b l = skipn a l.
Proof.
  intros [Hab Hb].
  rewrite <- (firstn_skipn b l) at 3.
  rewrite skipn_app, length_firstn, Nat.min_l by exact Hb.
  replace (a - b)%nat with 0%nat by lia. reflexivity.
Qed.

Lemma slice_prefix {T} (a b : nat) (l ext : list T) :
  (a <= b <= length l)%nat ->
  Arr.slice a b (l ++ ext) = Arr.slice a b l.
Proof.
  intros H. rewrite !slice_skipn_firstn.
  - rewrite firstn_app. replace (b - length l)%nat with 0%nat by lia.
    simpl. now rewrite app_nil_r.
  - exact H.
  - rewrite length_app. lia.
Qed.

(** What a pass hands to extraction when it starts, in one step or as the
    first of two. *)
Lemma pass_takes_the_rest (s s' : State) :
  cursor_ok s ->
  personalMessages s' = personalMessages s ->
  processedCount s' = length (personalMessages s) ->
  forall a, (a <= processedCount s)%nat ->
  Arr.slice a (processedCount s) (personalMessages s) ++ newInput s
  = Arr.slice a (processedCount s') (personalMessages s').
Proof.
  unfold cursor_ok. intros C M Pc a La. rewrite M, Pc.
  unfold newInput, newInput_of. rewrite slice_from_skipn.
  rewrite !slice_skipn_firstn by lia.
  rewrite firstn_all. apply skipn_firstn_skipn. lia.
Qed.

(** Along a run whose writes all extend the stream, the new inputs handed
    to extraction, put end to end, are the messages between the cursor at
    the start and the cursor at the end: a message that arrives while a
    pass waits for its call is in the new input of the next pass. *)
Lemma run_partition (evs : list Event) (s : State) :
  cursor_ok s ->
  growing evs s ->
  concat (map fst (extractions (run evs s)))
  = concat (map fst (extractions s))
    ++ Arr.slice (processedCount s) (processedCount (run evs s))
                 (personalMessages (run evs s)).
Proof.
  intros C. induction evs as [|ev r IH] using rev_ind; intros G.
  - simpl. unfold Arr.slice. rewrite Nat.sub_diag. simpl.
    now rewrite app_nil_r.
  - apply growing_app in G. destruct G as [G [X _]].
    specialize (IH G).
    rewrite run_app. cbn [run fold_left].
    pose proof (run_cursor r s C G) as C1.
    pose proof (run_never_back r s) as L1.
    set (s1 := run r s) in *.
    assert (U : forall ext,
              Arr.slice (processedCount s) (processedCount s1)
                        (personalMessages s1 ++ ext)
              = Arr.slice (processedCount s) (processedCount s1)
                          (personalMessages s1))
      by (intros ext; apply slice_prefix; unfold cursor_ok in C1; lia).
    assert (B : forall env,
              concat (map fst (extractions (handleAutoSync_begin env s1)))
              = concat (map fst (extractions s))
                ++ Arr.slice (processedCount s)
                     (processedCount (handleAutoSync_begin env s1))
                     (personalMessages (handleAutoSync_begin env s1))).
    { intros env. destruct (begin_cursor env s1) as [M [_ [P NP]]].
      destruct (pending_dec s1) as [H|H].
      * destruct (P H) as [Pc [Ex _]]. rewrite Ex.
        rewrite map_app, concat_app, IH. simpl. rewrite app_nil_r.
        rewrite <- app_assoc. f_equal.
        now apply pass_takes_the_rest.
      * rewrite (NP H). exact IH. }
    destruct ev as [m|msgs|env|env|messages env|k]; cbn [step].
    + simpl. rewrite IH. f_equal. symmetry. apply U.
    + destruct X as [ext X]. subst msgs. simpl. rewrite IH. f_equal.
      symmetry. apply U.
    + destruct (flush_cursor env s1) as [M [P NP]].
      destruct (pending_dec s1) as [H|H].
      * destruct (P H) as [Pc Ex]. rewrite Ex.
        rewrite map_app, concat_app, IH. simpl. rewrite app_nil_r.
        rewrite <- app_assoc. f_equal.
        now apply pass_takes_the_rest.
      * rewrite (NP H). exact IH.
    + apply B.
    + simpl in X. subst messages. apply B.
    + destruct (resume_cursor k s1) as [M [Pc [Ex _]]].
      now rewrite M, Pc, Ex.
Qed.

Lemma run_flush (ms : list ChatMessage.t) env (s : State) :
  run (arrivals ms ++ [Flush env]) s
  = fst (handleAutoSync env (run (arrivals ms) s)).
Proof. rewrite run_app. reflexivity. Qed.

(** A flush after the messages [ms] arrived: where the cursor lands and
    the call it records. *)
Lemma arrivals_then_flush (ms : list ChatMessage.t) env (s : State) :
  cursor_ok s ->
  let s' := run (arrivals ms ++ [Flush env]) s in
  let stream := personalMessages s ++ ms in
  personalMessages s' = stream
  /\ processedCount s' = length stream
  /\ extractions s'
     = extractions s
       ++ (if (processedCount s <? length stream)%nat
           then [(skipn (processedCount s) stream,
                  firstn (processedCount s) stream)]
           else []).
Proof.
  intros C. cbv zeta. rewrite run_flush.
  destruct (run_arrivals ms s) as [A [B E]].
  set (s1 := run (arrivals ms) s) in *.
  assert (C1 : cursor_ok s1).
  { unfold cursor_ok in *. rewrite A, B, length_app. lia. }
  destruct (flush_cursor env s1) as [M [P NP]].
  rewrite M, A. split; [reflexivity|].
  destruct (pending_dec s1) as [H|H].
  - destruct (P H) as [Pc Ex]. rewrite Pc, Ex, A, E. split; [reflexivity|].
    unfold pending in H. rewrite A, B in H.
    apply Nat.ltb_lt in H. rewrite H.
    unfold newInput, newInput_of, context_of.
    now rewrite slice_from_skipn, slice_firstn, A, B.
  - rewrite (NP H). unfold pending, cursor_ok in *. rewrite A, B in *.
    split; [lia|]. rewrite E.
    assert (F : (processedCount s <? length (personalMessages s ++ ms))%nat = false)
      by (apply Nat.ltb_ge; lia).
    rewrite F. now rewrite app_nil_r.
Qed.

Lemma two_slices {T} (p m2 m3 : list T) :
  (Arr.slice (length p) (length (p ++ m2)) (p ++ m2 ++ m3),
   Arr.slice 0 (length p) (p ++ m2 ++ m3))
  = (skipn (length p) (p ++ m2), firstn (length p) (p ++ m2)).
Proof.
  f_equal.
  - rewrite app_assoc, slice_prefix by (rewrite length_app; lia).
    rewrite slice_skipn_firstn by (rewrite length_app; lia).
    now rewrite firstn_all.
  - rewrite slice_prefix by lia.
    rewrite slice_firstn, firstn_all.
    rewrite firstn_app, Nat.sub_diag, firstn_all. simpl.
    now rewrite app_nil_r.
Qed.

(** Two consecutive flushes of a stream that only grows, the first when the
    cursor reaches [a] and the second when it reaches [b], messages arriving
    before, between and after them: the second flush hands to extraction
    exactly the messages at positions [[a, b)] of the stream, with the
    messages before [a] as context, and makes no call when [a = b]. *)
Lemma two_flushes_of_a_growing_stream (s : State) (env1 env2 : Env)
  (ms1 ms2 ms3 : list ChatMessage.t) :
  cursor_ok s ->
  let stream := personalMessages s ++ ms1 ++ ms2 ++ ms3 in
  let a := length (personalMessages s ++ ms1) in
  let b := length (personalMessages s ++ ms1 ++ ms2) in
  let s1 := run (arrivals ms1 ++ [Flush env1]) s in
  let s2 := run (arrivals ms2 ++ [Flush env2]) s1 in
  let s3 := run (arrivals ms3) s2 in
  personalMessages s3 = stream
  /\ processedCount s1 = a
  /\ processedCount s2 = b
  /\ processedCount s3 = b
  /\ extractions s2
     = extractions s1
       ++ (if (a <? b)%nat
           then [(Arr.slice a b stream, Arr.slice 0 a stream)]
           else []).
Proof.
  intros C. cbv zeta.
  destruct (arrivals_then_flush ms1 env1 s C) as [M1 [P1 E1]].
  set (s1 := run (arrivals ms1 ++ [Flush env1]) s) in *.
  assert (C1 : cursor_ok s1) by (unfold cursor_ok; rewrite P1, M1; lia).
  destruct (arrivals_then_flush ms2 env2 s1 C1) as [M2 [P2 E2]].
  set (s2 := run (arrivals ms2 ++ [Flush env2]) s1) in *.
  destruct (run_arrivals ms3 s2) as [M3 [P3 _]].
  rewrite M3, P3, P2, M2, M1, <- !app_assoc.
  repeat split; try reflexivity.
  - exact P1.
  - rewrite E2, P1, M1. f_equal.
    rewrite (app_assoc (personalMessages s) ms1 ms2).
    rewrite (app_assoc (personalMessages s) ms1 (ms2 ++ ms3)).
    rewrite (two_slices (personalMessages s ++ ms1) ms2 ms3).
    destruct (length (personalMessages s ++ ms1)
              <? length ((personalMessages s ++ ms1) ++ ms2))%nat;
      reflexivity.
Qed.

(** A message that arrives while a pass waits for its call is not in that
    pass's new input, which was fixed when the cursor moved: the next pass
    takes it. *)
Lemma arrival_during_the_call env1 env2 (m : ChatMessage.t) (s : State) :
  cursor_ok s ->
  pending s ->
  let k := length (suspended s) in
  let s' := run [Begin env1; Append m; Resume k; Flush env2] s in
  personalMessages s' = personalMessages s ++ [m]
  /\ processedCount s' = length (personalMessages s ++ [m])
  /\ extractions s'
     = extractions s
       ++ [(newInput s, context_of (personalMessages s) (processedCount s));
           ([m], personalMessages s)]
  /\ nth_error (suspended (run [Begin env1; Append m] s)) k
     = Some {| its_env := env1; its_newInput := newInput s;
               its_collectedMedia := media s |}.
Proof.
  intros C P. cbv zeta. unfold run. cbn [fold_left step].
  destruct (begin_cursor env1 s) as [M0 [_ [Pe _]]].
  destruct (Pe P) as [Pc0 [Ex0 Su0]].
  set (s0 := handleAutoSync_begin env1 s) in *.
  set (s1 := appendMessage m s0).
  assert (M1 : personalMessages s1 = personalMessages s ++ [m])
    by (unfold s1; simpl; now rewrite M0).
  assert (Pc1 : processedCount s1 = length (personalMessages s)) by exact Pc0.
  assert (Ex1 : extractions s1 = extractions s0) by reflexivity.
  assert (Su1 : suspended s1 = suspended s0) by reflexivity.
  destruct (resume_cursor (length (suspended s)) s1) as [M2 [Pc2 [Ex2 _]]].
  set (s2 := handleAutoSync_resume (length (suspended s)) s1) in *.
  assert (P2 : pending s2).
  { unfold pending. rewrite M2, Pc2, M1, Pc1, length_app. simpl. lia. }
  destruct (flush_cursor env2 s2) as [M3 [Pf _]].
  destruct (Pf P2) as [Pc3 Ex3].
  rewrite M3, Pc3, Ex3, M2, Ex2, Ex1, Ex0, M1, <- app_assoc.
  split; [reflexivity|]. split; [reflexivity|]. split.
  - simpl. unfold newInput at 2, newInput_of, context_of at 2.
    rewrite M2, Pc2, M1, Pc1.
    rewrite slice_from_skipn, slice_firstn.
    rewrite skipn_app, skipn_all, Nat.sub_diag.
    rewrite firstn_app, firstn_all, Nat.sub_diag. simpl.
    now rewrite app_nil_r.
  - rewrite Su1, Su0. rewrite nth_error_app2, Nat.sub_diag by lia.
    reflexivity.
Qed.

(** *** A reply that arrives late *)

(** C9.  The cursor can pass the end of the stream.  The chat view writes a
    reply after the history it captured when the message was sent.  In the
    sample the user sends a message, leaves the chat tab, which runs a pass,
    comes back to a new chat view and sends a second message; the second
    reply arrives, a pass runs and sets the cursor to 3; then the first
    reply arrives and the view that sent the first message writes its
    history of one message followed by that reply.  The stream now has 2
    messages, on the screen and in the store, and the cursor is 3.  No
    event moved the cursor back: the stream was made shorter. *)
Theorem cursor_overtakes_stream :
  let s := SampleRace.late_reply in
  let before :=
    run (Append SampleRace.u1 :: SampleRace.meanwhile) SampleRace.start in
  cursor_ok SampleRace.start
  /\ snd (ChatInterface.handleSend SampleRace.secondSend []
            SampleRace.secondView SampleRace.back_on_chat)
     = run [Append SampleRace.u2;
            Replace [SampleRace.u1; SampleRace.u2; SampleRace.a2]]
           SampleRace.back_on_chat
  /\ s = run [Replace [SampleRace.u1; SampleRace.a1]] before
  /\ personalMessages before = [SampleRace.u1; SampleRace.u2; SampleRace.a2]
  /\ processedCount before = 3%nat
  /\ cursor_ok before
  /\ personalMessages s = [SampleRace.u1; SampleRace.a1]
  /\ Storage.getChatHistory PERSONAL (storage s)
     = [SampleRace.u1; SampleRace.a1]
  /\ processedCount s = 3%nat
  /\ ~ cursor_ok s.
Proof.
  cbv zeta.
  assert (B : processedCount
                (run (Append SampleRace.u1 :: SampleRace.meanwhile)
                     SampleRace.start) = 3%nat)
    by (vm_compute; reflexivity).
  assert (Bm : personalMessages
                 (run (Append SampleRace.u1 :: SampleRace.meanwhile)
                      SampleRace.start)
               = [SampleRace.u1; SampleRace.u2; SampleRace.a2])
    by (vm_compute; reflexivity).
  assert (L : processedCount SampleRace.late_reply = 3%nat)
    by (vm_compute; reflexivity).
  assert (Lm : personalMessages SampleRace.late_reply
               = [SampleRace.u1; SampleRace.a1])
    by (vm_compute; reflexivity).
  split; [apply mount_cursor_ok|].
  split; [vm_compute; reflexivity|].
  split; [vm_compute; reflexivity|].
  split; [exact Bm|].
  split; [exact B|].
  split; [unfold cursor_ok; rewrite B, Bm; simpl; lia|].
  split; [exact Lm|].
  split; [vm_compute; reflexivity|].
  split; [exact L|].
  unfold cursor_ok. rewrite L, Lm. simpl. lia.
Qed.

(** C1.  A message can stay in the stream without ever being part of a
    new input.  After the late reply of the sample the stream is shorter
    than the cursor; the user sends a third message, which brings the
    stream to the length of the cursor, so no pass is scheduled for it; when
    its reply arrives, the pass takes the stream from the cursor on, which
    is the reply alone.  The three passes were handed the first message,
    then the second message and its reply, then the third reply: the third
    message of the user and the first reply are in the stream and were
    handed to no pass, and the second flush's new input is not what the
    stream holds at positions [[1, 3)]. *)
Theorem message_never_extracted :
  let s := SampleRace.finish in
  personalMessages s
  = [SampleRace.u1; SampleRace.a1; SampleRace.u3; SampleRace.a3]
  /\ map fst (extractions s)
     = [[SampleRace.u1]; [SampleRace.u2; SampleRace.a2]; [SampleRace.a3]]
  /\ map (fun c => length (snd c)) (extractions s) = [0; 1; 3]%nat
  /\ processedCount s = 4%nat
  /\ suspended s = []
  /\ ~ pending s
  /\ Arr.slice 1 3 (personalMessages s) = [SampleRace.a1; SampleRace.u3]
  /\ ~ In SampleRace.u3 (concat (map fst (extractions s)))
  /\ ~ In SampleRace.a1 (concat (map fst (extractions s))).
Proof.
  cbv zeta.
  assert (E : map fst (extractions SampleRace.finish)
              = [[SampleRace.u1]; [SampleRace.u2; SampleRace.a2];
                 [SampleRace.a3]])
    by (vm_compute; reflexivity).
  split; [vm_compute; reflexivity|].
  split; [exact E|].
  split; [vm_compute; reflexivity|].
  split; [vm_compute; reflexivity|].
  split; [vm_compute; reflexivity|].
  split.
  { unfold pending.
    replace (processedCount SampleRace.finish) with 4%nat
      by (vm_compute; reflexivity).
    replace (length (personalMessages SampleRace.finish)) with 4%nat
      by (vm_compute; reflexivity).
    lia. }
  split; [vm_compute; reflexivity|].
  rewrite E.
  split; vm_compute; intros C;
    repeat (destruct C as [C|C]; [discriminate C|]); exact C.
Qed.

(** *** Failure of the extraction call *)

(** A remote party that only answers with errors makes [runWithRetry]
    throw, whatever the number of tries. *)
Lemma loop_all_fail {T} (answers : nat -> Error.t + T) (retries : Z)
  (fuel : nat) :
  (forall k, exists e, answers k = inl e) ->
  forall (i : Z) (w : World),
    exists w' e, runWithRetry_loop (request answers) retries i fuel w = (w', inl e).
Proof.
  intros F. induction fuel as [|fuel IH]; intros i w; simpl.
  - now eexists; eexists.
  - unfold try_catch, request at 1.
    destruct (F (requests w)) as [e A]. rewrite A.
    destruct (isNotFound e); [now eexists; eexists|].
    destruct ((isRateLimit e || isServerIssue e) && (i <? retries - 1));
      [|now eexists; eexists].
    unfold bind, delay, exec. apply IH.
Qed.

Lemma attempt_fails parse (service : Service) (m : Model) (w : World) :
  (forall k, exists e, service m k = inl e) ->
  exists w' e, attempt parse service m w = (w', inl e).
Proof.
  intros F. unfold attempt, bind, generate, generateContent, runWithRetry.
  destruct (loop_all_fail (service m) default_retries
              (Z.to_nat default_retries) F 0 w) as [w' [e E]].
  rewrite E. now eexists; eexists.
Qed.

Lemma generateEntryFromChat_down parse (service : Service) key (w : World) :
  (forall m k, exists e, service m k = inl e) ->
  snd (generateEntryFromChat parse service key w)
  = inr (JObj ExtractionResult.empty).
Proof.
  intros F. unfold generateEntryFromChat.
  destruct (negb (truthy key)); [reflexivity|].
  unfold try_catch.
  destruct (attempt_fails parse service MODEL_NAME w (F MODEL_NAME))
    as [w1 [e1 E1]].
  rewrite E1.
  destruct (attempt_fails parse service FALLBACK_MODEL w1 (F FALLBACK_MODEL))
    as [w2 [e2 E2]].
  rewrite E2. reflexivity.
Qed.

(** No exception leaves the pass. *)
Lemma handleAutoSync_completes env (s : State) :
  snd (handleAutoSync env s) = inr tt.
Proof.
  destruct (pending_dec s) as [P|NP].
  - destruct (extraction_returns env (world s)) as [w' [d E]].
    now rewrite (handleAutoSync_pending env s w' d P E).
  - now rewrite (handleAutoSync_idle env s NP).
Qed.

(** C5.  The extraction call never throws, and when every request fails,
    for the first model and for the fallback, it returns the empty object.
    The pass itself always completes normally.  A pass that had something
    to process leaves the cursor at the end of the stream whatever
    extraction did, so a further pass on the same stream does nothing: the
    slice counts as consumed. *)
Theorem extraction_failure_contained :
  (forall parse service key w,
      exists w' d, generateEntryFromChat parse service key w = (w', inr d))
  /\ (forall parse (service : Service) key w,
        (forall m k, exists e, service m k = inl e) ->
        snd (generateEntryFromChat parse service key w)
        = inr (JObj ExtractionResult.empty))
  /\ (forall env s, snd (handleAutoSync env s) = inr tt)
  /\ (forall env s,
        pending s ->
        let s' := fst (handleAutoSync env s) in
        processedCount s' = length (personalMessages s)
        /\ personalMessages s' = personalMessages s
        /\ forall env', handleAutoSync env' s' = (s', inr tt)).
Proof.
  split; [exact generateEntryFromChat_returns|].
  split; [exact generateEntryFromChat_down|].
  split; [exact handleAutoSync_completes|].
  intros env s P. cbv zeta.
  destruct (flush_cursor env s) as [M [Pe _]].
  destruct (Pe P) as [Pc _].
  split; [exact Pc|]. split; [exact M|].
  intros env'. apply handleAutoSync_idle.
  unfold pending. rewrite Pc, M. lia.
Qed.

Lemma extraction_failure_contained_witness :
  let s := SampleChat.fresh [SampleChat.says user "1" "Went to the market"] in
  (forall m k, exists e, SampleErrors.down m k = inl e)
  /\ snd (extraction SampleChat.failing Gemini.start)
     = inr (JObj ExtractionResult.empty)
  /\ pending s
  /\ processedCount (fst (handleAutoSync SampleChat.failing s)) = 1%nat.
Proof.
  assert (D : forall m k, exists e, SampleErrors.down m k = inl e)
    by (intros m k; now exists SampleErrors.overloaded).
  assert (P : pending (SampleChat.fresh
                         [SampleChat.says user "1" "Went to the market"]))
    by (unfold pending; simpl; lia).
  split; [exact D|]. split.
  - exact (proj1 (proj2 extraction_failure_contained) _ _ _ _ D).
  - split; [exact P|].
    exact (proj1 (proj2 (proj2 (proj2 extraction_failure_contained))
                    SampleChat.failing _ P)).
Defined.

(** *** The records of a batch *)

Lemma digits_inj (u v : Decimal.uint) : digits u = digits v -> u = v.
Proof.
  revert v. induction u; intros v E; destruct v; simpl in E;
    try discriminate; try reflexivity;
    injection E as E; f_equal; now apply IHu.
Qed.

Lemma show_nat_inj (i j : nat) : show_nat i = show_nat j -> i = j.
Proof.
  unfold show_nat. intros E. apply digits_inj in E.
  now apply DecimalNat.Unsigned.to_uint_inj.
Qed.

(** The ids of a batch differ from record to record. *)
Lemma batch_id_inj (b : jsstring) (kind : string) (i j : nat) :
  b ++ str kind ++ show_nat i = b ++ str kind ++ show_nat j -> i = j.
Proof.
  intros E. apply app_inv_head in E. apply app_inv_head in E.
  now apply show_nat_inj.
Qed.

Lemma map_mapi_from {A B C} (g : B -> C) (f : A -> nat -> B) (h : A -> C)
  (l : list A) :
  (forall x i, g (f x i) = h x) ->
  forall i, map g (Arr.mapi_from i f l) = map h l.
Proof.
  intros H. induction l as [|x r IH]; intros i; simpl; [reflexivity|].
  now rewrite H, IH.
Qed.

Lemma map_mapi_seq {A B C} (g : B -> C) (f : A -> nat -> B) (h : nat -> C)
  (l : list A) :
  (forall x i, g (f x i) = h i) ->
  forall i, map g (Arr.mapi_from i f l) = map h (seq i (length l)).
Proof.
  intros H. induction l as [|x r IH]; intros i; simpl; [reflexivity|].
  now rewrite H, IH.
Qed.

Lemma NoDup_map_seq {C} (h : nat -> C) (a n : nat) :
  (forall i j, h i = h j -> i = j) -> NoDup (map h (seq a n)).
Proof.
  intros Inj. revert a. induction n as [|n IH]; intros a; simpl.
  - constructor.
  - constructor; [|apply IH].
    rewrite in_map_iff. intros [j [E I]]. apply Inj in E. subst j.
    apply in_seq in I. lia.
Qed.

Lemma NoDup_keys_newTasks b sh iso cands :
  NoDup (keys (newTasks_of b sh iso cands)).
Proof.
  unfold keys, newTasks_of, Arr.mapi.
  rewrite (map_mapi_seq _ _ (fun i => b ++ str "-task-" ++ show_nat i))
    by reflexivity.
  apply NoDup_map_seq. intros i j. apply batch_id_inj.
Qed.

Lemma NoDup_keys_newEvents b sh cands :
  NoDup (keys (newEvents_of b sh cands)).
Proof.
  unfold keys, newEvents_of, Arr.mapi.
  rewrite (map_mapi_seq _ _ (fun i => b ++ str "-evt-" ++ show_nat i))
    by reflexivity.
  apply NoDup_map_seq. intros i j. apply batch_id_inj.
Qed.

Lemma NoDup_keys_newTxs b sh iso cands :
  NoDup (keys (newTxs_of b sh iso cands)).
Proof.
  unfold keys, newTxs_of, Arr.mapi.
  rewrite (map_mapi_seq _ _ (fun i => b ++ str "-tx-" ++ show_nat i))
    by reflexivity.
  apply NoDup_map_seq. intros i j. apply batch_id_inj.
Qed.

Lemma lookup_in_NoDup {T} `{Keyed T} (l : list T) (x : T) :
  NoDup (keys l) -> In x l -> lookup (key x) l = Some x.
Proof.
  unfold lookup, keys. induction l as [|y r IH]; simpl; intros ND I.
  - contradiction.
  - inversion ND as [|? ? Hy Hr]; subst. destruct I as [E|I].
    + subst y. now rewrite eqb_refl.
    + destruct (eqb (key y) (key x)) eqn:E.
      * apply eqb_eq in E. exfalso. apply Hy. rewrite E.
        now apply in_map.
      * now apply IH.
Qed.

Lemma keys_rev {T} `{Keyed T} (l : list T) : keys (rev l) = rev (keys l).
Proof. unfold keys. apply map_rev. Qed.

(** Every record of a batch of tasks is stored, as it is. *)
Lemma saveTasks_list_stores (tasks current : list Task.t) (t0 : Task.t) :
  NoDup (keys tasks) -> In t0 tasks ->
  lookup (key t0) (Storage.saveTasks_list tasks current) = Some t0.
Proof.
  intros ND I. rewrite StorageFacts.lookup_saveTasks_list.
  rewrite (lookup_in_NoDup (rev tasks) t0); [reflexivity| |].
  - rewrite keys_rev. now apply NoDup_rev.
  - now apply in_rev in I.
Qed.

(** Every record of a batch of events is stored, unless its id was there. *)
Lemma addCalendarEvents_list_stores (events current : list CalendarEvent.t)
  (e : CalendarEvent.t) :
  NoDup (keys events) -> In e events ->
  lookup (key e) current = None ->
  lookup (key e) (Storage.addCalendarEvents_list events current) = Some e.
Proof.
  intros ND I L. rewrite StorageFacts.lookup_addCalendarEvents_list, L.
  now apply lookup_in_NoDup.
Qed.

(** *** What a pass leaves in each collection *)

Lemma stored_events env s r (st : Storage.t) :
  Storage.getCalendarEvents (stored env s r st)
  = Storage.addCalendarEvents_list (events env s r) (Storage.getCalendarEvents st).
Proof.
  unfold stored.
  destruct (events env s r), (tasks env s r), (transactions env s r),
    (savesEntry s r); simpl;
    unfold Storage.addCalendarEvents_list; simpl;
    try rewrite app_nil_r; reflexivity.
Qed.

Lemma stored_tasks env s r (st : Storage.t) :
  Storage.getTasks (stored env s r st)
  = Storage.saveTasks_list (tasks env s r) (Storage.getTasks st).
Proof.
  unfold stored.
  destruct (events env s r), (tasks env s r), (transactions env s r),
    (savesEntry s r); reflexivity.
Qed.

Lemma stored_transactions env s r (st : Storage.t) :
  Storage.getTransactions (stored env s r st)
  = Storage.getTransactions st ++ transactions env s r.
Proof.
  unfold stored.
  destruct (events env s r), (tasks env s r), (transactions env s r),
    (savesEntry s r); simpl; unfold Storage.addTransactions_list;
    try rewrite app_nil_r; reflexivity.
Qed.

Lemma stored_entries env s r (st : Storage.t) :
  Storage.getEntries (stored env s r st)
  = if savesEntry s r
    then Storage.saveEntry_list (entry env s r) (Storage.getEntries st)
    else Storage.getEntries st.
Proof.
  unfold stored.
  destruct (events env s r), (tasks env s r), (transactions env s r),
    (savesEntry s r); reflexivity.
Qed.

Lemma storage_after env (s : State) w' r :
  pending s ->
  extraction env (world s) = (w', inr (JObj r)) ->
  storage (fst (handleAutoSync env s)) = stored env s r (storage s).
Proof.
  intros P E. now rewrite (handleAutoSync_pending env s w' _ P E).
Qed.

Lemma media_nonempty (l : list Media.t) :
  (0 <? Z.of_nat (length l)) = true <-> l <> [].
Proof.
  destruct l as [|x l].
  - simpl. split; [discriminate|]. intros H. now contradiction H.
  - split; [discriminate|]. intros _. apply Z.ltb_lt.
    simpl length. lia.
Qed.

Lemma shouldCreateEntry_iff r (m : list Media.t) :
  shouldCreateEntry_of r m = true
  <-> ExtractionResult.hasContent r = Some true \/ m <> [].
Proof.
  unfold shouldCreateEntry_of. rewrite orb_true_iff, media_nonempty.
  destruct (ExtractionResult.hasContent r) as [[|]|]; intuition congruence.
Qed.

Lemma savesEntry_iff (s : State) r :
  savesEntry s r = true
  <-> (ExtractionResult.hasContent r = Some true \/ media s <> [])
      /\ (truthy (finalContent s r) = true \/ media s <> []).
Proof.
  unfold savesEntry.
  now rewrite andb_true_iff, orb_true_iff, shouldCreateEntry_iff, media_nonempty.
Qed.

Lemma tasks_NoDup env s r : NoDup (keys (tasks env s r)).
Proof.
  unfold tasks. destruct (ExtractionResult.tasks r);
    [apply NoDup_keys_newTasks|constructor].
Qed.

Lemma events_NoDup env s r : NoDup (keys (events env s r)).
Proof.
  unfold events. destruct (ExtractionResult.calendarEvents r);
    [apply NoDup_keys_newEvents|constructor].
Qed.

(** The records derived from the result are stored: each task and each
    transaction as it is, each event unless its id was stored before. *)
Lemma records_stored env (s : State) w' r :
  pending s ->
  extraction env (world s) = (w', inr (JObj r)) ->
  let s' := fst (handleAutoSync env s) in
  (forall t0, In t0 (tasks env s r) ->
     lookup (key t0) (Storage.getTasks (storage s')) = Some t0)
  /\ (forall e, In e (events env s r) ->
      lookup (key e) (Storage.getCalendarEvents (storage s)) = None ->
      lookup (key e) (Storage.getCalendarEvents (storage s')) = Some e)
  /\ Storage.getTransactions (storage s')
     = Storage.getTransactions (storage s) ++ transactions env s r.
Proof.
  intros P E. cbv zeta. rewrite (storage_after env s w' r P E).
  split.
  { intros t0 I. rewrite stored_tasks.
    apply saveTasks_list_stores; [apply tasks_NoDup|exact I]. }
  split.
  { intros e I L. rewrite stored_events.
    apply addCalendarEvents_list_stores; [apply events_NoDup|exact I|exact L]. }
  apply stored_transactions.
Qed.

(** *** The entry of a batch *)

(** The media of a pass are the image attachments of its new input, in
    order. *)
Lemma collectMedia_pictures (l : list ChatMessage.t) :
  collectMedia l = flat_map media_of (filter has_picture l).
Proof.
  induction l as [|m r IH]; [reflexivity|].
  unfold has_picture, media_of. simpl.
  destruct (ChatMessage.attachment m) as [a|] eqn:A; [|exact IH].
  destruct (Attachment.type a) eqn:Ty; [|exact IH].
  simpl. rewrite A, Ty. simpl. now rewrite IH.
Qed.

Lemma media_pictures (s : State) :
  media s = flat_map media_of (pictures s)
  /\ length (media s) = length (pictures s)
  /\ (media s <> [] <-> pictures s <> []).
Proof.
  unfold media, pictures. rewrite collectMedia_pictures.
  set (l := filter has_picture (newInput s)).
  assert (F : Forall (fun m => has_picture m = true) l).
  { apply Forall_forall. intros m I. now apply filter_In in I. }
  clearbody l. split; [reflexivity|].
  assert (L : length (flat_map media_of l) = length l).
  { induction F as [|m r Hm _ IH]; [reflexivity|].
    simpl. rewrite length_app, IH. f_equal.
    unfold has_picture in Hm. unfold media_of.
    destruct (ChatMessage.attachment m) as [a|]; [|discriminate].
    destruct (Attachment.type a); [reflexivity|discriminate]. }
  split; [exact L|].
  clear F. destruct l as [|m r].
  - simpl. tauto.
  - destruct (flat_map media_of (m :: r)) as [|x y];
      [discriminate L|split; discriminate].
Qed.

(** The content of the entry: what the model gave, unless that is missing
    or blank; then what the user typed, unless that is nothing. *)
Lemma finalContent_cases (s : State) r :
  finalContent s r
  = match ExtractionResult.content r with
    | Some c =>
        if nonempty (trim c) then Some c
        else if nonempty (rawUserText_of (newInput s))
             then Some (rawUserText_of (newInput s))
             else Some c
    | None =>
        if nonempty (rawUserText_of (newInput s))
        then Some (rawUserText_of (newInput s))
        else None
    end.
Proof.
  unfold finalContent, finalContent_of, blank.
  destruct (ExtractionResult.content r) as [[|c l]|]; try reflexivity.
  cbn [truthy negb orb].
  now destruct (nonempty (trim (c :: l))).
Qed.



(** A picture sent with a caption is not a media-only input: the model
    gave no content, and the caption the user typed is the content of the
    entry. *)
Example picture_with_caption :
  let s := SampleChat.fresh [SampleChat.picture "1" "Dinner with Sam"] in
  let env := SampleChat.answering SampleResults.no_content in
  map (fun e => (JournalEntry.content e, length (JournalEntry.media e)))
      (Storage.getEntries (storage (fst (handleAutoSync env s))))
  = [(str "Dinner with Sam", 1%nat)].
Proof. vm_compute. reflexivity. Qed.

(** The case the specification tests: a picture sent without any text. *)
Example picture_alone :
  let s := SampleChat.fresh [SampleChat.picture "1" EmptyString] in
  let env := SampleChat.answering SampleResults.no_content in
  map (fun e => (JournalEntry.title e, JournalEntry.content e,
                 length (JournalEntry.media e)))
      (Storage.getEntries (storage (fst (handleAutoSync env s))))
  = [(str "Photo Memory", [], 1%nat)].
Proof. vm_compute. reflexivity. Qed.

(** *** Ids and links of a batch *)

Lemma Forall_mapi_from {A B} (Q : B -> Prop) (f : A -> nat -> B) (l : list A) :
  (forall x i, Q (f x i)) -> forall i, Forall Q (Arr.mapi_from i f l).
Proof.
  intros H. induction l as [|x r IH]; intros i; simpl; constructor; auto.
Qed.

(** Every record of a batch has an id that starts with the batch
    identifier, [B-task-i], [B-evt-i] or [B-tx-i] for the [i]-th candidate,
    and is linked to [B] exactly when [hasContent] is true or the new input
    carries a picture.  When the pass saves an entry the records are
    therefore linked to it. *)
Lemma batch_ids_and_links env (s : State) r :
  let b := batchId env in
  let sh := shouldCreateEntry_of r (media s) in
  keys (tasks env s r)
  = map (fun i => b ++ str "-task-" ++ show_nat i)
        (seq 0 (length (tasks env s r)))
  /\ keys (events env s r)
     = map (fun i => b ++ str "-evt-" ++ show_nat i)
           (seq 0 (length (events env s r)))
  /\ keys (transactions env s r)
     = map (fun i => b ++ str "-tx-" ++ show_nat i)
           (seq 0 (length (transactions env s r)))
  /\ Forall (fun t0 => has_prefix b (Task.id t0)
                       /\ Task.linkedEntryId t0 = link sh b) (tasks env s r)
  /\ Forall (fun e => has_prefix b (CalendarEvent.id e)
                      /\ CalendarEvent.linkedEntryId e = link sh b)
            (events env s r)
  /\ Forall (fun x => has_prefix b (FinanceTransaction.id x)
                      /\ FinanceTransaction.linkedEntryId x = link sh b)
            (transactions env s r)
  /\ (savesEntry s r = true -> link sh b = Some b).
Proof.
  cbv zeta. unfold tasks, events, transactions, keys.
  destruct (ExtractionResult.tasks r) as [tk|];
    destruct (ExtractionResult.calendarEvents r) as [ce|];
    destruct (ExtractionResult.transactions r) as [tx|];
    unfold newTasks_of, newEvents_of, newTxs_of, Arr.mapi;
    repeat match goal with
           | |- _ /\ _ => split
           | |- map _ (Arr.mapi_from _ _ ?l) = map _ (seq _ (length (Arr.mapi_from _ _ ?l))) =>
               replace (length (Arr.mapi_from 0 _ l)) with (length l)
                 by (rewrite <- (length_map (fun _ => tt) (Arr.mapi_from 0 _ l));
                     rewrite (map_mapi_from _ _ (fun _ => tt)) by reflexivity;
                     now rewrite length_map);
               apply map_mapi_seq; reflexivity
           | |- map _ [] = _ => reflexivity
           | |- Forall _ [] => constructor
           | |- Forall _ (Arr.mapi_from _ _ _) =>
               apply Forall_mapi_from; intros x i; simpl;
               split; [eexists; reflexivity|reflexivity]
           end;
    intros S; unfold savesEntry in S; apply andb_true_iff in S;
    destruct S as [S _]; now rewrite S.
Qed.

(** C3 fails on the code.  The model answers with [hasContent] true, no
    content and one task, for a new input that holds only the assistant's
    reply: the task is stored with [linkedEntryId] set to the batch
    identifier, and no entry is stored at all. *)
Theorem dangling_link :
  let s := SampleChat.fresh [SampleChat.says model "2" "Noted. Anything else?"] in
  let env := SampleChat.answering SampleResults.task_only in
  let s' := fst (handleAutoSync env s) in
  map (fun t0 => (Task.id t0, Task.linkedEntryId t0))
      (Storage.getTasks (storage s'))
  = [(str "1700000000000-task-0", Some (str "1700000000000"))]
  /\ batchId env = str "1700000000000"
  /\ Storage.getEntries (storage s') = [].
Proof. vm_compute. repeat split. Qed.

(** *** Candidates without a date *)

(** C7, as amended.  No candidate is dropped.  A task without [dueDate]
    gets the current time; a transaction without [date] gets the current
    time as well; an event is stored with the [startTime] it came with,
    which stays unset when it was missing.  Every task and transaction
    derived is stored, and every event whose id was not stored before. *)
Theorem candidates_defaulted env (s : State) w' r :
  pending s ->
  extraction env (world s) = (w', inr (JObj r)) ->
  let s' := fst (handleAutoSync env s) in
  (forall cands, ExtractionResult.tasks r = Some cands ->
     map Task.dueDate (tasks env s r)
     = map (fun c => Some (or_else (TaskCandidate.dueDate c) (nowISO env))) cands)
  /\ (forall cands, ExtractionResult.transactions r = Some cands ->
     map FinanceTransaction.date (transactions env s r)
     = map (fun c => or_else (TxCandidate.date c) (nowISO env)) cands)
  /\ (forall cands, ExtractionResult.calendarEvents r = Some cands ->
     map CalendarEvent.startTime (events env s r)
     = map EventCandidate.startTime cands)
  /\ (forall t0, In t0 (tasks env s r) ->
      lookup (key t0) (Storage.getTasks (storage s')) = Some t0)
  /\ Storage.getTransactions (storage s')
     = Storage.getTransactions (storage s) ++ transactions env s r
  /\ (forall e, In e (events env s r) ->
      lookup (key e) (Storage.getCalendarEvents (storage s)) = None ->
      lookup (key e) (Storage.getCalendarEvents (storage s')) = Some e).
Proof.
  intros P E. cbv zeta.
  destruct (records_stored env s w' r P E) as [T [V X]].
  split.
  { intros cands H. unfold tasks. rewrite H.
    apply map_mapi_from. reflexivity. }
  split.
  { intros cands H. unfold transactions. rewrite H.
    apply map_mapi_from. reflexivity. }
  split.
  { intros cands H. unfold events. rewrite H.
    apply map_mapi_from. reflexivity. }
  split; [exact T|]. split; [exact X|exact V].
Qed.

Lemma candidates_defaulted_witness :
  let s := SampleChat.fresh [SampleChat.says user "1" "Coffee, 50 rupees"] in
  let env := SampleChat.answering SampleResults.undated in
  pending s
  /\ extraction env (world s)
     = ({| requests := 1; slept := [] |}, inr (JObj SampleResults.undated))
  /\ map FinanceTransaction.date (transactions env s SampleResults.undated)
     = [nowISO env].
Proof.
  assert (P : pending (SampleChat.fresh
                         [SampleChat.says user "1" "Coffee, 50 rupees"]))
    by (unfold pending; simpl; lia).
  split; [exact P|]. split; [reflexivity|].
  exact (proj1 (proj2 (candidates_defaulted
                         (SampleChat.answering SampleResults.undated)
                         (SampleChat.fresh
                            [SampleChat.says user "1" "Coffee, 50 rupees"])
                         {| requests := 1; slept := [] |}
                         SampleResults.undated P eq_refl))
           _ eq_refl).
Defined.

(** C7 as stated fails: a transaction without [date] and an event without
    [startTime] are both stored, the first dated with the current time, the
    second with no start time. *)
Lemma undated_candidates_kept :
  let s := SampleChat.fresh [SampleChat.says user "1" "Coffee, 50 rupees"] in
  let env := SampleChat.answering SampleResults.undated in
  let s' := fst (handleAutoSync env s) in
  map (fun x => (FinanceTransaction.id x, FinanceTransaction.date x))
      (Storage.getTransactions (storage s'))
  = [(str "1700000000000-tx-0", nowISO env)]
  /\ map (fun e => (CalendarEvent.id e, CalendarEvent.startTime e))
         (Storage.getCalendarEvents (storage s'))
     = [(str "1700000000000-evt-0", None)].
Proof. vm_compute. split; reflexivity. Qed.

End PassFacts.

(** ** Events created by hand *)

Module CalendarFacts.

Import JSDate Calendar.

(** [YearFromDay] is the year of the day: the day lies between the first
    day of that year and the first day of the next. *)
Lemma YearFromDay_spec (d : Z) :
  DayFromYear (YearFromDay d) <= d < DayFromYear (YearFromDay d + 1).
Proof.
  unfold YearFromDay. cbv zeta.
  destruct (Z.ltb_spec d (DayFromYear (1970 + d * 400 / 146097)));
    [|destruct (Z.leb_spec (DayFromYear (1970 + d * 400 / 146097 + 1)) d)];
    unfold DayFromYear in *; Z.div_mod_to_equations; lia.
Qed.

(** A year has 366 days when it is a leap year and 365 otherwise. *)
Lemma DayFromYear_next (y : Z) :
  DayFromYear (y + 1) - DayFromYear y = if InLeapYear y then 366 else 365.
Proof.
  unfold InLeapYear, DayFromYear.
  replace (y + 1 - 1970) with (y - 1970 + 1) by lia.
  replace (y + 1 - 1969) with (y - 1968) by lia.
  replace (y + 1 - 1901) with (y - 1900) by lia.
  replace (y + 1 - 1601) with (y - 1600) by lia.
  assert (A : (y - 1968) / 4 - (y - 1969) / 4 = if y mod 4 =? 0 then 1 else 0).
  { destruct (Z.eqb_spec (y mod 4) 0); Z.div_mod_to_equations; lia. }
  assert (B : (y - 1900) / 100 - (y - 1901) / 100
              = if y mod 100 =? 0 then 1 else 0).
  { destruct (Z.eqb_spec (y mod 100) 0); Z.div_mod_to_equations; lia. }
  assert (C : (y - 1600) / 400 - (y - 1601) / 400
              = if y mod 400 =? 0 then 1 else 0).
  { destruct (Z.eqb_spec (y mod 400) 0); Z.div_mod_to_equations; lia. }
  assert (D : y mod 100 = 0 -> y mod 4 = 0) by (Z.div_mod_to_equations; lia).
  assert (E : y mod 400 = 0 -> y mod 100 = 0) by (Z.div_mod_to_equations; lia).
  revert A B C.
  destruct (Z.eqb_spec (y mod 4) 0), (Z.eqb_spec (y mod 100) 0),
    (Z.eqb_spec (y mod 400) 0); cbn [andb orb negb]; intros A B C; lia.
Qed.

(** The date of a day is a day of its month. *)
Lemma DateFromDay_range (d : Z) : 1 <= DateFromDay d <= 31.
Proof.
  pose proof (YearFromDay_spec d) as Y.
  pose proof (DayFromYear_next (YearFromDay d)) as N.
  unfold DateFromDay, MonthFromDay, DayWithinYear.
  destruct (InLeapYear (YearFromDay d)); cbv [DaysBeforeMonth];
    repeat match goal with
           | |- context [?a <? ?b] => destruct (Z.ltb_spec a b)
           end; lia.
Qed.

Lemma MonthFromDay_range (d : Z) : 0 <= MonthFromDay d <= 11.
Proof.
  unfold MonthFromDay.
  repeat match goal with
         | |- context [if ?c then _ else _] => destruct c
         end; lia.
Qed.

(** Rebuilding a day from its own year, month and date, moved by [k]
    days, gives the day [k] days later. *)
Lemma MakeDay_shift (d k : Z) :
  MakeDay (YearFromDay d) (MonthFromDay d) (DateFromDay d + k) = d + k.
Proof.
  unfold MakeDay. pose proof (MonthFromDay_range d) as R.
  rewrite Z.div_small, Z.mod_small by lia.
  rewrite Z.add_0_r. unfold DateFromDay, DayWithinYear. lia.
Qed.

Lemma Day_TimeWithinDay (tv : Z) :
  MakeDate (Day tv) (TimeWithinDay tv) = tv.
Proof.
  unfold MakeDate, Day, TimeWithinDay, msPerDay.
  pose proof (Z.div_mod tv 86400000). lia.
Qed.

(** In a zone whose offset never changes, [setDate] with the date of a day
    plus [k] moves the time value by [k] days. *)
Lemma setDate_fixed (offset d k : Z) :
  setDate (fixed_zone offset) d (DateFromTime (LocalTime (fixed_zone offset) d) + k)
  = d + k * msPerDay.
Proof.
  unfold setDate, LocalTime, UTC, fixed_zone. simpl.
  unfold YearFromTime, MonthFromTime, DateFromTime.
  rewrite MakeDay_shift.
  pose proof (Day_TimeWithinDay (d + offset)) as E.
  unfold MakeDate in *. lia.
Qed.

Lemma Day_shift (tv k : Z) : Day (tv + k * msPerDay) = Day tv + k.
Proof.
  unfold Day, msPerDay. rewrite Z.div_add by lia. reflexivity.
Qed.

(** The number of instances, by repeat mode. *)
Lemma count_instances env (newEvent : NewEvent) (baseDate : JSDate.t) :
  length (eventsToCreate_of env newEvent baseDate)
  = match repeat newEvent with
    | daily => 30 | weekly => 12 | monthly => 6 | none => 1
    end%nat.
Proof.
  unfold eventsToCreate_of. rewrite length_map, length_seq.
  now destruct (repeat newEvent).
Qed.

(** Every instance carries the title and the description of the form. *)
Lemma instances_share_text env (newEvent : NewEvent) (baseDate : JSDate.t) :
  Forall (fun e => CalendarEvent.title e = Some (title newEvent)
                   /\ CalendarEvent.description e = Some (description newEvent))
         (eventsToCreate_of env newEvent baseDate).
Proof.
  unfold eventsToCreate_of. apply Forall_forall. intros e I.
  apply in_map_iff in I. destruct I as [i [E _]]. subst e. now split.
Qed.

(** One mirrored task per event, in order: due at the start of the event
    and named after its id. *)
Lemma tasks_mirror_events (eventsToCreate : list CalendarEvent.t) :
  Forall2 (fun evt t0 =>
             Task.id t0 = str "task-mirror-" ++ CalendarEvent.id evt
             /\ Task.dueDate t0 = CalendarEvent.startTime evt
             /\ Task.title t0 = CalendarEvent.title evt
             /\ Task.completed t0 = false)
          eventsToCreate (tasksToCreate_of eventsToCreate).
Proof.
  induction eventsToCreate as [|evt r IH]; simpl; constructor; auto.
Qed.

(** In a zone whose offset never changes, the instances of a weekly event
    start seven days apart, and those of a daily event one day apart. *)
Lemma fixed_zone_spacing env (newEvent : NewEvent) (baseDate offset : Z) (i : nat) :
  tz env = fixed_zone offset ->
  Day (instanceDate env weekly baseDate i) = Day baseDate + 7 * Z.of_nat i
  /\ Day (instanceDate env daily baseDate i) = Day baseDate + Z.of_nat i.
Proof.
  intros Z0. unfold instanceDate, getDate. rewrite Z0.
  rewrite !(setDate_fixed offset baseDate), !Day_shift. lia.
Qed.

(** The ids of the instances differ whenever the clock readings and the
    random draws of the turns give different texts. *)
Lemma ids_distinct env (newEvent : NewEvent) (baseDate : JSDate.t) :
  (forall i j, show_Z (now env i) ++ random36 env i
               = show_Z (now env j) ++ random36 env j -> i = j) ->
  NoDup (keys (eventsToCreate_of env newEvent baseDate)).
Proof.
  intros Inj. unfold keys, eventsToCreate_of. rewrite map_map.
  now apply (PassFacts.NoDup_map_seq
               (fun i => show_Z (now env i) ++ random36 env i)).
Qed.

(** What the handler stores, for a form that is filled in. *)
Lemma handleSaveEvent_stores env (newEvent : NewEvent) (baseDate : JSDate.t)
  (st : Storage.t) :
  filled (title newEvent) = true -> filled (date newEvent) = true ->
  filled (startTime newEvent) = true -> filled (endTime newEvent) = true ->
  parse (date newEvent) = Some baseDate ->
  let events := eventsToCreate_of env newEvent baseDate in
  let st' := fst (handleSaveEvent env newEvent st) in
  snd (handleSaveEvent env newEvent st) = inr tt
  /\ Storage.getCalendarEvents st'
     = Storage.addCalendarEvents_list events (Storage.getCalendarEvents st)
  /\ Storage.getTasks st'
     = Storage.saveTasks_list (tasksToCreate_of events) (Storage.getTasks st).
Proof.
  intros F1 F2 F3 F4 Pd. cbv zeta. unfold handleSaveEvent.
  rewrite F1, F2, F3, F4, Pd. simpl. repeat split.
Qed.

(** C8 fails on the code.  A weekly event first on 2024-03-25, created in
    Central European Time: twelve events and twelve mirrored tasks are
    stored, but the second event starts on 2024-03-31, six days after the
    first, because the clocks move forward that night; the later ones
    follow at seven days. *)
Theorem weekly_across_clock_change :
  let env := SampleCalendar.env_in SampleCalendar.central_europe in
  let form := SampleCalendar.gym "2024-03-25" weekly in
  let st := fst (handleSaveEvent env form Storage.empty) in
  length (Storage.getCalendarEvents st) = 12%nat
  /\ length (Storage.getTasks st) = 12%nat
  /\ firstn 3 (map CalendarEvent.startTime (Storage.getCalendarEvents st))
     = [Some (str "2024-03-25T09:00:00"); Some (str "2024-03-31T09:00:00");
        Some (str "2024-04-07T09:00:00")]
  /\ firstn 3 (map Task.dueDate (Storage.getTasks st))
     = [Some (str "2024-03-25T09:00:00"); Some (str "2024-03-31T09:00:00");
        Some (str "2024-04-07T09:00:00")].
Proof. vm_compute. repeat split. Qed.

(** The same form in a zone without clock changes: seven days apart. *)
Example weekly_in_fixed_zone :
  let env := SampleCalendar.env_in (fixed_zone (-18000000)) in
  let form := SampleCalendar.gym "2024-03-25" weekly in
  let st := fst (handleSaveEvent env form Storage.empty) in
  firstn 3 (map CalendarEvent.startTime (Storage.getCalendarEvents st))
  = [Some (str "2024-03-25T09:00:00"); Some (str "2024-04-01T09:00:00");
     Some (str "2024-04-08T09:00:00")].
Proof. vm_compute. reflexivity. Qed.

End CalendarFacts.


(** ** The string and date functions on examples *)

Module Sanity.

Import JSDate.

Example trim_strips_both_ends :
  trim (str "  a b  ") = str "a b".
Proof. reflexivity. Qed.

Example tags_are_stripped :
  strip_attachment_tags (str "hi [attachment: a.png] there [Attachment:x")
  = str "hi  there [Attachment:x".
Proof. vm_compute. reflexivity. Qed.

Example picture_without_text_has_no_user_text :
  App.rawUserText_of [SampleChat.picture "1" EmptyString] = [].
Proof. vm_compute. reflexivity. Qed.

Example fences_are_stripped :
  Gemini.strip_close
    (Gemini.strip_open
       (Gemini.strip_open_json (str "```json" ++ 10%N :: str "{}" ++ 10%N :: str "```")))
  = str "{}".
Proof. vm_compute. reflexivity. Qed.

Example numbers_print :
  show_nat 0 = str "0" /\ show_nat 12 = str "12"
  /\ show_Z 1700000000000 = str "1700000000000".
Proof. vm_compute. repeat split. Qed.

Example dates_parse_and_print :
  parse (str "2024-03-25") = Some 1711324800000
  /\ toISODate 1711324800000 = str "2024-03-25"
  /\ toISODate 0 = str "1970-01-01"
  /\ toISODate (-1) = str "1969-12-31"
  /\ toISODate 951782400000 = str "2000-02-29"
  /\ toISODate 4107542400000 = str "2100-03-01".
Proof. vm_compute. repeat split. Qed.

(** Monthly instances from the 31st run over the shorter months. *)
Example monthly_from_the_31st :
  let env := SampleCalendar.env_in (fixed_zone 0) in
  let form := SampleCalendar.gym "2024-01-31" Calendar.monthly in
  map CalendarEvent.startTime
      (Storage.getCalendarEvents
         (fst (Calendar.handleSaveEvent env form Storage.empty)))
  = [Some (str "2024-01-31T09:00:00"); Some (str "2024-03-02T09:00:00");
     Some (str "2024-03-31T09:00:00"); Some (str "2024-05-01T09:00:00");
     Some (str "2024-05-31T09:00:00"); Some (str "2024-07-01T09:00:00")].
Proof. vm_compute. reflexivity. Qed.

End Sanity.

(** ** More on persistence *)

Module StorageMore.

Import Storage.

Lemma lookup_some {T} `{Keyed T} (k : jsstring) (l : list T) (x : T) :
  lookup k l = Some x -> key x = k /\ In x l.
Proof.
  unfold lookup. intros F. apply find_some in F. destruct F as [I E].
  apply eqb_eq in E. auto.
Qed.

Lemma lookup_filter_other {T} `{Keyed T} (id k : jsstring) (l : list T) :
  k <> id ->
  lookup k (filter (fun x => negb (eqb (key x) id)) l) = lookup k l.
Proof.
  intros N. unfold lookup. apply StorageFacts.find_filter.
  intros x E. apply eqb_eq in E. apply negb_true_iff, eqb_neq. congruence.
Qed.

Lemma lookup_filter_same {T} `{Keyed T} (id : jsstring) (l : list T) :
  lookup id (filter (fun x => negb (eqb (key x) id)) l) = None.
Proof.
  apply lookup_none. unfold keys. rewrite in_map_iff.
  intros [x [E I]]. apply filter_In in I. destruct I as [_ N].
  apply negb_true_iff, eqb_neq in N. contradiction.
Qed.

Lemma filter_absent {T} `{Keyed T} (id : jsstring) (l : list T) :
  ~ In id (keys l) ->
  filter (fun x => negb (eqb (key x) id)) l = l.
Proof.
  unfold keys. induction l as [|x r IH]; simpl; intros N; [reflexivity|].
  destruct (eqb (key x) id) eqn:E; simpl.
  - apply eqb_eq in E. exfalso. auto.
  - f_equal. apply IH. intros C. auto.
Qed.

Lemma filter_app_last {T} `{Keyed T} (v : T) (l : list T) :
  ~ In (key v) (keys l) ->
  filter (fun x => negb (eqb (key x) (key v))) (l ++ [v]) = l.
Proof.
  intros N. rewrite filter_app, (filter_absent _ _ N). simpl.
  rewrite eqb_refl. simpl. apply app_nil_r.
Qed.

(** X1.  Deleting an entry removes every record with that id and no other; an
    entry saved under a new id and deleted again leaves the collection as
    it was. *)
Theorem deleteEntry_removes (s : Storage.t) (id : jsstring) :
  lookup id (getEntries (deleteEntry id s)) = None
  /\ (forall k, k <> id ->
        lookup k (getEntries (deleteEntry id s)) = lookup k (getEntries s))
  /\ (forall entry, ~ In (key entry) (keys (getEntries s)) ->
        getEntries (deleteEntry (key entry) (saveEntry entry s))
        = getEntries s).
Proof.
  split; [apply (lookup_filter_same id (getEntries s))|].
  split.
  - intros k N. apply (lookup_filter_other id k (getEntries s) N).
  - intros entry N.
    change (getEntries (deleteEntry (key entry) (saveEntry entry s)))
      with (filter (fun e => negb (eqb (key e) (key entry)))
                   (saveEntry_list entry (getEntries s))).
    rewrite StorageFacts.saveEntry_list_upsert, (upsert_absent _ _ N).
    now apply filter_app_last.
Qed.

Lemma deleteEntry_removes_witness :
  let e := Sample.entry "17" "Walk" in
  let s := saveEntry (Sample.entry "16" "Run") Storage.empty in
  ~ In (key e) (keys (getEntries s))
  /\ getEntries (deleteEntry (key e) (saveEntry e s)) = getEntries s.
Proof.
  assert (N : ~ In (key (Sample.entry "17" "Walk"))
                (keys (getEntries (saveEntry (Sample.entry "16" "Run")
                                             Storage.empty))))
    by (simpl; intuition discriminate).
  split; [exact N|].
  exact (proj2 (proj2 (deleteEntry_removes _ (str "17"))) _ N).
Defined.

(** *** Tasks: status, adding, deleting *)

Lemma keys_map_same {T} `{Keyed T} (f : T -> T) (l : list T) :
  (forall x, key (f x) = key x) -> keys (map f l) = keys l.
Proof.
  intros K. unfold keys. rewrite map_map. apply map_ext. exact K.
Qed.

Lemma lookup_map_same {T} `{Keyed T} (f : T -> T) (l : list T) (k : jsstring) :
  (forall x, key (f x) = key x) ->
  lookup k (map f l) = option_map f (lookup k l).
Proof.
  intros K. unfold lookup. induction l as [|x r IH]; simpl; [reflexivity|].
  rewrite K. destruct (eqb (key x) k); [reflexivity|exact IH].
Qed.

Lemma getTasks_updateTaskStatus (id : jsstring) (c : bool) (s : Storage.t) :
  getTasks (updateTaskStatus id c s)
  = map (fun t0 => if eqb (key t0) id then with_completed c t0 else t0)
        (getTasks s).
Proof. reflexivity. Qed.

Lemma status_key (id : jsstring) (c : bool) (t0 : Task.t) :
  key (if eqb (key t0) id then with_completed c t0 else t0) = key t0.
Proof. now destruct (eqb (key t0) id). Qed.

Lemma in_NoDup_lookup {T} `{Keyed T} (l : list T) (x y : T) :
  NoDup (keys l) -> In x l -> lookup (key x) l = Some y -> x = y.
Proof.
  intros ND I L. rewrite (PassFacts.lookup_in_NoDup l x ND I) in L.
  congruence.
Qed.

(** X2.  Changing the status of a task keeps the ids and their order, sets the
    flag of the task with that id and leaves every other task as it is;
    in a list with unique ids, toggling a task twice gives back the list. *)
Theorem toggleTask_twice (s : Storage.t) (id : jsstring) (c : bool) :
  keys (getTasks (TasksView.toggleTask id c s)) = keys (getTasks s)
  /\ lookup id (getTasks (TasksView.toggleTask id c s))
     = option_map (with_completed (negb c)) (lookup id (getTasks s))
  /\ (forall k, k <> id ->
        lookup k (getTasks (TasksView.toggleTask id c s))
        = lookup k (getTasks s))
  /\ (NoDup (keys (getTasks s)) ->
      forall t0, lookup id (getTasks s) = Some t0 ->
        getTasks (TasksView.toggleTask id (negb (Task.completed t0))
                    (TasksView.toggleTask id (Task.completed t0) s))
        = getTasks s).
Proof.
  unfold TasksView.toggleTask.
  split; [|split; [|split]].
  - rewrite getTasks_updateTaskStatus. apply keys_map_same.
    intros x. apply status_key.
  - rewrite getTasks_updateTaskStatus, lookup_map_same
      by (intros x; apply status_key).
    destruct (lookup id (getTasks s)) as [t0|] eqn:L; [|reflexivity].
    apply lookup_some in L. simpl. now rewrite (proj1 L), eqb_refl.
  - intros k N. rewrite getTasks_updateTaskStatus, lookup_map_same
      by (intros x; apply status_key).
    destruct (lookup k (getTasks s)) as [t0|] eqn:L; [|reflexivity].
    apply lookup_some in L. simpl.
    assert (E : eqb (key t0) id = false)
      by (apply eqb_neq; rewrite (proj1 L); exact N).
    now rewrite E.
  - intros ND t0 L. rewrite !getTasks_updateTaskStatus, map_map.
    rewrite <- (map_id (getTasks s)) at 2. apply map_ext_in.
    intros x I. rewrite !status_key.
    destruct (eqb (key x) id) eqn:E; [|reflexivity].
    apply eqb_eq in E. rewrite <- E in L.
    rewrite (in_NoDup_lookup (getTasks s) x t0 ND I L).
    rewrite negb_involutive. now destruct t0.
Qed.

Lemma toggleTask_twice_witness :
  let t0 := Sample.task "t1" "Buy milk" in
  let s := saveTasks [t0; Sample.task "t2" "Call mom"] Storage.empty in
  NoDup (keys (getTasks s))
  /\ lookup (str "t1") (getTasks s) = Some t0
  /\ getTasks (TasksView.toggleTask (str "t1") true
                 (TasksView.toggleTask (str "t1") false s))
     = getTasks s.
Proof.
  assert (ND : NoDup (keys (getTasks
                 (saveTasks [Sample.task "t1" "Buy milk";
                             Sample.task "t2" "Call mom"] Storage.empty))))
    by StorageFacts.nodup_by_computation.
  split; [exact ND|]. split; [reflexivity|].
  exact (proj2 (proj2 (proj2 (toggleTask_twice _ (str "t1") false))) ND
           (Sample.task "t1" "Buy milk") eq_refl).
Defined.

(** X3.  A title that is blank adds nothing.  Otherwise the new task is stored,
    pending, under the clock reading as its id, and every other id keeps
    its record; added under an id that was not in use and deleted again, it
    leaves the list as it was.  A deletion that is not confirmed changes
    nothing. *)
Theorem handleAddTask_stores env (title : jsstring) (s : Storage.t) :
  let id := show_Z (TasksView.now env) in
  let s' := TasksView.handleAddTask env title s in
  (trim title = [] -> s' = s)
  /\ (trim title <> [] ->
      (exists t0, lookup id (getTasks s') = Some t0
                  /\ Task.title t0 = Some title
                  /\ Task.completed t0 = false)
      /\ (forall k, k <> id -> lookup k (getTasks s') = lookup k (getTasks s))
      /\ (~ In id (keys (getTasks s)) ->
          getTasks (TasksView.handleDelete id true s') = getTasks s
          /\ TasksView.handleDelete id false s' = s')).
Proof.
  cbv zeta. unfold TasksView.handleAddTask. split.
  - intros B. now rewrite B.
  - intros NB. destruct (trim title) as [|c r] eqn:T; [congruence|].
    set (t1 := {| Task.id := show_Z (TasksView.now env);
                  Task.title := Some title; Task.completed := false;
                  Task.dueDate := Some (TasksView.nowISO env);
                  Task.linkedEntryId := None |}).
    split; [|split].
    + exists t1. rewrite StorageFacts.getTasks_saveTasks,
        StorageFacts.lookup_saveTasks_list. simpl.
      unfold lookup. simpl. now rewrite eqb_refl.
    + intros k N. rewrite StorageFacts.getTasks_saveTasks,
        StorageFacts.lookup_saveTasks_list.
      assert (E : eqb (key t1) k = false)
        by (apply eqb_neq; unfold t1, key, Keyed_task; simpl; congruence).
      unfold lookup at 1. cbn [rev app find]. fold (key t1).
      now rewrite E.
    + intros N. split; [|reflexivity].
      change (getTasks (TasksView.handleDelete (show_Z (TasksView.now env))
                          true (saveTasks [t1] s)))
        with (filter (fun x => negb (eqb (key x) (key t1)))
                     (saveTasks_step (getTasks s) t1)).
      rewrite StorageFacts.saveTasks_step_upsert, (upsert_absent t1 _ N).
      now apply filter_app_last.
Qed.

Lemma handleAddTask_stores_witness :
  let env := {| TasksView.now := 1700000000000;
                TasksView.nowISO := str "2023-11-14T22:13:20.000Z" |} in
  trim (str " Buy milk ") <> []
  /\ ~ In (str "1700000000000") (keys (getTasks Storage.empty))
  /\ getTasks (TasksView.handleDelete (str "1700000000000") true
                 (TasksView.handleAddTask env (str " Buy milk ") Storage.empty))
     = getTasks Storage.empty
  /\ (trim (str "   ") = []
      /\ TasksView.handleAddTask env (str "   ") Storage.empty = Storage.empty).
Proof.
  assert (NB : trim (str " Buy milk ") <> []) by (vm_compute; discriminate).
  assert (N : ~ In (str "1700000000000") (keys (getTasks Storage.empty)))
    by (simpl; tauto).
  split; [exact NB|]. split; [exact N|]. split.
  - exact (proj1 (proj2 (proj2 (proj2 (handleAddTask_stores
             {| TasksView.now := 1700000000000;
                TasksView.nowISO := str "2023-11-14T22:13:20.000Z" |}
             (str " Buy milk ") Storage.empty) NB)) N)).
  - split; [reflexivity|].
    exact (proj1 (handleAddTask_stores
             {| TasksView.now := 1700000000000;
                TasksView.nowISO := str "2023-11-14T22:13:20.000Z" |}
             (str "   ") Storage.empty) eq_refl).
Defined.

(** *** Writing a batch twice *)

Lemma filter_none {T} (f : T -> bool) (l : list T) :
  (forall x, In x l -> f x = false) -> filter f l = [].
Proof.
  induction l as [|x r IH]; simpl; intros H; [reflexivity|].
  rewrite (H x) by now left. apply IH. intros y I. apply H. now right.
Qed.

Lemma addCalendarEvents_list_twice (events current : list CalendarEvent.t) :
  addCalendarEvents_list events (addCalendarEvents_list events current)
  = addCalendarEvents_list events current.
Proof.
  unfold addCalendarEvents_list at 1. rewrite filter_none.
  - apply app_nil_r.
  - intros e I. apply negb_false_iff.
    unfold Arr.found, addCalendarEvents_list. rewrite existsb_app.
    destruct (existsb (fun c => eqb (CalendarEvent.id c) (CalendarEvent.id e))
                      current) eqn:F; [reflexivity|].
    simpl. apply existsb_exists. exists e. split.
    + apply filter_In. split; [exact I|]. unfold Arr.found. now rewrite F.
    + apply eqb_refl.
Qed.

(** Adding a batch of events a second time changes nothing, whatever the
    batch and whatever is stored. *)
Theorem addCalendarEvents_twice (events : list CalendarEvent.t) (s : Storage.t) :
  addCalendarEvents events (addCalendarEvents events s)
  = addCalendarEvents events s.
Proof.
  unfold addCalendarEvents at 1. rewrite StorageFacts.getCalendarEvents_addCalendarEvents.
  rewrite addCalendarEvents_list_twice. reflexivity.
Qed.

(** Two collections with the same ids in the same order, no id twice, and
    the same record under every id are equal. *)
Lemma keyed_ext {T} `{Keyed T} (l1 l2 : list T) :
  keys l1 = keys l2 -> NoDup (keys l1) ->
  (forall k, lookup k l1 = lookup k l2) -> l1 = l2.
Proof.
  revert l2. induction l1 as [|x r IH]; intros [|y r2] K ND L;
    try discriminate; [reflexivity|].
  unfold keys in K. simpl in K. injection K as Kx Kr.
  pose proof (L (key x)) as Lx. unfold lookup in Lx. simpl in Lx.
  rewrite eqb_refl, <- Kx, eqb_refl in Lx. injection Lx as Lx. subst y.
  f_equal. inversion ND as [|? ? Hx Hr]; subst.
  apply IH; [exact Kr|exact Hr|].
  intros k. specialize (L k). unfold lookup in L. simpl in L.
  destruct (eqb (key x) k) eqn:E; [|exact L].
  apply eqb_eq in E. subst k.
  assert (N1 : lookup (key x) r = None) by (apply lookup_none; exact Hx).
  assert (N2 : lookup (key x) r2 = None)
    by (apply lookup_none; unfold keys; rewrite <- Kr; exact Hx).
  now rewrite N1, N2.
Qed.

Lemma keys_saveTasks_list_present (tasks current : list Task.t) :
  (forall t0, In t0 tasks -> In (key t0) (keys current)) ->
  keys (saveTasks_list tasks current) = keys current.
Proof.
  unfold saveTasks_list. revert current.
  induction tasks as [|t0 r IH]; intros current P; simpl; [reflexivity|].
  assert (K : keys (saveTasks_step current t0) = keys current).
  { rewrite StorageFacts.saveTasks_step_upsert, keys_upsert.
    assert (E : existsb (same_key t0) current = true)
      by (apply StorageFacts.existsb_same_key; apply P; now left).
    now rewrite E. }
  rewrite IH; [exact K|].
  intros t1 I. rewrite K. apply P. now right.
Qed.

(** Saving a batch of tasks a second time changes nothing, in a list with
    unique ids. *)
Theorem saveTasks_twice (tasks : list Task.t) (s : Storage.t) :
  NoDup (keys (getTasks s)) ->
  saveTasks tasks (saveTasks tasks s) = saveTasks tasks s.
Proof.
  intros ND. unfold saveTasks at 1. rewrite StorageFacts.getTasks_saveTasks.
  unfold saveTasks.
  rewrite (keyed_ext (saveTasks_list tasks (saveTasks_list tasks (getTasks s)))
                     (saveTasks_list tasks (getTasks s))); [reflexivity| | |].
  - apply keys_saveTasks_list_present. intros t0 I.
    apply StorageFacts.keys_saveTasks_list. right. now apply in_map.
  - rewrite keys_saveTasks_list_present.
    + now apply StorageFacts.NoDup_saveTasks_list.
    + intros t0 I. apply StorageFacts.keys_saveTasks_list. right.
      now apply in_map.
  - intros k. rewrite !StorageFacts.lookup_saveTasks_list.
    now destruct (lookup k (rev tasks)).
Qed.

Lemma saveTasks_twice_witness :
  let batch := [Sample.task "t1" "Buy milk"; Sample.task "t1" "Buy oat milk"] in
  let s := saveTasks [Sample.task "t2" "Call mom"] Storage.empty in
  NoDup (keys (getTasks s))
  /\ saveTasks batch (saveTasks batch s) = saveTasks batch s.
Proof.
  assert (ND : NoDup (keys (getTasks
                 (saveTasks [Sample.task "t2" "Call mom"] Storage.empty))))
    by StorageFacts.nodup_by_computation.
  split; [exact ND|]. exact (saveTasks_twice _ _ ND).
Defined.

(** X4.  Saving the same batch a second time changes nothing: events whose id
    is stored are skipped, and tasks replace the tasks of their ids, which
    are their own copies, when the stored ids are unique. *)
Theorem batches_saved_twice (events : list CalendarEvent.t)
  (tasks : list Task.t) (s : Storage.t) :
  addCalendarEvents events (addCalendarEvents events s)
  = addCalendarEvents events s
  /\ (NoDup (keys (getTasks s)) ->
      saveTasks tasks (saveTasks tasks s) = saveTasks tasks s).
Proof.
  split; [apply addCalendarEvents_twice|apply saveTasks_twice].
Qed.

Lemma batches_saved_twice_witness :
  let batch := [Sample.task "t1" "Buy milk"; Sample.task "t1" "Buy oat milk"] in
  let s := saveTasks [Sample.task "t2" "Call mom"] Storage.empty in
  NoDup (keys (getTasks s))
  /\ saveTasks batch (saveTasks batch s) = saveTasks batch s.
Proof.
  cbv zeta.
  assert (ND : NoDup (keys (getTasks (saveTasks [Sample.task "t2" "Call mom"]
                                        Storage.empty))))
    by (vm_compute; repeat constructor; intros []).
  split; [exact ND|].
  exact (proj2 (batches_saved_twice []
                  [Sample.task "t1" "Buy milk"; Sample.task "t1" "Buy oat milk"]
                  (saveTasks [Sample.task "t2" "Call mom"] Storage.empty)) ND).
Defined.

(** *** Restoring a backup *)

(** X5.  A backup taken from one state and restored into any other state
    brings every collection of the first state back: entries, calendar
    events, tasks, transactions and both chat histories. *)
Theorem restore_elsewhere (ts : Z) (source target : Storage.t) :
  let s' := restoreData (getAllData ts source) target in
  getEntries s' = getEntries source
  /\ getCalendarEvents s' = getCalendarEvents source
  /\ getTasks s' = getTasks source
  /\ getTransactions s' = getTransactions source
  /\ getChatHistory PERSONAL s' = getChatHistory PERSONAL source
  /\ getChatHistory PROFESSIONAL s' = getChatHistory PROFESSIONAL source
  /\ getLastBackupTime s'
     = (if getLastBackupTime source =? 0
        then getLastBackupTime target else getLastBackupTime source).
Proof.
  repeat split.
  unfold restoreData, getAllData, getLastBackupTime at 1. simpl.
  destruct (getLastBackupTime source =? 0); reflexivity.
Qed.

(** A backup that lacks a collection leaves that collection of the target
    as it is, and replaces the ones it has. *)
Theorem restore_partial (data : Backup) (target : Storage.t) :
  let s' := restoreData data target in
  getEntries s' = match entries data with
                  | Some l => l | None => getEntries target end
  /\ getCalendarEvents s' = match calendar data with
                            | Some l => l | None => getCalendarEvents target end
  /\ getTasks s' = match tasks data with
                   | Some l => l | None => getTasks target end
  /\ getTransactions s' = match finance data with
                          | Some l => l | None => getTransactions target end
  /\ getChatHistory PERSONAL s'
     = match chatPersonal data with
       | Some l => l | None => getChatHistory PERSONAL target end
  /\ getChatHistory PROFESSIONAL s'
     = match chatProf data with
       | Some l => l | None => getChatHistory PROFESSIONAL target end.
Proof.
  destruct data as [e c t0 f cp cf lb tsmp]. cbv zeta.
  unfold restoreData, getEntries, getCalendarEvents, getTasks,
    getTransactions, getChatHistory. simpl.
  repeat split;
    match goal with
    | |- context [restore_cell ?o _] => destruct o; reflexivity
    end.
Qed.

End StorageMore.

(** ** More on the retry helper *)

Module RetryMore.

Import Gemini.

(** The shape of every run of the loop: [n] requests, the first [n - 1] of
    them answered by errors that are retried, one wait after each of these,
    and the answer to the last request as the result; the loop stops
    before its last turn only on an answer or on an error it does not
    retry. *)
Lemma loop_shape {T} (answers : nat -> Error.t + T) (retries : Z) (fuel : nat) :
  forall (i : Z) (w : World),
    (1 <= fuel)%nat -> retries = i + Z.of_nat fuel ->
    exists n : nat,
      (1 <= n <= fuel)%nat
      /\ runWithRetry_loop (request answers) retries i fuel w
         = ({| requests := requests w + n;
               slept := slept w
                        ++ map (wait_at answers (requests w) i) (seq 0 (n - 1)) |},
            answers (requests w + n - 1)%nat)
      /\ (forall k, (k < n - 1)%nat ->
            exists e, answers (requests w + k)%nat = inl e /\ retried e)
      /\ ((n < fuel)%nat ->
          forall e, answers (requests w + n - 1)%nat = inl e -> ~ retried e).
Proof.
  induction fuel as [|fuel IH]; intros i w F R; [lia|].
  simpl. unfold try_catch, request at 1.
  assert (one : forall r,
    answers (requests w) = r ->
    ((1 < S fuel)%nat -> forall e, r = inl e -> ~ retried e) ->
    exists n : nat,
      (1 <= n <= S fuel)%nat
      /\ ({| requests := S (requests w); slept := slept w |}, r)
         = ({| requests := requests w + n;
               slept := slept w
                        ++ map (wait_at answers (requests w) i) (seq 0 (n - 1)) |},
            answers (requests w + n - 1)%nat)
      /\ (forall k, (k < n - 1)%nat ->
            exists e, answers (requests w + k)%nat = inl e /\ retried e)
      /\ ((n < S fuel)%nat ->
          forall e, answers (requests w + n - 1)%nat = inl e -> ~ retried e)).
  { intros r A S1. exists 1%nat. split; [lia|].
    replace (requests w + 1 - 1)%nat with (requests w) by lia.
    split; [|split].
    - simpl. rewrite app_nil_r.
      replace (requests w + 1)%nat with (S (requests w)) by lia.
      now rewrite A.
    - intros k K. lia.
    - rewrite A. exact S1. }
  destruct (answers (requests w)) as [e|v] eqn:A;
    [|apply one; [reflexivity|intros _ e' C; discriminate]].
  destruct (isNotFound e) eqn:NF.
  { apply one; [reflexivity|]. intros _ e' C [N _]. congruence. }
  destruct (isRateLimit e || isServerIssue e) eqn:RT.
  2:{ apply one; [reflexivity|]. intros _ e' C [_ N]. congruence. }
  destruct (i <? retries - 1) eqn:I.
  2:{ apply one; [reflexivity|]. apply Z.ltb_ge in I. intros C. lia. }
  cbn [andb]. apply Z.ltb_lt in I.
  unfold bind, delay, exec. cbv beta iota zeta. cbn [requests slept].
  destruct (IH (i + 1)
              {| requests := S (requests w);
                 slept := slept w
                          ++ [(if isRateLimit e then 3000 else 2000) * 2 ^ i] |})
    as [n [Hn [E [P Q]]]]; [lia|lia|].
  cbn [requests slept] in E, P, Q.
  exists (S n). split; [lia|]. split; [|split].
  - rewrite E. f_equal.
    + f_equal; [lia|].
      rewrite <- app_assoc. f_equal.
      replace (S n - 1)%nat with (S (n - 1)) by lia.
      rewrite <- cons_seq. cbn [map app]. f_equal.
      * unfold wait_at, wait_after. rewrite Nat.add_0_r, A.
        now rewrite Z.add_0_r.
      * rewrite <- seq_shift, map_map. apply map_ext. intros k.
        unfold wait_at.
        replace (requests w + S k)%nat with (S (requests w) + k)%nat by lia.
        destruct (answers (S (requests w) + k)%nat); [|reflexivity].
        f_equal. lia.
    + f_equal. lia.
  - intros k K. destruct k as [|k].
    + exists e. rewrite Nat.add_0_r. split; [exact A|]. now split.
    + replace (requests w + S k)%nat with (S (requests w) + k)%nat by lia.
      apply P. lia.
  - intros L e' C.
    replace (requests w + S n - 1)%nat with (S (requests w) + n - 1)%nat in C
      by lia.
    apply (Q ltac:(lia) e' C).
Qed.

(** X6.  With three tries the helper sends between one and three requests, one
    wait between two requests and none after the last, and its outcome is
    the answer to the last request it sent: a value or the error of that
    very request.  A request is followed by another exactly when its answer
    is an error that is retried (rate limit or server issue, and not "not
    found") and fewer than three were sent. *)
Theorem retry_last_answer {T} (answers : nat -> Error.t + T) (w : World) :
  let outcome := runWithRetry (request answers) default_retries w in
  exists n : nat,
    (1 <= n <= 3)%nat
    /\ requests (fst outcome) = (requests w + n)%nat
    /\ (exists waits, slept (fst outcome) = slept w ++ waits
                      /\ length waits = (n - 1)%nat)
    /\ snd outcome = answers (requests w + n - 1)%nat
    /\ (forall k, (k < n - 1)%nat ->
          exists e, answers (requests w + k)%nat = inl e /\ retried e)
    /\ ((n < 3)%nat ->
        forall e, answers (requests w + n - 1)%nat = inl e -> ~ retried e).
Proof.
  cbv zeta. unfold runWithRetry, default_retries.
  change (Z.to_nat 3) with 3%nat.
  destruct (loop_shape answers 3 3 0 w ltac:(lia) ltac:(lia))
    as [n [Hn [E [P Q]]]].
  exists n. rewrite E. cbn [fst snd requests slept].
  split; [exact Hn|]. split; [reflexivity|]. split.
  - eexists. split; [reflexivity|]. now rewrite length_map, length_seq.
  - split; [reflexivity|]. split; [exact P|exact Q].
Qed.

Lemma wait_after_values (e : Error.t) :
  (wait_after e 0 = 2000 \/ wait_after e 0 = 3000)
  /\ (wait_after e 1 = 4000 \/ wait_after e 1 = 6000).
Proof.
  unfold wait_after. destruct (isRateLimit e); simpl; auto.
Qed.

(** The waits of a run of at most three requests. *)
Lemma waits_shape {T} (answers : nat -> Error.t + T) (r n : nat) :
  (1 <= n <= 3)%nat ->
  (forall k, (k < n - 1)%nat ->
     exists e, answers (r + k)%nat = inl e /\ retried e) ->
  let waits := map (wait_at answers r 0) (seq 0 (n - 1)) in
  (waits = []
   \/ (exists a, waits = [a] /\ (a = 2000 \/ a = 3000))
   \/ (exists a b, waits = [a; b] /\ (a = 2000 \/ a = 3000)
                    /\ (b = 4000 \/ b = 6000)))
  /\ 0 <= total waits <= 9000.
Proof.
  intros Hn P. cbv zeta.
  assert (C : n = 1%nat \/ n = 2%nat \/ n = 3%nat) by lia.
  destruct C as [C|[C|C]]; subst n; cbn [Nat.sub seq map].
  - split; [now left|]. simpl. lia.
  - destruct (P 0%nat ltac:(lia)) as [e0 [A0 _]].
    unfold wait_at. rewrite A0.
    destruct (wait_after_values e0) as [V0 _]. cbn [Z.of_nat Z.add].
    split.
    + right. left. eexists. split; [reflexivity|exact V0].
    + unfold total. simpl. destruct V0 as [V0|V0]; rewrite V0; lia.
  - destruct (P 0%nat ltac:(lia)) as [e0 [A0 _]].
    destruct (P 1%nat ltac:(lia)) as [e1 [A1 _]].
    unfold wait_at. rewrite A0, A1.
    destruct (wait_after_values e0) as [V0 _].
    destruct (wait_after_values e1) as [_ V1]. cbn [Z.of_nat Z.add].
    change (Z.pos (Pos.of_succ_nat 0)) with 1.
    split.
    + right. right. eexists. eexists.
      split; [reflexivity|]. split; [exact V0|exact V1].
    + unfold total. simpl.
      destruct V0 as [V0|V0], V1 as [V1|V1]; rewrite V0, V1; lia.
Qed.

(** X7.  With three tries the helper waits at most twice: 2000 or 3000 ms after
    the first failure and 4000 or 6000 ms after the second, so never longer
    than 9000 ms in all. *)
Theorem retry_wait_bound {T} (answers : nat -> Error.t + T) (w : World) :
  let outcome := runWithRetry (request answers) default_retries w in
  exists waits,
    slept (fst outcome) = slept w ++ waits
    /\ (waits = []
        \/ (exists a, waits = [a] /\ (a = 2000 \/ a = 3000))
        \/ (exists a b, waits = [a; b] /\ (a = 2000 \/ a = 3000)
                         /\ (b = 4000 \/ b = 6000)))
    /\ 0 <= total waits <= 9000.
Proof.
  cbv zeta. unfold runWithRetry, default_retries.
  change (Z.to_nat 3) with 3%nat.
  destruct (loop_shape answers 3 3 0 w ltac:(lia) ltac:(lia))
    as [n [Hn [E [P _]]]].
  rewrite E. cbn [fst requests slept].
  eexists. split; [reflexivity|].
  exact (waits_shape answers (requests w) n Hn P).
Qed.

End RetryMore.

(** ** More on the extraction client *)

Module ClientMore.

Import Gemini.

(** *** Code fences *)

Lemma trimStart_shorter (s : jsstring) :
  trimStart s = s \/ (length (trimStart s) < length s)%nat.
Proof.
  induction s as [|c r IH]; simpl; [now left|].
  destruct (is_space c); [|now left].
  right. destruct IH as [E|L]; [rewrite E|]; lia.
Qed.

Lemma trimStart_length (s : jsstring) :
  (length (trimStart s) <= length s)%nat.
Proof. destruct (trimStart_shorter s) as [E|L]; [rewrite E|]; lia. Qed.

Lemma trimEnd_length (s : jsstring) : (length (trimEnd s) <= length s)%nat.
Proof.
  unfold trimEnd. rewrite length_rev.
  pose proof (trimStart_length (rev s)) as L. now rewrite length_rev in L.
Qed.

(** A text that [trim] leaves alone has no white space at either end. *)
Lemma trim_fixed (s : jsstring) :
  trim s = s -> trimStart s = s /\ trimEnd s = s.
Proof.
  unfold trim. intros E.
  destruct (trimStart_shorter s) as [S|L].
  - rewrite S in E. now split.
  - exfalso. pose proof (trimEnd_length (trimStart s)) as L2.
    rewrite E in L2. lia.
Qed.

Lemma trimStart_head (c : N) (r : jsstring) :
  trimStart (c :: r) = c :: r -> is_space c = false.
Proof.
  simpl. destruct (is_space c); [|reflexivity].
  intros E. pose proof (trimStart_length r) as L. rewrite E in L.
  simpl in L. lia.
Qed.

Lemma startsWith_fence_app (b t : jsstring) :
  startsWith (b ++ 10%N :: t) (str "```") = startsWith b (str "```").
Proof.
  change (str "```") with [96%N; 96%N; 96%N].
  destruct b as [|x [|y [|z r]]]; cbn [startsWith app];
    change (96 =? 10)%N with false;
    repeat match goal with
           | |- context [(96 =? ?v)%N] =>
               is_var v; destruct (96 =? v)%N; cbn [andb]
           end; try reflexivity; try (destruct r; reflexivity).
Qed.

Lemma lower_backtick (y : N) : (lower 96 =? lower y)%N = (96 =? y)%N.
Proof.
  change (lower 96) with 96%N. unfold lower.
  destruct ((65 <=? y) && (y <=? 90))%N eqn:R; [|reflexivity].
  apply andb_true_iff in R. destruct R as [A B].
  apply N.leb_le in A, B.
  assert (E1 : (96 =? y + 32)%N = false) by (apply N.eqb_neq; lia).
  assert (E2 : (96 =? y)%N = false) by (apply N.eqb_neq; lia).
  now rewrite E1, E2.
Qed.

Lemma startsWith_ci_fence (s : jsstring) :
  startsWith s (str "```") = false ->
  startsWith_ci s (str "```json") = false.
Proof.
  change (str "```") with [96%N; 96%N; 96%N].
  change (str "```json") with [96%N; 96%N; 96%N; 106%N; 115%N; 111%N; 110%N].
  destruct s as [|x [|y [|z r]]]; cbn [startsWith startsWith_ci];
    rewrite ?lower_backtick;
    repeat match goal with
           | |- context [(96 =? ?v)%N] =>
               is_var v; destruct (96 =? v)%N; cbn [andb]
           end; try reflexivity; try discriminate;
    try (destruct r; discriminate).
Qed.

(** X8.  The client recovers what the model put between code fences: a text
    without white space at its ends and without a fence of its own at its
    start comes back as it is from between a [```json] line and a [```]
    line.  A text that neither starts nor ends with a fence is left alone. *)
Theorem unfence_fenced (body : jsstring) :
  (trim body = body -> startsWith body (str "```") = false ->
   unfence (fenced body) = body)
  /\ (startsWith body (str "```") = false ->
      startsWith (rev body) (str "```") = false ->
      unfence body = body).
Proof.
  split.
  - intros T F. destruct (trim_fixed body T) as [TS TE].
    unfold unfence, fenced, strip_open_json.
    change (startsWith_ci (str "```json" ++ 10%N :: body ++ 10%N :: str "```")
                          (str "```json")) with true.
    cbn iota.
    change (skipn 7 (str "```json" ++ 10%N :: body ++ 10%N :: str "```"))
      with (10%N :: body ++ 10%N :: str "```").
    change (trimStart (10%N :: body ++ 10%N :: str "```"))
      with (trimStart (body ++ 10%N :: str "```")).
    destruct body as [|c r]; [reflexivity|].
    pose proof (trimStart_head c r TS) as Hc.
    change ((c :: r) ++ 10%N :: str "```") with (c :: r ++ 10%N :: str "```").
    cbn [trimStart]. rewrite Hc.
    change (c :: r ++ 10%N :: str "```") with ((c :: r) ++ 10%N :: str "```").
    unfold strip_open. rewrite startsWith_fence_app, F.
    unfold strip_close.
    rewrite rev_app_distr.
    change (rev (10%N :: str "```")) with (str "```" ++ [10%N]).
    rewrite <- app_assoc.
    change (startsWith (str "```" ++ [10%N] ++ rev (c :: r)) (str "```"))
      with true.
    cbn iota.
    change (skipn 3 (str "```" ++ [10%N] ++ rev (c :: r)))
      with (10%N :: rev (c :: r)).
    change (trimStart (10%N :: rev (c :: r))) with (trimStart (rev (c :: r))).
    exact TE.
  - intros F R. unfold unfence, strip_open_json.
    rewrite (startsWith_ci_fence body F).
    unfold strip_open. rewrite F. unfold strip_close. now rewrite R.
Qed.

Lemma unfence_fenced_witness :
  let body := str "{ }" in
  trim body = body
  /\ startsWith body (str "```") = false
  /\ unfence (fenced body) = body.
Proof.
  split; [reflexivity|]. split; [reflexivity|].
  exact (proj1 (unfence_fenced (str "{ }")) eq_refl eq_refl).
Defined.

(** *** What one extraction call costs *)

Lemma total_app (a b : list Z) : total (a ++ b) = total a + total b.
Proof.
  unfold total. induction a as [|x r IH]; simpl; [reflexivity|].
  rewrite IH. lia.
Qed.

(** One [try] of the client: up to three requests, up to 9000 ms of
    waits, whatever comes back. *)
Lemma attempt_cost parse (service : Service) (m : Model) (w : World) :
  exists n waits,
    (1 <= n <= 3)%nat
    /\ requests (fst (attempt parse service m w)) = (requests w + n)%nat
    /\ slept (fst (attempt parse service m w)) = slept w ++ waits
    /\ 0 <= total waits <= 9000.
Proof.
  unfold attempt, bind, generate, generateContent, runWithRetry,
    default_retries.
  change (Z.to_nat 3) with 3%nat.
  destruct (RetryMore.loop_shape (service m) 3 3 0 w ltac:(lia) ltac:(lia))
    as [n [Hn [E [P _]]]].
  destruct (RetryMore.waits_shape (service m) (requests w) n Hn P) as [_ Tw].
  cbv zeta in Tw. rewrite E.
  exists n, (map (wait_at (service m) (requests w) 0) (seq 0 (n - 1))).
  destruct (service m (requests w + n - 1)%nat) as [e|t]; cbn [fst requests slept];
    auto.
Qed.

(** X9.  Without an API key the extraction call contacts nobody and returns the
    empty object.  With one it sends at most six requests, three per model,
    and waits at most 18000 ms in all. *)
Theorem extraction_cost parse (service : Service) (key : option jsstring)
  (w : World) :
  let outcome := generateEntryFromChat parse service key w in
  (truthy key = false ->
   outcome = (w, inr (JObj ExtractionResult.empty)))
  /\ (requests w <= requests (fst outcome) <= requests w + 6)%nat
  /\ (exists waits, slept (fst outcome) = slept w ++ waits
                    /\ 0 <= total waits <= 18000).
Proof.
  cbv zeta. unfold generateEntryFromChat.
  destruct (truthy key) eqn:K; cbn [negb].
  2:{ split; [reflexivity|]. split; [cbn [fst ret]; lia|].
      exists []. cbn [fst ret]. rewrite app_nil_r. simpl. split; [reflexivity|lia]. }
  split; [discriminate|].
  unfold try_catch.
  destruct (attempt_cost parse service MODEL_NAME w)
    as [n1 [w1s [H1 [R1 [S1 T1]]]]].
  destruct (attempt parse service MODEL_NAME w) as [w1 [e1|d1]];
    cbn [fst] in *.
  - destruct (attempt_cost parse service FALLBACK_MODEL w1)
      as [n2 [w2s [H2 [R2 [S2 T2]]]]].
    assert (G : forall r : Error.t + GeneratedData,
      (requests w <= requests (fst (fst (attempt parse service FALLBACK_MODEL w1), r))
       <= requests w + 6)%nat
      /\ exists waits,
           slept (fst (fst (attempt parse service FALLBACK_MODEL w1), r))
           = slept w ++ waits /\ 0 <= total waits <= 18000).
    { intros r. cbn [fst]. split; [lia|].
      exists (w1s ++ w2s). rewrite S2, S1, <- app_assoc, total_app.
      split; [reflexivity|lia]. }
    destruct (attempt parse service FALLBACK_MODEL w1) as [w2 [e2|d2]];
      cbn [fst ret] in *; [apply (G (inr (JObj ExtractionResult.empty)))
                          |apply (G (inr d2))].
  - split; [lia|]. exists w1s. split; [exact S1|lia].
Qed.

Lemma extraction_cost_witness :
  truthy None = false
  /\ generateEntryFromChat (fun _ => inr JNull) SampleErrors.down None start
     = (start, inr (JObj ExtractionResult.empty)).
Proof.
  split; [reflexivity|].
  exact (proj1 (extraction_cost (fun _ => inr JNull) SampleErrors.down None
                  start) eq_refl).
Defined.

(** X10.  When the first model is not found the client turns to the fallback
    model after that single request, without waiting: if the fallback
    answers at once, its parsed answer is the result, after two requests. *)
Theorem fallback_after_not_found parse (service : Service)
  (key : option jsstring) (w : World) (e : Error.t) (t : option jsstring)
  (d : GeneratedData) :
  truthy key = true ->
  service MODEL_NAME (requests w) = inl e ->
  NotFound e ->
  service FALLBACK_MODEL (S (requests w)) = inr t ->
  parse (unfence (or_else t (str "{}"))) = inr d ->
  generateEntryFromChat parse service key w
  = ({| requests := requests w + 2; slept := slept w |}, inr d).
Proof.
  intros K A1 NF A2 Pd. unfold generateEntryFromChat. rewrite K. cbn [negb].
  unfold try_catch, attempt, bind, generate, generateContent, runWithRetry,
    default_retries.
  change (Z.to_nat 3) with 3%nat.
  rewrite (RetryFacts.loop_not_found (service MODEL_NAME) 3 0 2 w e A1 NF).
  erewrite (RetryFacts.loop_success (service FALLBACK_MODEL) 3 0 2);
    [|cbn [requests]; exact A2].
  cbn [requests slept]. unfold unfence in Pd. rewrite Pd.
  repeat f_equal. lia.
Qed.

Lemma fallback_after_not_found_witness :
  let service : Service := fun m _ =>
    match m with
    | MODEL_NAME => inl SampleErrors.missing
    | FALLBACK_MODEL => inr (Some (fenced (str "{}")))
    end in
  let parse : jsstring -> Error.t + GeneratedData := fun text =>
    if JS.eqb text (str "{}") then inr (JObj ExtractionResult.empty)
    else inl (Error.make "Unexpected token") in
  NotFound SampleErrors.missing
  /\ generateEntryFromChat parse service (Some (str "key")) start
     = ({| requests := 2; slept := [] |}, inr (JObj ExtractionResult.empty)).
Proof.
  assert (N : NotFound SampleErrors.missing) by (vm_compute; reflexivity).
  split; [exact N|].
  exact (fallback_after_not_found _ _ (Some (str "key")) start
           SampleErrors.missing (Some (fenced (str "{}")))
           (JObj ExtractionResult.empty) eq_refl eq_refl N eq_refl eq_refl).
Defined.

End ClientMore.

(** ** More on the consolidation pass *)

Module PassMore.

Import Gemini App Pass.

(** *** What a pass leaves alone *)

Lemma stored_elsewhere env (s : State) r (st : Storage.t) :
  Storage.getChatHistory PERSONAL (stored env s r st)
  = Storage.getChatHistory PERSONAL st
  /\ Storage.getChatHistory PROFESSIONAL (stored env s r st)
     = Storage.getChatHistory PROFESSIONAL st
  /\ Storage.getLastBackupTime (stored env s r st)
     = Storage.getLastBackupTime st.
Proof.
  unfold stored.
  destruct (events env s r), (tasks env s r), (transactions env s r),
    (savesEntry s r); repeat split.
Qed.

(** The state a pass leaves, in each of its three outcomes. *)
Lemma storage_cases env (s : State) :
  storage (fst (handleAutoSync env s)) = storage s
  \/ exists r, storage (fst (handleAutoSync env s)) = stored env s r (storage s).
Proof.
  destruct (PassFacts.pending_dec s) as [P|NP].
  - destruct (PassFacts.extraction_returns env (world s)) as [w' [d E]].
    rewrite (PassFacts.handleAutoSync_pending env s w' d P E). cbn [fst storage].
    destruct d as [|r]; [now left|right; now exists r].
  - rewrite (PassFacts.handleAutoSync_idle env s NP). now left.
Qed.

Lemma lookup_upsert_other {T} `{Keyed T} (v : T) (l : list T) (k : jsstring) :
  k <> key v -> lookup k (upsert (same_key v) v l) = lookup k l.
Proof.
  intros N. rewrite lookup_upsert.
  assert (E : eqb (key v) k = false) by (apply eqb_neq; congruence).
  now rewrite E.
Qed.

Lemma lookup_rev_none {T} `{Keyed T} (k : jsstring) (l : list T) :
  ~ In k (keys l) -> lookup k (rev l) = None.
Proof.
  intros N. apply lookup_none. rewrite PassFacts.keys_rev.
  intros C. apply N. now apply in_rev.
Qed.

(** X11.  A pass never deletes a record and never touches the chat histories or
    the time of the last backup.  Transactions and events are only added at
    the end of their collections.  An entry or a task stored before the pass
    is as it was after it, unless its id is the batch identifier or the id
    of a task of this batch. *)
Theorem pass_frame env (s : State) :
  let before := storage s in
  let after := storage (fst (handleAutoSync env s)) in
  Storage.getChatHistory PERSONAL after = Storage.getChatHistory PERSONAL before
  /\ Storage.getChatHistory PROFESSIONAL after
     = Storage.getChatHistory PROFESSIONAL before
  /\ Storage.getLastBackupTime after = Storage.getLastBackupTime before
  /\ (exists added, Storage.getTransactions after
                    = Storage.getTransactions before ++ added)
  /\ (exists added, Storage.getCalendarEvents after
                    = Storage.getCalendarEvents before ++ added)
  /\ (forall k, In k (keys (Storage.getEntries before)) ->
                In k (keys (Storage.getEntries after)))
  /\ (forall k, In k (keys (Storage.getTasks before)) ->
                In k (keys (Storage.getTasks after)))
  /\ (forall k, k <> batchId env ->
        lookup k (Storage.getEntries after)
        = lookup k (Storage.getEntries before))
  /\ (forall k, (forall i, k <> batchId env ++ str "-task-" ++ show_nat i) ->
        lookup k (Storage.getTasks after)
        = lookup k (Storage.getTasks before)).
Proof.
  cbv zeta. destruct (storage_cases env s) as [E|[r E]]; rewrite E.
  - repeat split; auto; exists []; now rewrite app_nil_r.
  - destruct (stored_elsewhere env s r (storage s)) as [C1 [C2 C3]].
    split; [exact C1|]. split; [exact C2|]. split; [exact C3|].
    split; [exists (transactions env s r); apply PassFacts.stored_transactions|].
    split.
    { rewrite PassFacts.stored_events. eexists. reflexivity. }
    split.
    { intros k I. rewrite PassFacts.stored_entries.
      destruct (savesEntry s r); [|exact I].
      rewrite StorageFacts.saveEntry_list_upsert.
      apply keys_upsert_in. now right. }
    split.
    { intros k I. rewrite PassFacts.stored_tasks.
      apply StorageFacts.keys_saveTasks_list. now left. }
    split.
    { intros k N. rewrite PassFacts.stored_entries.
      destruct (savesEntry s r); [|reflexivity].
      rewrite StorageFacts.saveEntry_list_upsert.
      now apply lookup_upsert_other. }
    intros k N. rewrite PassFacts.stored_tasks,
      StorageFacts.lookup_saveTasks_list.
    rewrite lookup_rev_none; [reflexivity|].
    destruct (PassFacts.batch_ids_and_links env s r) as [K _].
    cbv zeta in K. rewrite K. rewrite in_map_iff.
    intros [i [Ei _]]. apply (N i). now symmetry.
Qed.

Lemma pass_frame_witness :
  let s := set_storage
             (Storage.saveEntry (Sample.entry "1" "Monday") Storage.empty)
             (SampleChat.fresh [SampleChat.says user "7" "Dinner with Sam"]) in
  let env := SampleChat.answering SampleResults.no_content in
  In (str "1") (keys (Storage.getEntries (storage s)))
  /\ In (str "1")
        (keys (Storage.getEntries (storage (fst (handleAutoSync env s))))).
Proof.
  cbv zeta.
  assert (K : In (str "1")
                 (keys (Storage.getEntries
                          (storage
                             (set_storage
                                (Storage.saveEntry (Sample.entry "1" "Monday")
                                   Storage.empty)
                                (SampleChat.fresh
                                   [SampleChat.says user "7" "Dinner with Sam"]))))))
    by (vm_compute; now left).
  split; [exact K|].
  destruct (pass_frame (SampleChat.answering SampleResults.no_content)
              (set_storage
                 (Storage.saveEntry (Sample.entry "1" "Monday") Storage.empty)
                 (SampleChat.fresh
                    [SampleChat.says user "7" "Dinner with Sam"])))
    as (_ & _ & _ & _ & _ & Kept & _).
  exact (Kept (str "1") K).
Defined.

(** *** The stream and its stored copy *)

Lemma pass_keeps_chat env (s : State) :
  Storage.getChatHistory PERSONAL (storage (fst (handleAutoSync env s)))
  = Storage.getChatHistory PERSONAL (storage s).
Proof.
  destruct (storage_cases env s) as [E|[r E]]; rewrite E; [reflexivity|].
  apply stored_elsewhere.
Qed.

Lemma step_keeps_copy (ev : Event) (s : State) :
  Storage.getChatHistory PERSONAL (storage s) = personalMessages s ->
  Storage.getChatHistory PERSONAL (storage (step ev s))
  = personalMessages (step ev s).
Proof.
  intros I. destruct ev as [m|msgs|env|env|messages env|k]; cbn [step].
  - reflexivity.
  - reflexivity.
  - rewrite (pass_keeps_chat env s), I. symmetry.
    apply (PassFacts.flush_cursor env s).
  - destruct (PassFacts.begin_cursor env s) as [M [St _]].
    now rewrite St, M.
  - destruct (PassFacts.begin_of_cursor messages env s) as [M [St _]].
    now rewrite St, M.
  - destruct (PassFacts.resume_cursor k s) as [M [_ [_ K]]].
    now rewrite K, M.
Qed.

Lemma run_keeps_copy (evs : list Event) (s : State) :
  Storage.getChatHistory PERSONAL (storage s) = personalMessages s ->
  Storage.getChatHistory PERSONAL (storage (run evs s))
  = personalMessages (run evs s).
Proof.
  revert s. induction evs as [|ev r IH]; intros s I; [exact I|].
  change (run (ev :: r) s) with (run r (step ev s)).
  apply IH. now apply step_keeps_copy.
Qed.

(** X12.  From the mounted state on, whatever messages arrive and whenever
    passes run, the stored chat history is the stream on the screen.  A
    reload therefore shows the same stream, with the cursor at its end:
    whatever was still waiting for a pass is never extracted. *)
Theorem stream_is_stored (st : Storage.t) (evs : list Event) :
  let s := run evs (mount st) in
  Storage.getChatHistory PERSONAL (storage s) = personalMessages s
  /\ personalMessages (mount (storage s)) = personalMessages s
  /\ processedCount (mount (storage s)) = length (personalMessages s)
  /\ forall env, handleAutoSync env (mount (storage s))
                 = (mount (storage s), inr tt).
Proof.
  cbv zeta.
  assert (I : Storage.getChatHistory PERSONAL (storage (run evs (mount st)))
              = personalMessages (run evs (mount st)))
    by (apply run_keeps_copy; reflexivity).
  split; [exact I|].
  split; [unfold mount at 1; cbn [personalMessages]; exact I|].
  split; [unfold mount at 1; cbn [processedCount]; now rewrite I|].
  intros env. apply PassFacts.handleAutoSync_idle.
  unfold pending, mount. cbn [personalMessages processedCount]. lia.
Qed.

(** *** Ids of different batches *)

Lemma digits_no_dash (u : Decimal.uint) : ~ In 45%N (digits u).
Proof.
  induction u; simpl; intros C; try contradiction;
    destruct C as [C|C]; try discriminate; auto.
Qed.

Lemma show_Z_no_dash (z : Z) : 0 <= z -> ~ In 45%N (show_Z z).
Proof.
  intros P. destruct z as [|p|p]; simpl.
  - intros [C|C]; [discriminate|contradiction].
  - apply digits_no_dash.
  - lia.
Qed.

Lemma show_Z_inj (a b : Z) : 0 <= a -> 0 <= b -> show_Z a = show_Z b -> a = b.
Proof.
  intros Pa Pb E. destruct a as [|p|p], b as [|q|q]; try lia; simpl in E.
  - exfalso. change [48%N] with (digits (Decimal.D0 Decimal.Nil)) in E.
    apply PassFacts.digits_inj in E.
    apply (DecimalPos.Unsigned.to_uint_nonzero q). now symmetry.
  - exfalso. change [48%N] with (digits (Decimal.D0 Decimal.Nil)) in E.
    apply PassFacts.digits_inj in E.
    now apply (DecimalPos.Unsigned.to_uint_nonzero p).
  - apply PassFacts.digits_inj, DecimalPos.Unsigned.to_uint_inj in E.
    now subst.
Qed.

(** A text is cut at its first dash in one way only. *)
Lemma cut_at_dash (l1 l2 r1 r2 : jsstring) :
  ~ In 45%N l1 -> ~ In 45%N l2 ->
  l1 ++ 45%N :: r1 = l2 ++ 45%N :: r2 -> l1 = l2 /\ r1 = r2.
Proof.
  revert l2. induction l1 as [|x l1 IH]; intros [|y l2] N1 N2 E; simpl in *.
  - injection E as E. now split.
  - injection E as E1 E2. exfalso. apply N2. now left.
  - injection E as E1 E2. exfalso. apply N1. now left.
  - injection E as E1 E2. subst y.
    destruct (IH l2) as [A B]; auto. now subst.
Qed.

Lemma batch_id_clock (a b : Z) (kind : string) (i j : nat) :
  0 <= a -> 0 <= b ->
  show_Z a ++ str ("-" ++ kind) ++ show_nat i
  = show_Z b ++ str ("-" ++ kind) ++ show_nat j ->
  a = b.
Proof.
  intros Pa Pb E.
  change (str ("-" ++ kind)) with (45%N :: str kind) in E.
  cbn [app] in E.
  apply cut_at_dash in E; try now apply show_Z_no_dash.
  apply show_Z_inj; tauto.
Qed.

(** X13.  Two passes whose clock readings differ derive records with different
    ids: no task, event or transaction of one has the id of a record of the
    same kind of the other, and their entries have different ids.  Within
    one pass the ids of each kind differ from record to record. *)
Theorem batches_do_not_collide (env1 env2 : Env) (s1 s2 : State)
  (r1 r2 : ExtractionResult.t) :
  0 <= now env1 -> 0 <= now env2 -> now env1 <> now env2 ->
  batchId env1 <> batchId env2
  /\ (forall k, In k (keys (tasks env1 s1 r1)) ->
                ~ In k (keys (tasks env2 s2 r2)))
  /\ (forall k, In k (keys (events env1 s1 r1)) ->
                ~ In k (keys (events env2 s2 r2)))
  /\ (forall k, In k (keys (transactions env1 s1 r1)) ->
                ~ In k (keys (transactions env2 s2 r2)))
  /\ NoDup (keys (tasks env1 s1 r1))
  /\ NoDup (keys (events env1 s1 r1))
  /\ NoDup (keys (transactions env1 s1 r1)).
Proof.
  intros P1 P2 D.
  destruct (PassFacts.batch_ids_and_links env1 s1 r1) as [T1 [V1 [X1 _]]].
  destruct (PassFacts.batch_ids_and_links env2 s2 r2) as [T2 [V2 [X2 _]]].
  cbv zeta in *. unfold batchId in *.
  split.
  { intros C. apply D. now apply show_Z_inj. }
  split; [|split; [|split]].
  - intros k I1 I2. rewrite T1 in I1. rewrite T2 in I2.
    apply in_map_iff in I1, I2.
    destruct I1 as [i [E1 _]], I2 as [j [E2 _]].
    apply D. apply (batch_id_clock _ _ "task-" i j P1 P2).
    change (str ("-" ++ "task-")) with (str "-task-"). congruence.
  - intros k I1 I2. rewrite V1 in I1. rewrite V2 in I2.
    apply in_map_iff in I1, I2.
    destruct I1 as [i [E1 _]], I2 as [j [E2 _]].
    apply D. apply (batch_id_clock _ _ "evt-" i j P1 P2).
    change (str ("-" ++ "evt-")) with (str "-evt-"). congruence.
  - intros k I1 I2. rewrite X1 in I1. rewrite X2 in I2.
    apply in_map_iff in I1, I2.
    destruct I1 as [i [E1 _]], I2 as [j [E2 _]].
    apply D. apply (batch_id_clock _ _ "tx-" i j P1 P2).
    change (str ("-" ++ "tx-")) with (str "-tx-"). congruence.
  - split; [apply PassFacts.tasks_NoDup|].
    split; [apply PassFacts.events_NoDup|].
    unfold transactions. destruct (ExtractionResult.transactions r1);
      [apply PassFacts.NoDup_keys_newTxs|constructor].
Qed.

Lemma batches_do_not_collide_witness :
  let env1 := SampleChat.answering SampleResults.undated in
  let env2 := {| service := service env1; JSON_parse := JSON_parse env1;
                 apiKey := apiKey env1; now := 1700000002500;
                 nowISO := nowISO env1; nowLocaleTime := nowLocaleTime env1 |} in
  let s := SampleChat.fresh [SampleChat.says user "1" "Coffee, 50 rupees"] in
  0 <= now env1 /\ 0 <= now env2 /\ now env1 <> now env2
  /\ batchId env1 <> batchId env2.
Proof.
  cbv zeta.
  assert (P1 : 0 <= now (SampleChat.answering SampleResults.undated))
    by (simpl; lia).
  split; [exact P1|]. split; [simpl; lia|]. split; [simpl; lia|].
  refine (proj1 (batches_do_not_collide _ _
                   (SampleChat.fresh [SampleChat.says user "1" "Coffee, 50 rupees"])
                   (SampleChat.fresh [SampleChat.says user "1" "Coffee, 50 rupees"])
                   SampleResults.undated SampleResults.undated P1 _ _));
    simpl; lia.
Defined.

(** *** The title of an entry *)

Lemma trimStart_head_nonspace (s : jsstring) (c : N) (r : jsstring) :
  trimStart s = c :: r -> is_space c = false.
Proof.
  induction s as [|x s IH]; simpl; [discriminate|].
  destruct (is_space x) eqn:E; [exact IH|].
  intros H. injection H as H1 H2. now subst.
Qed.

Lemma trimStart_suffix (s : jsstring) : exists sp, s = sp ++ trimStart s.
Proof.
  induction s as [|x s [sp IH]]; simpl; [now exists []|].
  destruct (is_space x); [|now exists []].
  exists (x :: sp). simpl. now rewrite <- IH.
Qed.

Lemma trimEnd_prefix (s : jsstring) : exists dropped, s = trimEnd s ++ dropped.
Proof.
  unfold trimEnd. destruct (trimStart_suffix (rev s)) as [sp E].
  exists (rev sp). rewrite <- rev_app_distr, <- E. now rewrite rev_involutive.
Qed.

Lemma trim_head_nonspace (s : jsstring) (c : N) (r : jsstring) :
  trim s = c :: r -> is_space c = false.
Proof.
  unfold trim. intros E.
  destruct (trimEnd_prefix (trimStart s)) as [d P]. rewrite E in P.
  simpl in P. now apply (trimStart_head_nonspace s c (r ++ d)).
Qed.

Lemma join_lines_head (p : jsstring) (rest : list jsstring) (c : N)
  (r : jsstring) :
  p = c :: r -> exists r', join_lines (p :: rest) = c :: r'.
Proof.
  intros E. subst p. destruct rest as [|q rest]; simpl; eauto.
Qed.

(** The user text of a slice never starts with white space or a line
    break. *)
Lemma join_nonempty_head (l : list jsstring) (c : N) (r : jsstring) :
  join_lines (filter nonempty l) = c :: r ->
  exists p r', In p l /\ p = c :: r'.
Proof.
  induction l as [|p l IH]; [discriminate|].
  destruct p as [|x p].
  - cbn [filter nonempty]. intros E. destruct (IH E) as (q & r' & I & Q).
    exists q, r'. split; [now right|exact Q].
  - cbn [filter nonempty]. intros E.
    destruct (join_lines_head (x :: p) (filter nonempty l) x p eq_refl)
      as [r' J].
    rewrite J in E. injection E as E1 E2. subst x.
    exists (c :: p), p. split; [now left|reflexivity].
Qed.

Lemma rawUserText_head (input : list ChatMessage.t) (c : N) (r : jsstring) :
  rawUserText_of input = c :: r -> is_space c = false.
Proof.
  unfold rawUserText_of. intros E.
  apply join_nonempty_head in E. destruct E as (p & r' & I & P).
  apply in_map_iff in I. destruct I as (m & F & _).
  rewrite P in F. exact (trim_head_nonspace _ c r' F).
Qed.

Lemma first_line_length (s : jsstring) : (length (first_line s) <= length s)%nat.
Proof.
  induction s as [|c r IH]; simpl; [lia|].
  destruct (c =? 10)%N; simpl; lia.
Qed.

Lemma first_line_single (s : jsstring) : ~ In 10%N (first_line s).
Proof.
  induction s as [|c r IH]; simpl; [tauto|].
  destruct (N.eqb_spec c 10); simpl; [tauto|].
  intros [C|C]; [congruence|contradiction].
Qed.

(** X14.  An entry never has an empty title.  A title the model gave, when not
    blank, is kept as it is.  Otherwise, with user text in the slice, the
    title is the first line of that text, cut after 50 code units and then
    followed by three dots: at most 53 code units; without user text it is
    "Photo Memory" when there is a picture. *)
Theorem title_never_empty env (s : State) (r : ExtractionResult.t) :
  let e := entry env s r in
  let raw := rawUserText_of (newInput s) in
  JournalEntry.title e <> []
  /\ (blank (ExtractionResult.title r) = false ->
      ExtractionResult.title r = Some (JournalEntry.title e))
  /\ (blank (ExtractionResult.title r) = true -> raw <> [] ->
      (length (JournalEntry.title e) <= 53)%nat
      /\ (JournalEntry.title e = first_line raw
          \/ JournalEntry.title e = firstn 50 (first_line raw) ++ str "..."))
  /\ (blank (ExtractionResult.title r) = true -> raw = [] -> media s <> [] ->
      JournalEntry.title e = str "Photo Memory").
Proof.
  cbv zeta. unfold entry. cbn [JournalEntry.title]. unfold finalTitle_of.
  set (raw := rawUserText_of (newInput s)).
  assert (FL : raw <> [] -> first_line raw <> []).
  { intros N. destruct raw as [|c t] eqn:R; [congruence|].
    pose proof (rawUserText_head (newInput s) c t R) as Hc.
    simpl. destruct (N.eqb_spec c 10) as [E|E]; [|discriminate].
    subst c. discriminate. }
  destruct (blank (ExtractionResult.title r)) eqn:B.
  - destruct (nonempty raw) eqn:NE.
    + assert (N : raw <> []) by (intros C; rewrite C in NE; discriminate).
      specialize (FL N).
      destruct (50 <? Z.of_nat (length (first_line raw))) eqn:L.
      * split; [|split; [discriminate|split]].
        { unfold substring0. intros C. apply app_eq_nil in C.
          destruct C as [_ C]. discriminate. }
        { intros _ _. split; [|now right].
          unfold substring0. rewrite length_app, length_firstn.
          change (length (str "...")) with 3%nat. lia. }
        { intros _ C. contradiction. }
      * apply Z.ltb_ge in L.
        split; [exact FL|]. split; [discriminate|]. split.
        { intros _ _. split; [lia|now left]. }
        { intros _ C. contradiction. }
    + assert (E : raw = []) by (destruct raw; [reflexivity|discriminate]).
      destruct (0 <? Z.of_nat (length (media s))) eqn:M.
      * split; [discriminate|]. split; [discriminate|]. split.
        { intros _ C. contradiction. }
        { reflexivity. }
      * split; [discriminate|]. split; [discriminate|]. split.
        { intros _ C. contradiction. }
        { intros _ _ C. apply PassFacts.media_nonempty in C. congruence. }
  - unfold blank in B. apply orb_false_iff in B. destruct B as [B1 B2].
    apply negb_false_iff in B1.
    destruct (ExtractionResult.title r) as [[|c t]|]; try discriminate.
    simpl. split; [discriminate|]. split; [reflexivity|].
    split; discriminate.
Qed.

Lemma title_never_empty_witness :
  let env := SampleChat.answering SampleResults.no_content in
  let s := SampleChat.fresh [SampleChat.picture "1" "Dinner with Sam"] in
  blank (ExtractionResult.title SampleResults.no_content) = true
  /\ rawUserText_of (newInput s) <> []
  /\ (length (JournalEntry.title (entry env s SampleResults.no_content)) <= 53)%nat.
Proof.
  cbv zeta.
  assert (N : rawUserText_of
                (newInput (SampleChat.fresh
                             [SampleChat.picture "1" "Dinner with Sam"])) <> [])
    by (vm_compute; discriminate).
  split; [reflexivity|]. split; [exact N|].
  exact (proj1 (proj1 (proj2 (proj2 (title_never_empty
           (SampleChat.answering SampleResults.no_content)
           (SampleChat.fresh [SampleChat.picture "1" "Dinner with Sam"])
           SampleResults.no_content))) eq_refl N)).
Defined.

End PassMore.

(** ** The chat view *)

Module ChatMore.

Import App ChatInterface.

Lemma flushes_keep_stream (flushes : list App.Env) (s : State) :
  personalMessages (run (map Flush flushes) s) = personalMessages s.
Proof.
  revert s. induction flushes as [|env r IH]; intros s; [reflexivity|].
  change (run (map Flush (env :: r)) s)
    with (run (map Flush r) (fst (handleAutoSync env s))).
  rewrite IH. apply (PassFacts.flush_cursor env s).
Qed.

Lemma update_is_append (m : ChatMessage.t) (h : list ChatMessage.t) (s : State) :
  personalMessages s = h ->
  updateCurrentChatMessages (h ++ [m]) s = appendMessage m s.
Proof. intros E. unfold updateCurrentChatMessages, appendMessage. now rewrite E. Qed.

(** X15.  A send is refused when the view is waiting for a reply, or when there
    is neither text (other than white space) nor an attachment: nothing
    changes then.  An accepted send clears the view and leaves the stream
    it started from followed by the user's message and exactly one reply,
    on the screen and in the stored chat history, whatever happened while
    the reply was awaited: the reply is written after the history captured
    at the start.  When only consolidation passes ran in the meantime, the
    send is the arrival of these two messages around the passes. *)
Theorem send_is_two_appends env (between : list Event) (v : View) (s : State) :
  let refused :=
    (negb (nonempty (trim (input v)))
     && match attachment v with Some _ => false | None => true end)
    || isTyping v in
  let u := newUserMsg env v in
  let outcome :=
    sendMessageToGemini env (personalMessages s ++ [u]) (input v) (attachment v) in
  let a := aiMsg env match outcome with
                     | inr responseText => responseText
                     | inl error => errorMsg_of error
                     end in
  let v' := fst (handleSend env between v s) in
  let s' := snd (handleSend env between v s) in
  (refused = true -> v' = v /\ s' = s)
  /\ (refused = false ->
      v' = {| input := []; isTyping := false; attachment := None |}
      /\ personalMessages s' = personalMessages s ++ [u; a]
      /\ Storage.getChatHistory PERSONAL (storage s')
         = personalMessages s ++ [u; a]
      /\ forall flushes, between = map Flush flushes ->
           let arrived := run (Append u :: between ++ [Append a]) s in
           s' = match outcome with
                | inr _ => arrived
                | inl error => fst (console_error error arrived)
                end).
Proof.
  cbv zeta. unfold handleSend.
  destruct ((negb (nonempty (trim (input v)))
             && match attachment v with Some _ => false | None => true end)
            || isTyping v) eqn:R.
  - split; [intros _; split; reflexivity|discriminate].
  - split; [discriminate|]. intros _. cbn [fst snd].
    set (u := newUserMsg env v).
    set (h := personalMessages s ++ [u]).
    split; [reflexivity|].
    assert (L : forall x : ChatMessage.t,
              personalMessages s ++ [u; x] = h ++ [x])
      by (intros x; unfold h; now rewrite <- app_assoc).
    split; [|split].
    + rewrite L. now destruct (sendMessageToGemini env h (input v) (attachment v)).
    + rewrite L. now destruct (sendMessageToGemini env h (input v) (attachment v)).
    + intros flushes B.
      assert (P : personalMessages
                    (run between (updateCurrentChatMessages h s)) = h)
        by (rewrite B; apply flushes_keep_stream).
      assert (U : updateCurrentChatMessages h s = appendMessage u s)
        by (apply update_is_append; reflexivity).
      assert (Rn : forall x, run (Append u :: between ++ [Append x]) s
                     = appendMessage x
                         (run between (updateCurrentChatMessages h s))).
      { intros x. change (run (Append u :: between ++ [Append x]) s)
          with (run (between ++ [Append x]) (appendMessage u s)).
        rewrite PassFacts.run_app, U. reflexivity. }
      destruct (sendMessageToGemini env h (input v) (attachment v)) as [e|t].
      * rewrite Rn. unfold console_error, exec. cbn [fst].
        unfold updateCurrentChatMessages at 1, appendMessage.
        unfold set_storage, set_personalMessages.
        cbn [personalMessages processedCount isAutoSaving storage world
             console_errors extractions].
        rewrite P. reflexivity.
      * rewrite Rn. now apply update_is_append.
Qed.

Lemma send_is_two_appends_witness :
  let env := SampleSend.answering "That sounds lovely." in
  let v := SampleSend.typed "Dinner with Sam" in
  let s := SampleChat.fresh [] in
  ((negb (nonempty (trim (input v)))
    && match attachment v with Some _ => false | None => true end)
   || isTyping v) = false
  /\ personalMessages (snd (handleSend env [] v s))
     = [newUserMsg env v; aiMsg env (str "That sounds lovely.")].
Proof.
  cbv zeta. split; [reflexivity|].
  exact (proj1 (proj2 (proj2 (send_is_two_appends
           (SampleSend.answering "That sounds lovely.") []
           (SampleSend.typed "Dinner with Sam") (SampleChat.fresh []))
           eq_refl))).
Defined.

(** *** The tag of an attachment *)

Lemma match_tag_no_bracket (c : N) (r : jsstring) :
  c <> 91%N -> match_attachment_tag (c :: r) = None.
Proof.
  intros N. unfold match_attachment_tag.
  change (str "[Attachment:") with (91%N :: str "Attachment:").
  cbn [startsWith_ci].
  assert (E : (lower 91 =? lower c)%N = false).
  { change (lower 91) with 91%N. unfold lower.
    destruct ((65 <=? c) && (c <=? 90))%N eqn:U; apply N.eqb_neq.
    - apply andb_true_iff in U. destruct U as [U1 U2].
      apply N.leb_le in U1. apply N.leb_le in U2. lia.
    - congruence. }
  now rewrite E.
Qed.

Lemma strip_no_bracket (s t : jsstring) :
  ~ In 91%N s ->
  strip_tags_from 0 (s ++ t) = s ++ strip_tags_from 0 t.
Proof.
  induction s as [|c r IH]; intros N; [reflexivity|].
  cbn [app strip_tags_from].
  rewrite match_tag_no_bracket by (intros C; apply N; now left).
  rewrite IH by (intros C; apply N; now right). reflexivity.
Qed.

Lemma strip_skip (a b : jsstring) :
  strip_tags_from (length a) (a ++ b) = strip_tags_from 0 b.
Proof.
  induction a as [|c r IH]; [now destruct b|]. exact IH.
Qed.

Lemma lazy_to_bracket_name (n rest : jsstring) :
  ~ In 93%N n -> Forall (fun c => is_line_terminator c = false) n ->
  lazy_to_bracket (n ++ 93%N :: rest) = Some (S (length n)).
Proof.
  induction n as [|c r IH]; intros N L; [reflexivity|].
  cbn [app lazy_to_bracket length].
  assert (E : (c =? 93)%N = false)
    by (apply N.eqb_neq; intros C; apply N; now left).
  rewrite E. inversion L as [|? ? Lc Lr]; subst. rewrite Lc.
  rewrite IH by (auto; intros C; apply N; now right). reflexivity.
Qed.

Lemma match_written_tag (n : jsstring) :
  ~ In 93%N n -> Forall (fun c => is_line_terminator c = false) n ->
  match_attachment_tag (91%N :: str "Attachment: " ++ n ++ [93%N])
  = Some (S (length (str "Attachment: " ++ n ++ [93%N]))).
Proof.
  intros N L. unfold match_attachment_tag.
  assert (P : startsWith_ci (91%N :: str "Attachment: " ++ n ++ [93%N])
                            (str "[Attachment:") = true)
    by (vm_compute; reflexivity).
  rewrite P.
  assert (K : skipn (length (str "[Attachment:"))
                    (91%N :: str "Attachment: " ++ n ++ [93%N])
              = (32%N :: n) ++ [93%N]) by (vm_compute; reflexivity).
  rewrite K, lazy_to_bracket_name.
  - assert (L1 : length (str "[Attachment:") = 12%nat)
      by (vm_compute; reflexivity).
    assert (L2 : length (str "Attachment: ") = 12%nat)
      by (vm_compute; reflexivity).
    cbn [option_map]. rewrite !length_app, L1, L2.
    cbn [length]. f_equal. lia.
  - intros [C|C]; [discriminate|contradiction].
  - constructor; [vm_compute; reflexivity|exact L].
Qed.

Lemma strip_from_bracket (r : jsstring) (k : nat) :
  match_attachment_tag (91%N :: r) = Some (S k) ->
  strip_tags_from 0 (91%N :: r) = strip_tags_from k r.
Proof. intros M. cbn [strip_tags_from]. now rewrite M. Qed.

(** The tag [handleSend] writes is what the pass deletes, when the name of
    the file has no closing bracket and no line break. *)
Lemma strip_written_tag (n : jsstring) :
  ~ In 93%N n -> Forall (fun c => is_line_terminator c = false) n ->
  strip_tags_from 0 (str "[Attachment: " ++ n ++ str "]") = [].
Proof.
  intros N L.
  assert (T : str "[Attachment: " ++ n ++ str "]"
              = 91%N :: (str "Attachment: " ++ n ++ [93%N]))
    by (vm_compute; reflexivity).
  rewrite T.
  rewrite (strip_from_bracket _ _ (match_written_tag n N L)).
  rewrite <- (app_nil_r (str "Attachment: " ++ n ++ [93%N])) at 2.
  apply strip_skip.
Qed.

Lemma trimStart_app (s t : jsstring) :
  trimStart (s ++ t)
  = match trimStart s with
    | [] => trimStart t
    | c :: r => (c :: r) ++ t
    end.
Proof.
  induction s as [|c r IH]; [reflexivity|].
  cbn [app trimStart]. destruct (is_space c); [exact IH|reflexivity].
Qed.

Lemma trim_line_feed (s : jsstring) : trim (s ++ [10%N]) = trim s.
Proof.
  unfold trim. rewrite trimStart_app.
  destruct (trimStart s) as [|c r]; [reflexivity|].
  unfold trimEnd. rewrite rev_app_distr. reflexivity.
Qed.

Lemma strip_cons_other (c : N) (r : jsstring) :
  c <> 91%N -> strip_tags_from 0 (c :: r) = c :: strip_tags_from 0 r.
Proof.
  intros N. cbn [strip_tags_from]. now rewrite match_tag_no_bracket.
Qed.

Lemma strip_tagged_text (typed n : jsstring) :
  ~ In 91%N typed ->
  ~ In 93%N n -> Forall (fun c => is_line_terminator c = false) n ->
  strip_attachment_tags (typed ++ 10%N :: str "[Attachment: " ++ n ++ str "]")
  = typed ++ [10%N].
Proof.
  intros N Nn Ln. unfold strip_attachment_tags.
  rewrite strip_no_bracket by exact N.
  rewrite strip_cons_other by discriminate.
  now rewrite (strip_written_tag n Nn Ln).
Qed.

Lemma strip_plain_text (typed : jsstring) :
  ~ In 91%N typed -> strip_attachment_tags typed = typed.
Proof.
  intros N. unfold strip_attachment_tags.
  rewrite <- (app_nil_r typed) at 1.
  rewrite strip_no_bracket by exact N. apply app_nil_r.
Qed.

Lemma rawUserText_one (m : ChatMessage.t) :
  ChatMessage.role m = user ->
  rawUserText_of [m] = trim (strip_attachment_tags (ChatMessage.text m)).
Proof.
  intros R. unfold rawUserText_of. cbn [filter]. unfold is_user. rewrite R.
  cbn [map filter].
  now destruct (trim (strip_attachment_tags (ChatMessage.text m))).
Qed.

(** X16.  What the user typed reaches the consolidation pass as it was typed,
    without the tag of the attachment and without white space around it,
    when the text has no opening bracket and the name of the attached file
    has neither a closing bracket nor a line break. *)
Theorem typed_text_survives_tagging env (v : View) :
  ~ In 91%N (input v) ->
  (forall a, attachment v = Some a ->
     ~ In 93%N (name a)
     /\ Forall (fun c => is_line_terminator c = false) (name a)) ->
  rawUserText_of [newUserMsg env v] = trim (input v).
Proof.
  intros N A. rewrite rawUserText_one by reflexivity.
  unfold newUserMsg. cbn [ChatMessage.text].
  destruct (attachment v) as [a|].
  - destruct (A a eq_refl) as [Nn Ln].
    rewrite (strip_tagged_text (input v) (name a) N Nn Ln).
    apply trim_line_feed.
  - now rewrite (strip_plain_text (input v) N).
Qed.

Lemma typed_text_survives_tagging_witness :
  let env := SampleSend.answering "That sounds lovely." in
  let v := SampleSend.with_picture "  Dinner with Sam " "dinner.jpg" in
  ~ In 91%N (input v)
  /\ rawUserText_of [newUserMsg env v] = str "Dinner with Sam".
Proof.
  cbv zeta.
  assert (N : ~ In 91%N (input (SampleSend.with_picture "  Dinner with Sam "
                                   "dinner.jpg"))).
  { vm_compute. intros C.
    repeat (destruct C as [C|C]; [discriminate|]). exact C. }
  split; [exact N|].
  refine (eq_trans (typed_text_survives_tagging
            (SampleSend.answering "That sounds lovely.")
            (SampleSend.with_picture "  Dinner with Sam " "dinner.jpg") N _) _).
  - intros a E. injection E as E. subst a. split.
    + vm_compute. intros C.
      repeat (destruct C as [C|C]; [discriminate|]). exact C.
    + vm_compute. repeat constructor.
  - vm_compute. reflexivity.
Defined.

End ChatMore.

(** ** The chat functions *)

Module ChatFunctions.

Import Gemini GeminiChat.

(** A retried request sends between one and three requests. *)
Lemma retry_requests {T} (answers : nat -> Error.t + T) (w : World) :
  exists n : nat,
    (1 <= n <= 3)%nat
    /\ requests (fst (runWithRetry (request answers) default_retries w))
       = (requests w + n)%nat.
Proof.
  unfold runWithRetry, default_retries. change (Z.to_nat 3) with 3%nat.
  destruct (RetryMore.loop_shape answers 3 3 0 w ltac:(lia) ltac:(lia))
    as [n [Hn [E _]]].
  exists n. rewrite E. split; [exact Hn|reflexivity].
Qed.

(** A retried operation that throws before it sends anything sends
    nothing. *)
Lemma loop_throw_requests {T} (e : Error.t) (retries : Z) (fuel : nat) :
  forall (i : Z) (w : World),
    requests (fst (runWithRetry_loop (T := T) (throw e) retries i fuel w))
    = requests w
    /\ exists e', snd (runWithRetry_loop (T := T) (throw e) retries i fuel w)
                  = inl e'.
Proof.
  induction fuel as [|fuel IH]; intros i w.
  - split; [reflexivity|eexists; reflexivity].
  - destruct (IH (i + 1)
                {| requests := requests w;
                   slept := slept w
                            ++ [(if isRateLimit e then 3000 else 2000) * 2 ^ i] |})
      as [R X].
    cbn [runWithRetry_loop]. unfold try_catch.
    change (@throw World T e w) with (w, @inl Error.t T e).
    cbv beta iota.
    destruct (isNotFound e); [split; [reflexivity|eexists; reflexivity]|].
    destruct ((isRateLimit e || isServerIssue e) && (i <? retries - 1));
      [|split; [reflexivity|eexists; reflexivity]].
    unfold bind, delay, exec. cbv beta iota zeta.
    split; [exact R|exact X].
Qed.

Lemma or_else_nonempty (o : option jsstring) (d : jsstring) :
  d <> [] -> or_else o d <> [].
Proof. intros N. destruct o as [[|c r]|]; simpl; auto; discriminate. Qed.

(** *** The records of the prompts *)

Lemma forallb_firstn {T} (p : T -> bool) (n : nat) (l : list T) :
  forallb p l = true -> forallb p (firstn n l) = true.
Proof.
  revert n. induction l as [|x r IH]; intros [|n]; simpl; try reflexivity.
  intros H. apply andb_true_iff in H. destruct H as [Hx Hr].
  rewrite Hx. now apply IH.
Qed.

Lemma forallb_map_const {A B} (p : B -> bool) (f : A -> B) (l : list A) :
  (forall x, p (f x) = true) -> forallb p (map f l) = true.
Proof. intros H. induction l as [|x r IH]; simpl; [reflexivity|]. now rewrite H. Qed.

Lemma objects_map_some {A B} (f : A -> B) (l : list A) :
  Read.objects (map (fun x => Some (f x)) l) = Some (map f l).
Proof. induction l as [|x r IH]; simpl; [reflexivity|]. now rewrite IH. Qed.

(** The entries the application wrote itself have their tags. *)
Lemma own_entries_join (es : list JournalEntry.t) :
  forallb entry_joins (firstn 15 (map Read.of_entry es)) = true.
Proof. apply forallb_firstn, forallb_map_const. reflexivity. Qed.

(** The transactions the application wrote itself have their date. *)
Lemma own_transactions_split (xs : list FinanceTransaction.t) :
  forallb transaction_splits (firstn 50 (map Read.of_transaction xs)) = true.
Proof. apply forallb_firstn, forallb_map_const. reflexivity. Qed.

(** The tasks, events and entries the application wrote itself let the
    system instruction of the main chat be built, the order of the sort
    being any order of the entries. *)
Lemma own_records_build (newest_first : list Read.entry -> list Read.entry)
  (es : list JournalEntry.t) (ts : list Task.t) (evs : list CalendarEvent.t) :
  (forall l x, In x (newest_first l) -> In x l) ->
  pendingTasks_built (map Read.of_task ts)
  && upcomingEvents_built (map Read.of_event evs)
  && recentLogs_built newest_first (map Read.of_entry es) = true.
Proof.
  intros Sub. unfold pendingTasks_built, upcomingEvents_built, recentLogs_built.
  unfold Read.of_task, Read.of_event, Read.of_entry.
  rewrite !objects_map_some.
  rewrite !andb_true_iff. split; [split; [|reflexivity]|].
  - apply forallb_firstn, forallb_forall. intros x I.
    apply filter_In in I. destruct I as [I _].
    apply in_map_iff in I. destruct I as [t0 [E _]]. subst x.
    unfold dueDate_splits. cbn [Read.dueDate].
    now destruct (Task.dueDate t0).
  - apply forallb_firstn, forallb_forall. intros x I.
    apply Sub in I. apply in_map_iff in I. destruct I as [e [E _]].
    now subst x.
Qed.

(** *** The chat of the main view *)

(** The two tries of the main chat, once the system instruction is
    built. *)
Lemma chat_tries (service : ChatService) (typeError : Error.t)
  (newest_first : list Read.entry -> list Read.entry)
  (apiKey : option jsstring) (newMessage : jsstring)
  (entries : list (option Read.entry)) (tasks : list (option Read.task))
  (calendarEvents : list (option Read.event)) (w : World) :
  truthy apiKey = true ->
  pendingTasks_built tasks && upcomingEvents_built calendarEvents
  && recentLogs_built newest_first entries = true ->
  let outcome :=
    sendMessageToGemini service typeError newest_first apiKey newMessage
      entries tasks calendarEvents w in
  (requests w <= requests (fst outcome) <= requests w + 6)%nat
  /\ (forall responseText, snd outcome = inr responseText -> responseText <> [])
  /\ (forall error, snd outcome = inl error ->
        (requests w + 2 <= requests (fst outcome))%nat).
Proof.
  intros K B. cbv zeta.
  remember (sendMessageToGemini service typeError newest_first apiKey
              newMessage entries tasks calendarEvents w) as o eqn:O.
  unfold sendMessageToGemini in O. rewrite K in O. cbn [negb] in O.
  unfold bind at 1 in O. unfold build_systemInstruction in O.
  rewrite B in O. cbn [ret] in O.
  unfold try_catch at 1 in O. unfold bind at 1 in O.
  unfold generateResponse at 1 in O.
  destruct (retry_requests (service true MODEL_NAME) w) as [n1 [H1 R1]].
  destruct (runWithRetry (request (service true MODEL_NAME)) default_retries w)
    as [w1 [error|result]]; cbn [fst] in R1.
  - (* the first model failed: the fallback is asked in both branches *)
    assert (F : forall d : jsstring, d <> [] ->
      let o := try_catch
                 (fallbackResult <- generateResponse service false FALLBACK_MODEL ;;
                  ret (or_else (text fallbackResult) d))%eff
                 (fun finalError => throw finalError) w1 in
      (requests w <= requests (fst o) <= requests w + 6)%nat
      /\ (forall t, snd o = inr t -> t <> [])
      /\ (forall e, snd o = inl e ->
            (requests w + 2 <= requests (fst o))%nat)).
    { intros d Nd. cbv zeta. unfold try_catch, bind, generateResponse.
      destruct (retry_requests (service false FALLBACK_MODEL) w1)
        as [n2 [H2 R2]].
      destruct (runWithRetry (request (service false FALLBACK_MODEL))
                  default_retries w1) as [w2 [e2|r2]];
        cbn [fst snd ret throw] in *.
      - split; [lia|]. split; [discriminate|]. intros e _. lia.
      - split; [lia|]. split.
        + intros t E. injection E as E. subst t. now apply or_else_nonempty.
        + intros e E. discriminate. }
    cbv zeta in F.
    match type of O with
    | context [if ?c then _ else _] => destruct c
    end; subst o; apply F; discriminate.
  - (* the first model answered *)
    destruct (truthy (text result)) eqn:Tx; cbn [negb] in O.
    2:{ subst o. cbn [ret fst snd]. split; [lia|]. split.
        - intros t E. injection E as E. subst t. discriminate.
        - intros e E. discriminate. }
    assert (N : or_else (text result) [] <> []).
    { destruct (text result) as [[|c r]|]; discriminate. }
    destruct (showSources_of newMessage
              && (0 <? Z.of_nat (length (sources result))));
      subst o; cbn [ret fst snd]; (split; [lia|]); split.
    + intros t E. injection E as E. subst t. intros C.
      apply app_eq_nil in C. destruct C as [C _]. contradiction.
    + intros e E. discriminate.
    + intros t E. injection E as E. now subst t.
    + intros e E. discriminate.
Qed.

(** X17.  Without an API key the chat function throws "MISSING_API_KEY" and
    sends nothing.  With one it first builds its system instruction from
    the tasks, events and entries it is given, and a record on which a
    template fails makes it throw the [TypeError] before anything is sent:
    a [null] element, a pending task among the first fifteen whose due
    date is truthy and no string, or an entry among the three newest whose
    content is no string.  The records the application wrote itself never
    do so.  Once the instruction is built at most six requests are sent, a
    text that is returned is never empty, and the function throws only
    after the fallback model was asked as well, whatever the error of the
    first model was. *)
Theorem chat_reply_never_empty (service : ChatService) (typeError : Error.t)
  (newest_first : list Read.entry -> list Read.entry)
  (apiKey : option jsstring) (newMessage : jsstring)
  (entries : list (option Read.entry)) (tasks : list (option Read.task))
  (calendarEvents : list (option Read.event)) (w : World) :
  let outcome :=
    sendMessageToGemini service typeError newest_first apiKey newMessage
      entries tasks calendarEvents w in
  let built :=
    pendingTasks_built tasks && upcomingEvents_built calendarEvents
    && recentLogs_built newest_first entries in
  (truthy apiKey = false ->
   outcome = (w, inl (Error.make "MISSING_API_KEY")))
  /\ (truthy apiKey = true -> built = false -> outcome = (w, inl typeError))
  /\ (requests w <= requests (fst outcome) <= requests w + 6)%nat
  /\ (forall responseText, snd outcome = inr responseText -> responseText <> [])
  /\ (truthy apiKey = true -> built = true ->
      forall error, snd outcome = inl error ->
        (requests w + 2 <= requests (fst outcome))%nat)
  /\ (forall es ts evs,
        (forall l x, In x (newest_first l) -> In x l) ->
        entries = map Read.of_entry es ->
        tasks = map Read.of_task ts ->
        calendarEvents = map Read.of_event evs ->
        built = true).
Proof.
  cbv zeta.
  assert (NoKey : truthy apiKey = false ->
            sendMessageToGemini service typeError newest_first apiKey
              newMessage entries tasks calendarEvents w
            = (w, inl (Error.make "MISSING_API_KEY"))).
  { intros K. unfold sendMessageToGemini. now rewrite K. }
  assert (NotBuilt : truthy apiKey = true ->
            pendingTasks_built tasks && upcomingEvents_built calendarEvents
            && recentLogs_built newest_first entries = false ->
            sendMessageToGemini service typeError newest_first apiKey
              newMessage entries tasks calendarEvents w
            = (w, inl typeError)).
  { intros K B. unfold sendMessageToGemini. rewrite K. cbn [negb].
    unfold bind at 1. unfold build_systemInstruction. now rewrite B. }
  split; [exact NoKey|]. split; [exact NotBuilt|].
  destruct (truthy apiKey) eqn:K.
  - destruct (pendingTasks_built tasks && upcomingEvents_built calendarEvents
              && recentLogs_built newest_first entries) eqn:B.
    + destruct (chat_tries service typeError newest_first apiKey newMessage
                  entries tasks calendarEvents w K B) as [C1 [C2 C3]].
      split; [exact C1|]. split; [exact C2|]. split; [intros _ _; exact C3|].
      reflexivity.
    + rewrite (NotBuilt eq_refl eq_refl). cbn [fst snd].
      split; [lia|]. split; [discriminate|]. split; [discriminate|].
      intros es ts evs Sub Ee Et Ev. subst entries tasks calendarEvents.
      rewrite <- B. now apply own_records_build.
  - rewrite (NoKey eq_refl). cbn [fst snd].
    split; [lia|]. split; [discriminate|]. split; [discriminate|].
    intros es ts evs Sub Ee Et Ev. subst entries tasks calendarEvents.
    now apply own_records_build.
Qed.

Lemma chat_reply_never_empty_witness :
  let service : ChatService := fun _ _ _ =>
    inr {| text := Some (str "That sounds lovely."); sources := [] |} in
  let typeError := Error.make "Cannot read properties of undefined" in
  let no_content : option Read.entry :=
    Some {| Read.content := Read.NoText false; Read.tags := Some [] |} in
  sendMessageToGemini service typeError (fun l => l) None (str "hello")
    [] [] [] start
  = (start, inl (Error.make "MISSING_API_KEY"))
  /\ sendMessageToGemini service typeError (fun l => l) (Some (str "key"))
       (str "hello") [no_content] [] [] start
     = (start, inl typeError)
  /\ sendMessageToGemini service typeError (fun l => l) (Some (str "key"))
       (str "hello") [Read.of_entry (Sample.entry "1" "Monday")] [] [] start
     = ({| requests := 1; slept := [] |}, inr (str "That sounds lovely.")).
Proof.
  cbv zeta.
  set (service := (fun _ _ _ =>
         inr {| text := Some (str "That sounds lovely."); sources := [] |})
       : ChatService).
  set (typeError := Error.make "Cannot read properties of undefined").
  set (no_content := Some {| Read.content := Read.NoText false;
                             Read.tags := Some [] |}).
  split; [|split].
  - exact (proj1 (chat_reply_never_empty service typeError (fun l => l) None
                    (str "hello") [] [] [] start) eq_refl).
  - exact (proj1 (proj2 (chat_reply_never_empty service typeError (fun l => l)
                           (Some (str "key")) (str "hello") [no_content] [] []
                           start)) eq_refl eq_refl).
  - vm_compute. reflexivity.
Defined.

(** *** The window of history *)

Lemma slice_last_snoc {T} (n : nat) (h : list T) (u : T) :
  slice_last (S n) (h ++ [u]) = slice_last n h ++ [u].
Proof.
  unfold slice_last. rewrite length_app. cbn [length].
  replace (length h + 1 - S n)%nat with (length h - n)%nat by lia.
  rewrite skipn_app.
  replace (length h - n - length h)%nat with 0%nat by lia.
  reflexivity.
Qed.

Lemma but_last_snoc {T} (l : list T) (u : T) : but_last (l ++ [u]) = l.
Proof.
  unfold but_last. rewrite length_app. cbn [length].
  replace (length l + 1 - 1)%nat with (length l + 0)%nat by lia.
  rewrite firstn_app_2. cbn [firstn]. apply app_nil_r.
Qed.

Lemma slice_last_length {T} (n : nat) (l : list T) :
  length (slice_last n l) = Nat.min n (length l).
Proof. unfold slice_last. rewrite length_skipn. lia. Qed.

(** X18.  The chat view calls the chat function with the history that already
    ends with the message being sent.  The history of the request is then
    made of the fourteen messages before it, or of all of them when they
    are fewer: the message itself travels once, as the message of the
    request. *)
Theorem history_window (messages : list ChatMessage.t) (newUserMsg : ChatMessage.t) :
  previousHistory_of (messages ++ [newUserMsg])
  = map (fun msg => (ChatMessage.role msg, ChatMessage.text msg))
        (slice_last 14 messages)
  /\ length (previousHistory_of (messages ++ [newUserMsg]))
     = Nat.min 14 (length messages).
Proof.
  unfold previousHistory_of. cbv zeta.
  rewrite slice_last_snoc, but_last_snoc.
  split; [reflexivity|]. now rewrite length_map, slice_last_length.
Qed.

(** *** The two assistants *)

Section Assistants.

Variable service : Service.
Variable typeError : Error.t.

Lemma runChat_cost {T} (lastMessage : option T) (m : Model) (w : World) :
  exists n : nat,
    (n <= 3)%nat
    /\ requests (fst (runChat service typeError lastMessage m w))
       = (requests w + n)%nat
    /\ (lastMessage = None ->
        n = 0%nat
        /\ exists e, snd (runChat service typeError lastMessage m w) = inl e).
Proof.
  unfold runChat. destruct lastMessage as [x|].
  - destruct (retry_requests (service m) w) as [n [Hn R]].
    exists n. split; [lia|]. split; [exact R|discriminate].
  - exists 0%nat. unfold runWithRetry.
    destruct (loop_throw_requests (T := option jsstring) typeError
                default_retries (Z.to_nat default_retries) 0 w) as [R X].
    split; [lia|]. split; [rewrite R; lia|]. intros _. split; [reflexivity|exact X].
Qed.

(** The two tries of an assistant, with the text [failText] it answers
    when both fail. *)
Lemma two_tries {T} (lastMessage : option T) (failText : jsstring) (w : World) :
  let o :=
    try_catch
      (result <- runChat service typeError lastMessage MODEL_NAME ;;
       ret (or_else result []))%eff
      (fun _ =>
         try_catch
           (result <- runChat service typeError lastMessage FALLBACK_MODEL ;;
            ret (or_else result []))%eff
           (fun _ => ret failText)) w in
  (exists txt, snd o = inr txt)
  /\ (requests w <= requests (fst o) <= requests w + 6)%nat
  /\ (lastMessage = None -> o = (fst o, inr failText)
                            /\ requests (fst o) = requests w).
Proof.
  cbv zeta. unfold try_catch, bind.
  destruct (runChat_cost lastMessage MODEL_NAME w) as [n1 [H1 [R1 N1]]].
  destruct (runChat service typeError lastMessage MODEL_NAME w)
    as [w1 [e1|r1]]; cbn [fst snd] in *.
  - destruct (runChat_cost lastMessage FALLBACK_MODEL w1) as [n2 [H2 [R2 N2]]].
    destruct (runChat service typeError lastMessage FALLBACK_MODEL w1)
      as [w2 [e2|r2]]; cbn [fst snd ret] in *.
    + split; [eexists; reflexivity|]. split; [lia|].
      intros E. split; [reflexivity|].
      destruct (N1 E) as [Z1 _]. destruct (N2 E) as [Z2 _]. lia.
    + split; [eexists; reflexivity|]. split; [lia|].
      intros E. destruct (N2 E) as [_ [e X]]. discriminate.
  - cbn [ret fst snd]. split; [eexists; reflexivity|]. split; [lia|].
    intros E. destruct (N1 E) as [_ [e X]]. discriminate.
Qed.

End Assistants.

Lemma chatWithJournal_cases (service : Service) (typeError : Error.t)
  (apiKey : option jsstring) (history : list (Role * jsstring))
  (entries : list (option Read.entry)) (w : World) :
  chatWithJournal service typeError apiKey history entries w
  = if truthy apiKey
    then if forallb entry_joins (firstn 15 entries)
         then try_catch
                (result <- runChat service typeError (lastMessage_of history)
                             MODEL_NAME ;;
                 ret (or_else result []))%eff
                (fun _ =>
                   try_catch
                     (result <- runChat service typeError
                                  (lastMessage_of history) FALLBACK_MODEL ;;
                      ret (or_else result []))%eff
                     (fun _ =>
                        ret (str "I'm having trouble analyzing your journal right now due to connection limits.")))
                w
         else (w, inl typeError)
    else (w, inr (str "API Key Missing. Please go to Settings and enter your Gemini API Key.")).
Proof.
  unfold chatWithJournal. destruct (truthy apiKey); cbn [negb]; [|reflexivity].
  unfold bind at 1. unfold build_contextEntries.
  now destruct (forallb entry_joins (firstn 15 entries)).
Qed.

Lemma chatWithFinance_cases (service : Service) (typeError : Error.t)
  (apiKey : option jsstring) (history : list (Role * jsstring))
  (transactions : list (option Read.transaction)) (w : World) :
  chatWithFinance service typeError apiKey history transactions w
  = if truthy apiKey
    then if forallb transaction_splits (firstn 50 transactions)
         then try_catch
                (result <- runChat service typeError (lastMessage_of history)
                             MODEL_NAME ;;
                 ret (or_else result []))%eff
                (fun _ =>
                   try_catch
                     (result <- runChat service typeError
                                  (lastMessage_of history) FALLBACK_MODEL ;;
                      ret (or_else result []))%eff
                     (fun _ =>
                        ret (str "I'm having trouble analyzing your financial data right now.")))
                w
         else (w, inl typeError)
    else (w, inr (str "API Key Missing. Please go to Settings and enter your Gemini API Key.")).
Proof.
  unfold chatWithFinance. destruct (truthy apiKey); cbn [negb]; [|reflexivity].
  unfold bind at 1. unfold build_contextData.
  now destruct (forallb transaction_splits (firstn 50 transactions)).
Qed.

(** X19.  Without an API key each assistant returns a fixed notice and sends
    nothing.  With one it first builds its prompt from the records it is
    given, before its [try]: when one of the first fifteen entries has no
    tags, or one of the first fifty transactions has no date, the
    [TypeError] leaves the function and nothing is sent.  The records the
    application wrote itself never do so.  Once the prompt is built the
    assistant never throws: whatever the two models answer, the caller gets
    a text, after at most six requests; and on an empty history, on which
    reading the last message fails, nothing is sent and the caller gets
    the text for a failed connection. *)
Theorem assistants_throw_only_before_asking (service : Service)
  (typeError : Error.t) (apiKey : option jsstring)
  (history : list (Role * jsstring)) (entries : list (option Read.entry))
  (transactions : list (option Read.transaction)) (w : World) :
  let j := chatWithJournal service typeError apiKey history entries w in
  let f := chatWithFinance service typeError apiKey history transactions w in
  let notice :=
    str "API Key Missing. Please go to Settings and enter your Gemini API Key." in
  let entries_read := forallb entry_joins (firstn 15 entries) in
  let transactions_read :=
    forallb transaction_splits (firstn 50 transactions) in
  (truthy apiKey = false -> j = (w, inr notice) /\ f = (w, inr notice))
  /\ (truthy apiKey = true ->
      (entries_read = false -> j = (w, inl typeError))
      /\ (transactions_read = false -> f = (w, inl typeError)))
  /\ (truthy apiKey = true ->
      (entries_read = true -> exists txt, snd j = inr txt)
      /\ (transactions_read = true -> exists txt, snd f = inr txt))
  /\ ((requests w <= requests (fst j) <= requests w + 6)%nat
      /\ (requests w <= requests (fst f) <= requests w + 6)%nat)
  /\ (truthy apiKey = true -> history = [] ->
      (entries_read = true ->
       requests (fst j) = requests w
       /\ snd j = inr (str "I'm having trouble analyzing your journal right now due to connection limits."))
      /\ (transactions_read = true ->
          requests (fst f) = requests w
          /\ snd f = inr (str "I'm having trouble analyzing your financial data right now.")))
  /\ (forall es, entries = map Read.of_entry es -> entries_read = true)
  /\ (forall xs, transactions = map Read.of_transaction xs ->
                 transactions_read = true).
Proof.
  cbv zeta. rewrite chatWithJournal_cases, chatWithFinance_cases.
  destruct (two_tries service typeError (lastMessage_of history)
              (str "I'm having trouble analyzing your journal right now due to connection limits.") w)
    as [J1 [J2 J3]].
  destruct (two_tries service typeError (lastMessage_of history)
              (str "I'm having trouble analyzing your financial data right now.") w)
    as [F1 [F2 F3]].
  cbv zeta in J1, J2, J3, F1, F2, F3.
  assert (Own : (forall es, entries = map Read.of_entry es ->
                            forallb entry_joins (firstn 15 entries) = true)
                /\ (forall xs, transactions = map Read.of_transaction xs ->
                      forallb transaction_splits (firstn 50 transactions) = true)).
  { split; intros l E; subst; [apply own_entries_join|apply own_transactions_split]. }
  destruct (truthy apiKey) eqn:K.
  2:{ cbn [fst snd]. split; [intros _; split; reflexivity|].
      split; [discriminate|]. split; [discriminate|].
      split; [lia|]. split; [discriminate|exact Own]. }
  split; [discriminate|].
  split.
  { intros _. split; intros B; now rewrite B. }
  split.
  { intros _. split; intros B; rewrite B; assumption. }
  split.
  { split.
    - destruct (forallb entry_joins (firstn 15 entries));
        [exact J2|cbn [fst]; lia].
    - destruct (forallb transaction_splits (firstn 50 transactions));
        [exact F2|cbn [fst]; lia]. }
  split; [|exact Own].
  intros _ E. subst history.
  destruct (J3 eq_refl) as [Ja Jb]. destruct (F3 eq_refl) as [Fa Fb].
  split; intros B; rewrite B; (split; [assumption|]).
  - rewrite Ja. reflexivity.
  - rewrite Fa. reflexivity.
Qed.

Lemma assistants_throw_only_before_asking_witness :
  let typeError := Error.make "Cannot read properties of undefined" in
  let question := [(user, str "How much did I spend?")] in
  let undated : option Read.transaction :=
    Some {| Read.date := Read.NoText false |} in
  chatWithFinance SampleErrors.down typeError None question [] start
  = (start,
     inr (str "API Key Missing. Please go to Settings and enter your Gemini API Key."))
  /\ chatWithFinance SampleErrors.down typeError (Some (str "key")) question
       [undated] start
     = (start, inl typeError)
  /\ chatWithJournal SampleErrors.down typeError (Some (str "key"))
       [(user, str "What did I do in May?")] [SampleAssistant.untagged] start
     = (start, inl typeError)
  /\ exists txt,
       snd (chatWithJournal SampleErrors.down typeError (Some (str "key"))
              [(user, str "What did I do in May?")]
              [Read.of_entry (Sample.entry "1" "Monday")] start)
       = inr txt.
Proof.
  cbv zeta.
  set (typeError := Error.make "Cannot read properties of undefined").
  set (undated := Some {| Read.date := Read.NoText false |}).
  split; [|split; [|split]].
  - exact (proj2 (proj1 (assistants_throw_only_before_asking SampleErrors.down
             typeError None [(user, str "How much did I spend?")] [] [] start)
             eq_refl)).
  - exact (proj2 (proj1 (proj2 (assistants_throw_only_before_asking
             SampleErrors.down typeError (Some (str "key"))
             [(user, str "How much did I spend?")] [] [undated] start))
             eq_refl) eq_refl).
  - exact (proj1 (proj1 (proj2 (assistants_throw_only_before_asking
             SampleErrors.down typeError (Some (str "key"))
             [(user, str "What did I do in May?")] [SampleAssistant.untagged]
             [] start)) eq_refl) eq_refl).
  - exact (proj1 (proj1 (proj2 (proj2 (assistants_throw_only_before_asking
             SampleErrors.down typeError (Some (str "key"))
             [(user, str "What did I do in May?")]
             [Read.of_entry (Sample.entry "1" "Monday")] [] start))) eq_refl)
             eq_refl).
Defined.

(** *** The view of the journal assistant *)

Lemma lastMessage_snoc {T} (l : list T) (x : T) :
  lastMessage_of (l ++ [x]) = Some x.
Proof.
  unfold lastMessage_of. cbv zeta. rewrite (slice_last_snoc 9 l x).
  rewrite length_app. cbn [length].
  replace (length (slice_last 9 l) + 1 - 1)%nat
    with (length (slice_last 9 l) + 0)%nat by lia.
  rewrite nth_error_app2 by lia.
  replace (length (slice_last 9 l) + 0 - length (slice_last 9 l))%nat
    with 0%nat by lia.
  reflexivity.
Qed.

(** The call of the journal assistant throws exactly when there is a key
    and the template fails on one of the first fifteen entries. *)
Lemma chatWithJournal_throws (service : Service) (typeError : Error.t)
  (apiKey : option jsstring) (history : list (Role * jsstring))
  (entries : list (option Read.entry)) (w : World) :
  (exists e, snd (chatWithJournal service typeError apiKey history entries w)
             = inl e)
  <-> truthy apiKey = true
      /\ forallb entry_joins (firstn 15 entries) = false.
Proof.
  rewrite chatWithJournal_cases.
  destruct (truthy apiKey).
  - destruct (forallb entry_joins (firstn 15 entries)).
    + destruct (two_tries service typeError (lastMessage_of history)
                  (str "I'm having trouble analyzing your journal right now due to connection limits.") w)
        as [[txt J] _].
      cbv zeta in J. rewrite J. split.
      * intros [e E]. discriminate.
      * intros [_ C]. discriminate.
    + cbn [snd]. split; [auto|]. intros _. eexists. reflexivity.
  - cbn [snd]. split.
    + intros [e E]. discriminate.
    + intros [C _]. discriminate.
Qed.

(** X20.  The journal assistant refuses a send while it waits for a reply or
    when the text is blank.  An accepted send always ends with the user's
    message followed by exactly one reply of the model, whose text is never
    empty: the text the call returned, or a fixed text when that is empty,
    or the handler's own "Sorry, I couldn't connect to Gemini." when the
    call throws.  The call throws exactly when there is an API key and one
    of the first fifteen entries on display has no tags, which no entry the
    application wrote itself does.  The question put to the model is the
    text as typed. *)
Theorem assistant_always_replies (env : AIChat.Env) (v : AIChat.View)
  (w : World) :
  let v' := fst (AIChat.handleSend env v w) in
  let history :=
    map (fun m => (ChatMessage.role m, ChatMessage.text m))
        (AIChat.messages v ++ [AIChat.userMsg env v]) in
  let outcome :=
    snd (chatWithJournal (AIChat.service env) (AIChat.typeError env)
           (AIChat.apiKey env) history (AIChat.entries env) w) in
  let reply :=
    match outcome with
    | inr responseText =>
        {| ChatMessage.id := show_Z (AIChat.now env 2 + 1);
           ChatMessage.role := model;
           ChatMessage.text :=
             or_else (Some responseText)
                     (str "I'm having trouble thinking right now.");
           ChatMessage.timestamp := AIChat.now env 3;
           ChatMessage.attachment := None |}
    | inl _ =>
        {| ChatMessage.id := show_Z (AIChat.now env 2);
           ChatMessage.role := model;
           ChatMessage.text := str "Sorry, I couldn't connect to Gemini.";
           ChatMessage.timestamp := AIChat.now env 3;
           ChatMessage.attachment := None |}
    end in
  (trim (AIChat.input v) = [] \/ AIChat.isLoading v = true ->
   AIChat.handleSend env v w = (v, w))
  /\ lastMessage_of history = Some (user, AIChat.input v)
  /\ (trim (AIChat.input v) <> [] -> AIChat.isLoading v = false ->
      AIChat.messages v' = AIChat.messages v ++ [AIChat.userMsg env v; reply]
      /\ ChatMessage.role reply = model
      /\ ChatMessage.text reply <> []
      /\ AIChat.input v' = [] /\ AIChat.isLoading v' = false)
  /\ ((exists e, outcome = inl e)
      <-> truthy (AIChat.apiKey env) = true
          /\ forallb entry_joins (firstn 15 (AIChat.entries env)) = false)
  /\ (forall es, AIChat.entries env = map Read.of_entry es ->
                 exists responseText, outcome = inr responseText).
Proof.
  cbv zeta. unfold AIChat.handleSend.
  split; [|split; [|split; [|split]]].
  - intros [B|L].
    + rewrite B. reflexivity.
    + rewrite L. now rewrite orb_true_r.
  - rewrite map_app. cbn [map]. apply lastMessage_snoc.
  - intros B L. rewrite L.
    destruct (trim (AIChat.input v)) as [|c r] eqn:Tr; [congruence|].
    cbn [App.nonempty negb orb].
    destruct (chatWithJournal (AIChat.service env) (AIChat.typeError env)
                (AIChat.apiKey env)
                (map (fun m => (ChatMessage.role m, ChatMessage.text m))
                     (AIChat.messages v ++ [AIChat.userMsg env v]))
                (AIChat.entries env) w)
      as [w' [e|t]]; cbn [fst snd AIChat.messages AIChat.input AIChat.isLoading
                          ChatMessage.role ChatMessage.text].
    + split; [now rewrite <- app_assoc|]. split; [reflexivity|].
      split; [discriminate|]. split; reflexivity.
    + split; [now rewrite <- app_assoc|]. split; [reflexivity|].
      split; [apply or_else_nonempty; discriminate|]. split; reflexivity.
  - apply chatWithJournal_throws.
  - intros es E.
    pose proof (chatWithJournal_throws (AIChat.service env)
                  (AIChat.typeError env) (AIChat.apiKey env)
                  (map (fun m => (ChatMessage.role m, ChatMessage.text m))
                       (AIChat.messages v ++ [AIChat.userMsg env v]))
                  (AIChat.entries env) w) as T.
    destruct (snd (chatWithJournal (AIChat.service env) (AIChat.typeError env)
                     (AIChat.apiKey env)
                     (map (fun m => (ChatMessage.role m, ChatMessage.text m))
                          (AIChat.messages v ++ [AIChat.userMsg env v]))
                     (AIChat.entries env) w)) as [e|t]; [|now exists t].
    exfalso. destruct (proj1 T (ex_intro _ e eq_refl)) as [_ C].
    rewrite E, own_entries_join in C. discriminate.
Qed.

Lemma assistant_always_replies_witness :
  let env := SampleAssistant.online "You went hiking."
               [SampleAssistant.untagged] in
  let v := SampleAssistant.asking "What did I do in May?" in
  trim (AIChat.input v) <> [] /\ AIChat.isLoading v = false
  /\ map ChatMessage.text (AIChat.messages (fst (AIChat.handleSend env v start)))
     = [str "What did I do in May?";
        str "Sorry, I couldn't connect to Gemini."]
  /\ snd (AIChat.handleSend env v start) = start.
Proof.
  cbv zeta.
  assert (N : trim (AIChat.input (SampleAssistant.asking "What did I do in May?"))
              <> []) by (vm_compute; discriminate).
  split; [exact N|]. split; [reflexivity|].
  destruct (proj1 (proj2 (proj2 (assistant_always_replies
              (SampleAssistant.online "You went hiking."
                 [SampleAssistant.untagged])
              (SampleAssistant.asking "What did I do in May?") start)))
              N eq_refl) as [M _].
  split; [rewrite M; vm_compute; reflexivity|vm_compute; reflexivity].
Defined.

End ChatFunctions.

(** ** Moving through the calendar *)

Module CalendarViewFacts.

Import JSDate CalendarView.

Lemma addDays_fixed (offset d k : Z) :
  addDays (fixed_zone offset) d k = d + k * msPerDay.
Proof. unfold addDays, getDate. cbv zeta. apply CalendarFacts.setDate_fixed. Qed.

Lemma getDay_range (tz : TimeZone) (d : Z) : 0 <= getDay tz d < 7.
Proof. unfold getDay. apply Z.mod_pos_bound. lia. Qed.

Lemma getDay_shift (offset d k : Z) :
  getDay (fixed_zone offset) (d + k * msPerDay)
  = (getDay (fixed_zone offset) d + k) mod 7.
Proof.
  unfold getDay, LocalTime, fixed_zone. cbn [offset_at_utc].
  replace (d + k * msPerDay + offset) with (d + offset + k * msPerDay) by lia.
  rewrite CalendarFacts.Day_shift.
  replace (Day (d + offset) + k + 4) with (Day (d + offset) + 4 + k) by lia.
  now rewrite Z.add_mod_idemp_l by lia.
Qed.

Lemma startOfWeek_fixed (offset d : Z) :
  startOfWeek (fixed_zone offset) d
  = d - getDay (fixed_zone offset) d * msPerDay.
Proof.
  unfold startOfWeek. cbv zeta. unfold getDate.
  replace (DateFromTime (LocalTime (fixed_zone offset) d)
           - getDay (fixed_zone offset) d)
    with (DateFromTime (LocalTime (fixed_zone offset) d)
          + - getDay (fixed_zone offset) d) by lia.
  rewrite CalendarFacts.setDate_fixed. lia.
Qed.

Lemma getDay_startOfWeek (offset d : Z) :
  getDay (fixed_zone offset) (startOfWeek (fixed_zone offset) d) = 0.
Proof.
  rewrite startOfWeek_fixed.
  replace (d - getDay (fixed_zone offset) d * msPerDay)
    with (d + - getDay (fixed_zone offset) d * msPerDay) by lia.
  rewrite getDay_shift.
  replace (getDay (fixed_zone offset) d + - getDay (fixed_zone offset) d)
    with 0 by lia.
  reflexivity.
Qed.

Lemma column_fixed (offset d : Z) (i : nat) :
  addDays (fixed_zone offset) (startOfWeek (fixed_zone offset) d) (Z.of_nat i)
  = d + (Z.of_nat i - getDay (fixed_zone offset) d) * msPerDay.
Proof. rewrite addDays_fixed, startOfWeek_fixed. lia. Qed.

Lemma nth_error_seq7 (n : nat) :
  (n < 7)%nat -> nth_error (seq 0 7) n = Some n.
Proof.
  intros L. do 7 (destruct n as [|n]; [reflexivity|]). lia.
Qed.

(** Rebuilding a day from its year, month and date gives the day back: two
    days with the same year, month and date are the same day. *)
Lemma calendar_date_inj (a b : Z) :
  DateFromDay a = DateFromDay b -> MonthFromDay a = MonthFromDay b ->
  YearFromDay a = YearFromDay b -> a = b.
Proof.
  intros D M Y.
  pose proof (CalendarFacts.MakeDay_shift a 0) as A.
  pose proof (CalendarFacts.MakeDay_shift b 0) as B.
  rewrite D, M, Y in A. rewrite A in B. lia.
Qed.

Section Listing.

Variable tz : TimeZone.
Variable newDate : option jsstring -> option JSDate.t.

(** The events listed for a day are the events whose start is a valid date
    on the same local day, in the order of the collection; an event whose
    start is no valid date is listed for no day. *)
Lemma listed_iff (events : list CalendarEvent.t) (date : JSDate.t)
  (e : CalendarEvent.t) :
  In e (getEventsForDay tz newDate events date)
  <-> In e events
      /\ exists eDate, newDate (CalendarEvent.startTime e) = Some eDate
                       /\ Day (LocalTime tz eDate) = Day (LocalTime tz date).
Proof.
  unfold getEventsForDay. rewrite filter_In.
  split; intros [I H]; (split; [exact I|]).
  - destruct (newDate (CalendarEvent.startTime e)) as [eDate|];
      [|discriminate].
    exists eDate. split; [reflexivity|].
    apply andb_true_iff in H. destruct H as [H Y].
    apply andb_true_iff in H. destruct H as [D M].
    apply Z.eqb_eq in D. apply Z.eqb_eq in M. apply Z.eqb_eq in Y.
    now apply calendar_date_inj.
  - destruct H as [eDate [N E]]. rewrite N.
    unfold getDate, getMonth, getFullYear, DateFromTime, MonthFromTime,
      YearFromTime.
    rewrite E, !Z.eqb_refl. reflexivity.
Qed.

End Listing.

(** X21.  [getEventsForDay] compares year, month and date of the local times.
    That is the same as comparing the local days: an event is listed for a
    day exactly when it is in the collection and its start is a valid date
    falling on that local day.  In particular an event whose start is no
    valid date is never listed, and two dates on the same local day list
    the same events. *)
Theorem events_for_day (tz : TimeZone)
  (newDate : option jsstring -> option JSDate.t)
  (events : list CalendarEvent.t) (date : JSDate.t) :
  (forall e,
     In e (getEventsForDay tz newDate events date)
     <-> In e events
         /\ exists eDate, newDate (CalendarEvent.startTime e) = Some eDate
                          /\ Day (LocalTime tz eDate) = Day (LocalTime tz date))
  /\ (forall e, newDate (CalendarEvent.startTime e) = None ->
        ~ In e (getEventsForDay tz newDate events date))
  /\ (forall date', Day (LocalTime tz date') = Day (LocalTime tz date) ->
        getEventsForDay tz newDate events date'
        = getEventsForDay tz newDate events date).
Proof.
  split; [intros e; apply listed_iff|]. split.
  - intros e N I. apply listed_iff in I. destruct I as [_ [eDate [S _]]].
    congruence.
  - intros date' E. unfold getEventsForDay. apply filter_ext. intros e.
    unfold getDate, getMonth, getFullYear, DateFromTime, MonthFromTime,
      YearFromTime.
    now rewrite E.
Qed.

(** X22.  In a zone whose offset never changes, the seven columns of the week
    view are the days from Sunday to Saturday of one week, the current date
    sits in the column of its own weekday, and no event is listed in two
    columns. *)
Theorem week_view_columns (offset : Z) (currentDate : JSDate.t) :
  let tz := fixed_zone offset in
  map (getDay tz) (weekDays tz currentDate) = [0; 1; 2; 3; 4; 5; 6]
  /\ nth_error (weekDays tz currentDate) (Z.to_nat (getDay tz currentDate))
     = Some currentDate
  /\ (forall newDate events e i j di dj,
        nth_error (weekDays tz currentDate) i = Some di ->
        nth_error (weekDays tz currentDate) j = Some dj ->
        In e (getEventsForDay tz newDate events di) ->
        In e (getEventsForDay tz newDate events dj) ->
        i = j).
Proof.
  cbv zeta. unfold weekDays. cbv zeta.
  assert (C : forall i, (i < 7)%nat ->
            nth_error
              (map (fun i => addDays (fixed_zone offset)
                               (startOfWeek (fixed_zone offset) currentDate)
                               (Z.of_nat i)) (seq 0 7)) i
            = Some (currentDate
                    + (Z.of_nat i - getDay (fixed_zone offset) currentDate)
                      * msPerDay)).
  { intros i L. rewrite nth_error_map, (nth_error_seq7 i L).
    cbn [option_map]. now rewrite column_fixed. }
  split; [|split].
  - cbn [seq map]. rewrite !addDays_fixed, !getDay_shift.
    rewrite getDay_startOfWeek. reflexivity.
  - pose proof (getDay_range (fixed_zone offset) currentDate) as R.
    rewrite C by lia. f_equal. rewrite Z2Nat.id by lia. lia.
  - intros newDate events e i j di dj Ni Nj Ii Ij.
    assert (Li : (i < 7)%nat).
    { pose proof (proj1 (nth_error_Some _ _) ltac:(rewrite Ni; discriminate)) as X.
      now rewrite length_map, length_seq in X. }
    assert (Lj : (j < 7)%nat).
    { pose proof (proj1 (nth_error_Some _ _) ltac:(rewrite Nj; discriminate)) as X.
      now rewrite length_map, length_seq in X. }
    rewrite (C i Li) in Ni. rewrite (C j Lj) in Nj.
    injection Ni as Ni. injection Nj as Nj. subst di dj.
    apply listed_iff in Ii. apply listed_iff in Ij.
    destruct Ii as [_ [a [Sa Da]]]. destruct Ij as [_ [b [Sb Db]]].
    rewrite Sa in Sb. injection Sb as Sb. subst b. rewrite Da in Db.
    unfold LocalTime, fixed_zone in Db. cbn [offset_at_utc] in Db.
    replace (currentDate
             + (Z.of_nat i - getDay {| offset_at_utc := fun _ => offset;
                                       offset_at_local := fun _ => offset |}
                               currentDate) * msPerDay + offset)
      with (currentDate + offset
            + (Z.of_nat i - getDay {| offset_at_utc := fun _ => offset;
                                      offset_at_local := fun _ => offset |}
                              currentDate) * msPerDay) in Db by lia.
    replace (currentDate
             + (Z.of_nat j - getDay {| offset_at_utc := fun _ => offset;
                                       offset_at_local := fun _ => offset |}
                               currentDate) * msPerDay + offset)
      with (currentDate + offset
            + (Z.of_nat j - getDay {| offset_at_utc := fun _ => offset;
                                      offset_at_local := fun _ => offset |}
                              currentDate) * msPerDay) in Db by lia.
    rewrite !CalendarFacts.Day_shift in Db. lia.
Qed.

Lemma week_view_columns_witness :
  let tz := fixed_zone 0 in
  let newDate : option jsstring -> option JSDate.t :=
    fun _ => Some 1711324800000 in
  let e := Sample.event "e1" "Gym" in
  nth_error (weekDays tz 1711411200000) 1 = Some 1711324800000
  /\ In e (getEventsForDay tz newDate [e] 1711324800000)
  /\ 1%nat = 1%nat.
Proof.
  cbv zeta.
  assert (N : nth_error (weekDays (fixed_zone 0) 1711411200000) 1
              = Some 1711324800000) by (vm_compute; reflexivity).
  assert (I : In (Sample.event "e1" "Gym")
                 (getEventsForDay (fixed_zone 0) (fun _ => Some 1711324800000)
                    [Sample.event "e1" "Gym"] 1711324800000))
    by (vm_compute; now left).
  split; [exact N|]. split; [exact I|].
  exact (proj2 (proj2 (week_view_columns 0 1711411200000))
           (fun _ => Some 1711324800000) [Sample.event "e1" "Gym"]
           (Sample.event "e1" "Gym") 1%nat 1%nat 1711324800000 1711324800000
           N N I I).
Defined.

Lemma events_for_day_witness :
  let newDate : option jsstring -> option JSDate.t := fun _ => None in
  let e := Sample.event "e1" "Gym" in
  newDate (CalendarEvent.startTime e) = None
  /\ ~ In e (getEventsForDay (fixed_zone 0) newDate [e] 1711324800000).
Proof.
  cbv zeta. split; [reflexivity|].
  exact (proj1 (proj2 (events_for_day (fixed_zone 0) (fun _ => None)
                         [Sample.event "e1" "Gym"] 1711324800000))
           (Sample.event "e1" "Gym") eq_refl).
Defined.

(** X23.  In a zone whose offset never changes, going to the next week or day and
    back, or back and forth, returns to the same instant; the next week
    starts seven days later, on the same weekday.  Months are different: a
    step forward from the 31st runs over the end of a shorter month, and
    the step back does not return. *)
Theorem navigation_round_trip (offset : Z) (currentDate : JSDate.t) :
  let tz := fixed_zone offset in
  handlePrev tz week (handleNext tz week currentDate) = currentDate
  /\ handleNext tz week (handlePrev tz week currentDate) = currentDate
  /\ handlePrev tz day (handleNext tz day currentDate) = currentDate
  /\ handleNext tz day (handlePrev tz day currentDate) = currentDate
  /\ handleNext tz week currentDate = currentDate + 7 * msPerDay
  /\ getDay tz (handleNext tz week currentDate) = getDay tz currentDate
  /\ exists d, handlePrev (fixed_zone 0) month
                 (handleNext (fixed_zone 0) month d) <> d.
Proof.
  cbv zeta. unfold handlePrev, handleNext. rewrite !addDays_fixed.
  repeat (split; [lia|]).
  split.
  - rewrite getDay_shift.
    pose proof (getDay_range (fixed_zone offset) currentDate) as R.
    rewrite <- (Z.mul_1_l 7) at 1. rewrite Z.mod_add by lia.
    apply Z.mod_small. exact R.
  - exists 1706659200000. vm_compute. discriminate.
Qed.

End CalendarViewFacts.

(** ** Entries on display, editing and backups *)

Module AppDataFacts.

Import Storage AppData.

Lemma insert_perm (e : JournalEntry.t) (s : list JournalEntry.t) :
  Permutation (e :: s) (insert_desc e s).
Proof.
  induction s as [|x r IH]; [reflexivity|].
  cbn [insert_desc].
  destruct (JournalEntry.lastModified x <=? JournalEntry.lastModified e);
    [reflexivity|].
  rewrite perm_swap. now apply perm_skip.
Qed.

Lemma sort_perm (l : list JournalEntry.t) : Permutation l (sort_desc l).
Proof.
  induction l as [|x r IH]; [reflexivity|].
  cbn [sort_desc fold_right]. fold (sort_desc r).
  rewrite <- insert_perm. now apply perm_skip.
Qed.

Lemma insert_sorted (e : JournalEntry.t) (s : list JournalEntry.t) :
  StronglySorted not_newer s -> StronglySorted not_newer (insert_desc e s).
Proof.
  induction s as [|x r IH]; intros S.
  - repeat constructor.
  - cbn [insert_desc]. inversion S as [|? ? Sr Fr]; subst.
    destruct (Z.leb_spec (JournalEntry.lastModified x)
                         (JournalEntry.lastModified e)) as [L|L].
    + constructor; [exact S|]. constructor; [exact L|].
      eapply Forall_impl; [|exact Fr]. unfold not_newer. intros y Y. lia.
    + constructor; [now apply IH|].
      apply (Permutation_Forall (insert_perm e r)).
      constructor; [unfold not_newer; lia|exact Fr].
Qed.

Lemma sort_sorted (l : list JournalEntry.t) :
  StronglySorted not_newer (sort_desc l).
Proof.
  induction l as [|x r IH]; [constructor|].
  cbn [sort_desc fold_right]. now apply insert_sorted.
Qed.

Lemma insert_stable (t : Z) (e : JournalEntry.t) (s : list JournalEntry.t) :
  filter (fun x => JournalEntry.lastModified x =? t) (insert_desc e s)
  = filter (fun x => JournalEntry.lastModified x =? t) (e :: s).
Proof.
  induction s as [|x r IH]; [reflexivity|].
  cbn [insert_desc].
  destruct (Z.leb_spec (JournalEntry.lastModified x)
                       (JournalEntry.lastModified e)) as [L|L];
    [reflexivity|].
  cbn [filter] in *. rewrite IH.
  destruct (Z.eqb_spec (JournalEntry.lastModified x) t) as [X|X];
    destruct (Z.eqb_spec (JournalEntry.lastModified e) t) as [E|E];
    try reflexivity.
  lia.
Qed.

Lemma sort_stable (t : Z) (l : list JournalEntry.t) :
  filter (fun x => JournalEntry.lastModified x =? t) (sort_desc l)
  = filter (fun x => JournalEntry.lastModified x =? t) l.
Proof.
  induction l as [|x r IH]; [reflexivity|].
  cbn [sort_desc fold_right]. fold (sort_desc r).
  rewrite insert_stable. cbn [filter]. now rewrite IH.
Qed.

(** X24.  The entries on display are the stored entries, each once, the most
    recently modified first; entries modified at the same time keep the
    order they are stored in. *)
Theorem entries_newest_first (st : Storage.t) :
  Permutation (getEntries st) (loadData st)
  /\ StronglySorted not_newer (loadData st)
  /\ forall t,
       filter (fun x => JournalEntry.lastModified x =? t) (loadData st)
       = filter (fun x => JournalEntry.lastModified x =? t) (getEntries st).
Proof.
  unfold loadData. split; [apply sort_perm|].
  split; [apply sort_sorted|]. intros t. apply sort_stable.
Qed.

Lemma upsert_elements {T} (p : T -> bool) (v : T) (l : list T) :
  In v (upsert p v l)
  /\ (forall x, In x (upsert p v l) -> x = v \/ In x l).
Proof.
  induction l as [|y r [IH1 IH2]]; cbn [upsert].
  - split; [now left|]. intros x [X|[]]. now left.
  - destruct (p y).
    + split; [now left|]. intros x [X|X]; [now left|right; now right].
    + split; [now right|]. intros x [X|X]; [right; now left|].
      destruct (IH2 x X) as [E|I]; [now left|right; now right].
Qed.

(** X25.  Saving an edit of a stored entry at a time later than every stored
    modification changes its title, its content and its time of
    modification and nothing else of it, keeps the number and the ids of
    the stored entries, and puts the entry on top of the display. *)
Theorem edit_moves_to_top (now : Z) (e : JournalEntry.t) (form : EditForm)
  (st : Storage.t) :
  In (JournalEntry.id e) (keys (getEntries st)) ->
  (forall x, In x (getEntries st) -> JournalEntry.lastModified x < now) ->
  let st' := handleSaveEdit now (Some e) form st in
  keys (getEntries st') = keys (getEntries st)
  /\ exists updated rest,
       loadData st' = updated :: rest
       /\ JournalEntry.id updated = JournalEntry.id e
       /\ JournalEntry.title updated = title form
       /\ JournalEntry.content updated = content form
       /\ JournalEntry.lastModified updated = now
       /\ JournalEntry.date updated = JournalEntry.date e
       /\ JournalEntry.mode updated = JournalEntry.mode e
       /\ JournalEntry.tags updated = JournalEntry.tags e
       /\ JournalEntry.media updated = JournalEntry.media e
       /\ JournalEntry.tasks updated = JournalEntry.tasks e
       /\ JournalEntry.calendarEvents updated = JournalEntry.calendarEvents e
       /\ JournalEntry.transactions updated = JournalEntry.transactions e.
Proof.
  intros K Old. cbv zeta. unfold handleSaveEdit.
  set (u := {| JournalEntry.id := JournalEntry.id e;
               JournalEntry.title := title form;
               JournalEntry.content := content form;
               JournalEntry.date := JournalEntry.date e;
               JournalEntry.mode := JournalEntry.mode e;
               JournalEntry.tags := JournalEntry.tags e;
               JournalEntry.calendarEvents := JournalEntry.calendarEvents e;
               JournalEntry.tasks := JournalEntry.tasks e;
               JournalEntry.transactions := JournalEntry.transactions e;
               JournalEntry.media := JournalEntry.media e;
               JournalEntry.lastModified := now |}).
  assert (G : getEntries (saveEntry u st)
              = upsert (same_key u) u (getEntries st)).
  { unfold saveEntry. cbv zeta.
    rewrite StorageFacts.saveEntry_list_upsert. reflexivity. }
  assert (Ex : existsb (same_key u) (getEntries st) = true)
    by (apply StorageFacts.existsb_same_key; exact K).
  split.
  - rewrite G, keys_upsert, Ex. reflexivity.
  - unfold loadData. rewrite G.
    destruct (upsert_elements (same_key u) u (getEntries st)) as [Iu El].
    pose proof (sort_perm (upsert (same_key u) u (getEntries st))) as P.
    pose proof (sort_sorted (upsert (same_key u) u (getEntries st))) as S.
    destruct (sort_desc (upsert (same_key u) u (getEntries st)))
      as [|h rest] eqn:Sd.
    + apply Permutation_sym, Permutation_nil in P. rewrite P in Iu.
      contradiction.
    + assert (H : h = u).
      { assert (Ih : In h (upsert (same_key u) u (getEntries st)))
          by (apply (Permutation_in h (Permutation_sym P)); now left).
        destruct (El h Ih) as [E|I]; [exact E|].
        exfalso. pose proof (Old h I) as Lt.
        assert (Iu' : In u (h :: rest)) by (apply (Permutation_in u P Iu)).
        destruct Iu' as [E|Ir].
        - subst h. cbn in Lt. lia.
        - inversion S as [|? ? _ F]; subst.
          rewrite Forall_forall in F. specialize (F u Ir).
          unfold not_newer in F. cbn in F. lia. }
      exists h, rest. subst h. repeat split.
Qed.

Lemma edit_moves_to_top_witness :
  let st := saveEntry (Sample.entry "2" "Tuesday")
              (saveEntry (Sample.entry "1" "Monday") Storage.empty) in
  let form := {| title := str "A better Monday"; content := str "text" |} in
  In (JournalEntry.id (Sample.entry "1" "Monday")) (keys (getEntries st))
  /\ keys (getEntries (handleSaveEdit 5 (Some (Sample.entry "1" "Monday"))
                         form st))
     = keys (getEntries st).
Proof.
  cbv zeta.
  assert (K : In (JournalEntry.id (Sample.entry "1" "Monday"))
                 (keys (getEntries
                          (saveEntry (Sample.entry "2" "Tuesday")
                             (saveEntry (Sample.entry "1" "Monday")
                                Storage.empty)))))
    by (vm_compute; now left).
  split; [exact K|].
  refine (proj1 (edit_moves_to_top 5 (Sample.entry "1" "Monday")
                   {| title := str "A better Monday"; content := str "text" |}
                   _ K _)).
  vm_compute. intros x [X|[X|[]]]; subst x; reflexivity.
Defined.

(** *** Backups *)

(** X26.  An export notes its time: no reminder is due at the next start within
    a week of it, and none of the collections is touched.  The file it
    writes was put together before that note was made, so it carries the
    time of the backup before this one; restoring the file puts that
    earlier time back, unless there was none. *)
Theorem export_notes_time (now now' : Z) (st : Storage.t) :
  let file := fst (handleExportData now now' st) in
  let st' := snd (handleExportData now now' st) in
  getLastBackupTime st' = now'
  /\ (forall t, t - now' <= oneWeek -> showBackupReminder t st' = false)
  /\ (getEntries st' = getEntries st
      /\ getCalendarEvents st' = getCalendarEvents st
      /\ getTasks st' = getTasks st
      /\ getTransactions st' = getTransactions st
      /\ getChatHistory PERSONAL st' = getChatHistory PERSONAL st
      /\ getChatHistory PROFESSIONAL st' = getChatHistory PROFESSIONAL st)
  /\ lastBackup file = Some (getLastBackupTime st)
  /\ getLastBackupTime (restoreData file st')
     = (if getLastBackupTime st =? 0 then now' else getLastBackupTime st).
Proof.
  cbv zeta. unfold handleExportData. cbn [fst snd].
  split; [reflexivity|]. split.
  - intros t L. unfold showBackupReminder. cbv zeta.
    change (getLastBackupTime (updateLastBackupTime now' st)) with now'.
    apply Z.ltb_ge. exact L.
  - split; [repeat split|]. split; [reflexivity|].
    unfold restoreData, getAllData, getLastBackupTime, updateLastBackupTime.
    cbn [lastBackup BACKUP_TIMESTAMP_KEY set_BACKUP].
    destruct (BACKUP_TIMESTAMP_KEY st) as [z|]; [|reflexivity].
    destruct (z =? 0); reflexivity.
Qed.

Lemma export_notes_time_witness :
  1700000600000 - 1700000000000 <= oneWeek
  /\ showBackupReminder 1700000600000
       (snd (handleExportData 1699999999999 1700000000000 Storage.empty))
     = false.
Proof.
  assert (L : 1700000600000 - 1700000000000 <= oneWeek)
    by (vm_compute; discriminate).
  split; [exact L|].
  exact (proj1 (proj2 (export_notes_time 1699999999999 1700000000000
                         Storage.empty)) 1700000600000 L).
Defined.

End AppDataFacts.

(** ** More on events created by hand *)

Module CalendarMore.

Import JSDate Calendar.

Lemma NoDup_map_prefix (p : jsstring) (l : list jsstring) :
  NoDup l -> NoDup (map (app p) l).
Proof.
  induction 1 as [|x r Nx ND IH]; cbn [map]; constructor; [|exact IH].
  rewrite in_map_iff. intros [y [E I]]. apply app_inv_head in E.
  now subst y.
Qed.

Lemma keys_tasksToCreate (eventsToCreate : list CalendarEvent.t) :
  keys (tasksToCreate_of eventsToCreate)
  = map (app (str "task-mirror-")) (keys eventsToCreate).
Proof.
  unfold keys, tasksToCreate_of. rewrite !map_map. reflexivity.
Qed.

Lemma handleSaveEvent_entries env (newEvent : NewEvent) (st : Storage.t) :
  Storage.getEntries (fst (handleSaveEvent env newEvent st))
  = Storage.getEntries st.
Proof.
  unfold handleSaveEvent.
  destruct (negb (filled (title newEvent)) || negb (filled (date newEvent))
            || negb (filled (startTime newEvent))
            || negb (filled (endTime newEvent))); [reflexivity|].
  destruct (parse (date newEvent)); reflexivity.
Qed.

(** X27.  A form that is filled in, with a date that parses and ids that differ
    from turn to turn: the handler returns normally and creates no entry;
    every event it builds is stored, unless its id was already taken; and
    for every event a task is stored under the id of the event prefixed
    with "task-mirror-", not completed, due at the start of the event,
    named as the form, and linked to the id of the event, which is the id
    of no entry. *)
Theorem created_events_are_mirrored env (newEvent : NewEvent)
  (baseDate : JSDate.t) (st : Storage.t) :
  filled (title newEvent) = true -> filled (date newEvent) = true ->
  filled (startTime newEvent) = true -> filled (endTime newEvent) = true ->
  parse (date newEvent) = Some baseDate ->
  (forall i j, show_Z (now env i) ++ random36 env i
               = show_Z (now env j) ++ random36 env j -> i = j) ->
  let st' := fst (handleSaveEvent env newEvent st) in
  snd (handleSaveEvent env newEvent st) = inr tt
  /\ Storage.getEntries st' = Storage.getEntries st
  /\ forall i, (i < count_of (repeat newEvent))%nat ->
       let evt := instance env newEvent baseDate i in
       (lookup (key evt) (Storage.getCalendarEvents st) = None ->
        lookup (key evt) (Storage.getCalendarEvents st') = Some evt)
       /\ lookup (str "task-mirror-" ++ key evt) (Storage.getTasks st')
          = Some {| Task.id := str "task-mirror-" ++ CalendarEvent.id evt;
                    Task.title := Some (title newEvent);
                    Task.completed := false;
                    Task.dueDate := CalendarEvent.startTime evt;
                    Task.linkedEntryId := Some (CalendarEvent.id evt) |}.
Proof.
  intros F1 F2 F3 F4 Pd Inj. cbv zeta.
  destruct (CalendarFacts.handleSaveEvent_stores env newEvent baseDate st
              F1 F2 F3 F4 Pd) as [R [Ev Tk]].
  cbv zeta in Ev, Tk.
  split; [exact R|]. split; [apply handleSaveEvent_entries|].
  intros i L.
  pose proof (CalendarFacts.ids_distinct env newEvent baseDate Inj) as ND.
  assert (I : In (instance env newEvent baseDate i)
                 (eventsToCreate_of env newEvent baseDate)).
  { unfold eventsToCreate_of. apply in_map. apply in_seq. lia. }
  split.
  - intros Free. rewrite Ev.
    now apply PassFacts.addCalendarEvents_list_stores.
  - rewrite Tk.
    set (evt := instance env newEvent baseDate i) in *.
    set (t0 := {| Task.id := str "task-mirror-" ++ CalendarEvent.id evt;
                  Task.title := Some (title newEvent);
                  Task.completed := false;
                  Task.dueDate := CalendarEvent.startTime evt;
                  Task.linkedEntryId := Some (CalendarEvent.id evt) |}).
    change (str "task-mirror-" ++ key evt) with (key t0).
    apply PassFacts.saveTasks_list_stores.
    + rewrite keys_tasksToCreate. now apply NoDup_map_prefix.
    + unfold tasksToCreate_of. apply in_map_iff. exists evt.
      split; [reflexivity|exact I].
Qed.

Lemma ticking_ids (zone : TimeZone) (i j : nat) :
  show_Z (now (SampleWidget.ticking zone) i)
  ++ random36 (SampleWidget.ticking zone) i
  = show_Z (now (SampleWidget.ticking zone) j)
    ++ random36 (SampleWidget.ticking zone) j -> i = j.
Proof.
  cbn [now random36 SampleWidget.ticking]. intros E.
  apply app_inv_tail in E. apply PassMore.show_Z_inj in E; lia.
Qed.

Lemma created_events_are_mirrored_witness :
  let env := SampleWidget.ticking (fixed_zone 0) in
  let form := SampleCalendar.gym "2024-03-25" weekly in
  parse (date form) = Some 1711324800000
  /\ snd (handleSaveEvent env form Storage.empty) = inr tt.
Proof.
  cbv zeta.
  assert (P : parse (date (SampleCalendar.gym "2024-03-25" weekly))
              = Some 1711324800000) by (vm_compute; reflexivity).
  split; [exact P|].
  exact (proj1 (created_events_are_mirrored
                  (SampleWidget.ticking (fixed_zone 0))
                  (SampleCalendar.gym "2024-03-25" weekly)
                  1711324800000 Storage.empty
                  eq_refl eq_refl eq_refl eq_refl P
                  (ticking_ids (fixed_zone 0)))).
Defined.

(** X28.  In a zone whose offset never changes, the instances of a daily event
    fall on consecutive days and those of a weekly event on every seventh
    day, at the time of day of the first. *)
Theorem instances_evenly_spaced env (baseDate offset : Z) (i : nat) :
  tz env = fixed_zone offset ->
  instanceDate env daily baseDate i = baseDate + Z.of_nat i * msPerDay
  /\ instanceDate env weekly baseDate i = baseDate + Z.of_nat i * 7 * msPerDay
  /\ Day (instanceDate env daily baseDate i) = Day baseDate + Z.of_nat i
  /\ Day (instanceDate env weekly baseDate i) = Day baseDate + 7 * Z.of_nat i
  /\ instanceDate env none baseDate i = baseDate.
Proof.
  intros Z0. unfold instanceDate, getDate. rewrite Z0. cbv zeta.
  rewrite !(CalendarFacts.setDate_fixed offset baseDate).
  rewrite !CalendarFacts.Day_shift.
  repeat split; lia.
Qed.

Lemma instances_evenly_spaced_witness :
  let env := SampleWidget.ticking (fixed_zone (-18000000)) in
  tz env = fixed_zone (-18000000)
  /\ instanceDate env weekly 1711324800000 2
     = 1711324800000 + 2 * 7 * msPerDay.
Proof.
  cbv zeta. split; [reflexivity|].
  exact (proj1 (proj2 (instances_evenly_spaced
                         (SampleWidget.ticking (fixed_zone (-18000000)))
                         1711324800000 (-18000000) 2 eq_refl))).
Defined.

End CalendarMore.

(** ** The API key and the import client *)

Module KeyFacts.

Import Gemini ApiKey GeminiImport.

(** X29.  A key handed out is never the empty text, so testing it for falsiness
    is testing whether there is one.  A key saved in the settings is
    stored without the white space around it and is the one handed out,
    whatever the environments hold; saving a blank field removes the
    stored key and hands the choice back to the environments. *)
Theorem saved_key_is_used (apiKey : jsstring) (k : Sources) :
  (forall key, getApiKey k = Some key -> key <> [])
  /\ hasValidApiKey k
     = truthy (gemini_api_key k) || truthy (VITE_API_KEY k)
       || truthy (API_KEY k)
  /\ (trim apiKey <> [] ->
      getApiKey (handleSaveApiKey apiKey k) = Some (trim apiKey))
  /\ (trim apiKey = [] ->
      getApiKey (handleSaveApiKey apiKey k)
      = getApiKey {| gemini_api_key := None; VITE_API_KEY := VITE_API_KEY k;
                     API_KEY := API_KEY k |}
      /\ hasValidApiKey (handleSaveApiKey apiKey k)
         = truthy (VITE_API_KEY k) || truthy (API_KEY k)).
Proof.
  split; [|split; [|split]].
  - unfold getApiKey. intros key.
    destruct (gemini_api_key k) as [[|c r]|] eqn:L; cbn [truthy];
      destruct (VITE_API_KEY k) as [[|c1 r1]|] eqn:V; cbn [truthy];
      destruct (API_KEY k) as [[|c2 r2]|] eqn:A; cbn [truthy];
      intros E; inversion E; discriminate.
  - unfold hasValidApiKey, getApiKey.
    destruct (gemini_api_key k) as [[|c r]|]; cbn [truthy orb];
      destruct (VITE_API_KEY k) as [[|c1 r1]|]; cbn [truthy orb];
      destruct (API_KEY k) as [[|c2 r2]|]; reflexivity.
  - intros N. unfold handleSaveApiKey.
    destruct (trim apiKey) as [|c r]; [congruence|]. reflexivity.
  - intros E. unfold handleSaveApiKey. rewrite E.
    split; [reflexivity|]. unfold hasValidApiKey, getApiKey.
    cbn [gemini_api_key VITE_API_KEY API_KEY truthy].
    destruct (VITE_API_KEY k) as [[|c1 r1]|]; cbn [truthy orb];
      destruct (API_KEY k) as [[|c2 r2]|]; reflexivity.
Qed.

Lemma saved_key_is_used_witness :
  let k := {| gemini_api_key := None; VITE_API_KEY := Some (str "from-env");
              API_KEY := None |} in
  trim (str "  my-key ") <> []
  /\ getApiKey (handleSaveApiKey (str "  my-key ") k) = Some (str "my-key").
Proof.
  cbv zeta.
  assert (N : trim (str "  my-key ") <> []) by (vm_compute; discriminate).
  split; [exact N|].
  refine (eq_trans (proj1 (proj2 (proj2 (saved_key_is_used (str "  my-key ")
            {| gemini_api_key := None; VITE_API_KEY := Some (str "from-env");
               API_KEY := None |}))) N) _).
  vm_compute. reflexivity.
Defined.

Section Upload.

Variable Imported : Type.
Variable JSON_parse : jsstring -> Error.t + Imported.
Variable service : Service.

Lemma import_attempt_cost (m : Model) (w : World) :
  exists n : nat,
    (1 <= n <= 3)%nat
    /\ requests (fst (attempt Imported JSON_parse service m w))
       = (requests w + n)%nat.
Proof.
  unfold attempt, bind, generate, generateContent.
  destruct (ChatFunctions.retry_requests (service m) w) as [n [Hn R]].
  exists n. split; [exact Hn|].
  destruct (runWithRetry (request (service m)) default_retries w)
    as [w1 [e|t]]; exact R.
Qed.

End Upload.

(** X30.  The import client throws "API Key not found" without a key, sending
    nothing.  With a key it sends at most six requests, and an error
    reaches the caller only after the fallback model was asked too: a
    failure of the first model, or an answer of it that is not JSON, is
    never reported. *)
Theorem import_asks_both_models (Imported : Type)
  (JSON_parse : jsstring -> Error.t + Imported) (service : Service)
  (apiKey : option jsstring) (w : World) :
  let outcome := processUploadedFile Imported JSON_parse service apiKey w in
  (truthy apiKey = false ->
   outcome = (w, inl (Error.make "API Key not found")))
  /\ (requests w <= requests (fst outcome) <= requests w + 6)%nat
  /\ (truthy apiKey = true ->
      forall error, snd outcome = inl error ->
        (requests w + 2 <= requests (fst outcome))%nat)
  /\ (truthy apiKey = true ->
      forall data,
        attempt Imported JSON_parse service MODEL_NAME w
        = (fst (attempt Imported JSON_parse service MODEL_NAME w), inr data) ->
        outcome = attempt Imported JSON_parse service MODEL_NAME w).
Proof.
  cbv zeta. unfold processUploadedFile.
  destruct (truthy apiKey) eqn:K; cbn [negb].
  2:{ split; [reflexivity|]. cbn [throw fst snd].
      split; [lia|]. split; discriminate. }
  split; [discriminate|]. unfold try_catch.
  destruct (import_attempt_cost Imported JSON_parse service MODEL_NAME w)
    as [n1 [H1 R1]].
  destruct (attempt Imported JSON_parse service MODEL_NAME w)
    as [w1 [e1|d1]]; cbn [fst] in R1.
  - destruct (import_attempt_cost Imported JSON_parse service FALLBACK_MODEL w1)
      as [n2 [H2 R2]].
    destruct (attempt Imported JSON_parse service FALLBACK_MODEL w1)
      as [w2 [e2|d2]]; cbn [fst snd throw] in *.
    + split; [lia|]. split; [intros _ e _; lia|].
      intros _ data E. discriminate.
    + split; [lia|]. split; [intros _ e E; discriminate|].
      intros _ data E. discriminate.
  - cbn [fst snd]. split; [lia|]. split; [intros _ e E; discriminate|].
    intros _ data E. reflexivity.
Qed.

Lemma import_asks_both_models_witness :
  truthy None = false
  /\ processUploadedFile GeneratedData (fun _ => inr JNull) SampleErrors.down
       None start
     = (start, inl (Error.make "API Key not found")).
Proof.
  split; [reflexivity|].
  exact (proj1 (import_asks_both_models GeneratedData (fun _ => inr JNull)
                  SampleErrors.down None start) eq_refl).
Defined.

End KeyFacts.
